(** * Deployment gatekeeper (scripts/predeploy.py, scripts/common.py)

    A shallow embedding of the pre-deploy check of the CI scripts:
    deploy-note derivation, human/bot commit classification, the
    deploy-required and safe-to-deploy decisions and the entry point.

    Python [str] values are sequences of Unicode code points; they are
    modelled as lists of code points ([N]).  Calls that can raise return a
    [Result]; printing, remote reads and the CI output channels are
    recorded in a trace (a writer monad). *)

From Stdlib Require Import String Ascii List NArith Bool Arith Lia.
Import ListNotations.

Set Implicit Arguments.

(** ** Python strings *)

Module Str.

Definition pystr := list N.

(** An ASCII literal as a Python string. *)
Definition py (s : string) : pystr :=
  map N_of_ascii (list_ascii_of_string s).

Definition LF : N := 10.
Definition CR : N := 13.
Definition BACKSLASH : N := 92.
Definition SQUOTE : N := 39.
Definition DQUOTE : N := 34.

(** [a == b] *)
Fixpoint eqb (a b : pystr) : bool :=
  match a, b with
  | [], [] => true
  | x :: a', y :: b' => (x =? y)%N && eqb a' b'
  | _, _ => false
  end.

(** [s.startswith(p)] *)
Fixpoint startswith (s p : pystr) : bool :=
  match p, s with
  | [], _ => true
  | _ :: _, [] => false
  | a :: p', b :: s' => (a =? b)%N && startswith s' p'
  end.

(** [s.endswith(p)]: [p] is compared with the last [len(p)] characters. *)
Definition endswith (s p : pystr) : bool :=
  (length p <=? length s) && eqb (skipn (length s - length p) s) p.

(** [x in t] for a tuple of strings. *)
Definition contains (t : list pystr) (x : pystr) : bool :=
  existsb (eqb x) t.

(** The first occurrence of a non-empty [sep] in [s]: the text before it
    and the text after it. *)
Fixpoint find_sep (sep s : pystr) : option (pystr * pystr) :=
  if startswith s sep then Some ([], skipn (length sep) s)
  else match s with
       | [] => None
       | c :: rest =>
           match find_sep sep rest with
           | Some (before, after) => Some (c :: before, after)
           | None => None
           end
       end.

(** [s.split(sep, 1)] for a non-empty separator. *)
Definition split1 (sep s : pystr) : list pystr :=
  match find_sep sep s with
  | Some (before, after) => [before; after]
  | None => [s]
  end.

(** [s.rsplit(sep, 1)[-1]] for a one-character separator: the text after
    the last occurrence, or all of [s]. *)
Fixpoint rsplit1_last (sep : N) (s : pystr) : pystr :=
  match s with
  | [] => []
  | c :: rest =>
      if existsb (N.eqb sep) rest then rsplit1_last sep rest
      else if (c =? sep)%N then rest else s
  end.

(** The line boundaries of [str.splitlines]: LF, CR, VT, FF, FS, GS, RS,
    NEL, LINE SEPARATOR and PARAGRAPH SEPARATOR (CR LF counts once). *)
Definition is_linebreak (c : N) : bool :=
  ((c =? 10) || (c =? 13) || (c =? 11) || (c =? 12) || (c =? 28)
   || (c =? 29) || (c =? 30) || (c =? 133) || (c =? 8232) || (c =? 8233))%N.

(** [s.splitlines()], scanning left to right; [line] is the current line
    and [after_cr] says that the previous character was a CR, so that a LF
    now belongs to the same boundary. *)
Fixpoint splitlines_from (after_cr : bool) (line s : pystr) : list pystr :=
  match s with
  | [] => match line with [] => [] | _ => [line] end
  | c :: rest =>
      if after_cr && (c =? LF)%N then splitlines_from false [] rest
      else if is_linebreak c then line :: splitlines_from (c =? CR)%N [] rest
      else splitlines_from false (line ++ [c]) rest
  end.

Definition splitlines (s : pystr) : list pystr := splitlines_from false [] s.

(** [s.replace(old, new)] for a one-character [old]. *)
Definition replace_char (old : N) (new s : pystr) : pystr :=
  flat_map (fun c => if (c =? old)%N then new else [c]) s.

(** Unicode white space, as [str.isspace] and the regex class [\s] on
    [str] patterns see it. *)
Definition is_space (c : N) : bool :=
  ((9 <=? c) && (c <=? 13) || (28 <=? c) && (c <=? 32) || (c =? 133)
   || (c =? 160) || (c =? 5760) || (8192 <=? c) && (c <=? 8202)
   || (c =? 8232) || (c =? 8233) || (c =? 8239) || (c =? 8287)
   || (c =? 12288))%N.

(** ASCII lower-casing. *)
Definition ascii_lower (c : N) : N :=
  if ((65 <=? c) && (c <=? 90))%N then (c + 32)%N else c.

(** [str(b).lower()] for a bool. *)
Definition bool_lower (b : bool) : pystr :=
  if b then py "true" else py "false".

End Str.
Import Str.


(** ** Regular expressions ([re])

    The three patterns of predeploy.py use literals, [.], character
    classes, concatenation, groups and the quantifiers [*], [+], [?].
    [pattern.match(s)] is truthy iff some prefix of [s] belongs to the
    language of the pattern (the patterns have no anchors, look-arounds or
    back-references, for which the backtracking search could differ).
    The matcher works by derivatives, for which alternation and the
    empty language are needed too. *)

Module Re.

(** An item of a character class [[...]]. *)
Inductive class_item :=
| CChar (c : N)
| CRange (lo hi : N)
| CSpace.

Inductive regex :=
| Void
| Eps
| Lit (c : N)
| Dot
| Class (items : list class_item)
| Cat (r1 r2 : regex)
| Alt (r1 r2 : regex)
| Star (r : regex)
| Plus (r : regex)
| Opt (r : regex).

(** A compiled pattern: the expression and the [re.IGNORECASE] flag. *)
Record pattern := { expr : regex; ignorecase : bool }.

(** A literal character.  Under [re.IGNORECASE] the comparison is made on
    lower-cased characters; ASCII lower-casing is exact for the letters of
    the patterns here ([A], [u], [x]), which have no other case variants
    in Unicode. *)
Definition lit_accepts (ic : bool) (a c : N) : bool :=
  if ic then (ascii_lower a =? ascii_lower c)%N else (a =? c)%N.

Definition item_accepts (ic : bool) (c : N) (i : class_item) : bool :=
  match i with
  | CChar a => lit_accepts ic a c
  | CRange lo hi =>
      ((lo <=? c) && (c <=? hi)
       || ic && (lo <=? ascii_lower c) && (ascii_lower c <=? hi))%N
  | CSpace => is_space c
  end.

(** [.] without [re.DOTALL]: any character but LF. *)
Definition dot_accepts (c : N) : bool := negb (c =? LF)%N.

Fixpoint nullable (r : regex) : bool :=
  match r with
  | Void => false
  | Eps => true
  | Lit _ | Dot | Class _ => false
  | Cat r1 r2 => nullable r1 && nullable r2
  | Alt r1 r2 => nullable r1 || nullable r2
  | Star _ => true
  | Plus r => nullable r
  | Opt _ => true
  end.

Definition of_bool (b : bool) : regex := if b then Eps else Void.

Fixpoint deriv (ic : bool) (c : N) (r : regex) : regex :=
  match r with
  | Void | Eps => Void
  | Lit a => of_bool (lit_accepts ic a c)
  | Dot => of_bool (dot_accepts c)
  | Class items => of_bool (existsb (item_accepts ic c) items)
  | Cat r1 r2 =>
      if nullable r1 then Alt (Cat (deriv ic c r1) r2) (deriv ic c r2)
      else Cat (deriv ic c r1) r2
  | Alt r1 r2 => Alt (deriv ic c r1) (deriv ic c r2)
  | Star r => Cat (deriv ic c r) (Star r)
  | Plus r => Cat (deriv ic c r) (Star r)
  | Opt r => deriv ic c r
  end.

(** [re.fullmatch]: all of [s] is in the language. *)
Fixpoint fullmatch_expr (ic : bool) (r : regex) (s : pystr) : bool :=
  match s with
  | [] => nullable r
  | c :: rest => fullmatch_expr ic (deriv ic c r) rest
  end.

(** [re.match]: some prefix of [s] is in the language. *)
Fixpoint match_expr (ic : bool) (r : regex) (s : pystr) : bool :=
  nullable r ||
  match s with
  | [] => false
  | c :: rest => match_expr ic (deriv ic c r) rest
  end.

(** Truthiness of [p.match(s)] and of [p.fullmatch(s)]. *)
Definition re_match (p : pattern) (s : pystr) : bool :=
  match_expr (ignorecase p) (expr p) s.

Definition re_fullmatch (p : pattern) (s : pystr) : bool :=
  fullmatch_expr (ignorecase p) (expr p) s.

(** The language of an expression, as a relation. *)
Inductive matches (ic : bool) : regex -> pystr -> Prop :=
| MEps : matches ic Eps []
| MLit a c : lit_accepts ic a c = true -> matches ic (Lit a) [c]
| MDot c : dot_accepts c = true -> matches ic Dot [c]
| MClass items c :
    existsb (item_accepts ic c) items = true -> matches ic (Class items) [c]
| MCat r1 r2 s1 s2 :
    matches ic r1 s1 -> matches ic r2 s2 -> matches ic (Cat r1 r2) (s1 ++ s2)
| MAltL r1 r2 s : matches ic r1 s -> matches ic (Alt r1 r2) s
| MAltR r1 r2 s : matches ic r2 s -> matches ic (Alt r1 r2) s
| MStarNil r : matches ic (Star r) []
| MStarCons r s1 s2 :
    matches ic r s1 -> matches ic (Star r) s2 -> matches ic (Star r) (s1 ++ s2)
| MPlus r s1 s2 :
    matches ic r s1 -> matches ic (Star r) s2 -> matches ic (Plus r) (s1 ++ s2)
| MOptNone r : matches ic (Opt r) []
| MOptSome r s : matches ic r s -> matches ic (Opt r) s.

(** A literal string. *)
Definition lits (s : pystr) : regex :=
  fold_right (fun c r => Cat (Lit c) r) Eps s.

(** Concatenation of a sequence of expressions. *)
Definition seq (rs : list regex) : regex :=
  fold_right Cat Eps rs.

Definition digit : regex := Class [CRange 48 57].
Definition lower_letter : regex := Class [CRange 97 122].

End Re.
Import Re.

(** ** common.py *)

Definition DEPLOY_DEV_BRANCH : pystr := py "deploy/dev".

Definition BOT_EMAILS : list pystr :=
  [py "github-actions[bot]@users.noreply.github.com"; py "noreply@github.com"].

(** ** predeploy.py: the patterns *)

(** [v[0-9]+(\.[0-9]+)*([a-z]+[0-9]+)?] *)
Definition RELEASE_PATTERN : pattern :=
  {| expr := seq [Lit 118; Plus digit;
                  Star (seq [Lit 46; Plus digit]);
                  Opt (seq [Plus lower_letter; Plus digit])];
     ignorecase := false |}.

(** [[0-9\s]*Aux:.*] with [re.IGNORECASE] *)
Definition AUX_PR_PATTERN : pattern :=
  {| expr := seq [Star (Class [CRange 48 57; CSpace]); lits (py "Aux:");
                  Star Dot];
     ignorecase := true |}.

(** [Automatically set version .* of image .* in kustomization.yaml.*];
    the dot of [kustomization.yaml] is not escaped in the source. *)
Definition AUTO_PR_PATTERN : pattern :=
  {| expr := seq [lits (py "Automatically set version "); Star Dot;
                  lits (py " of image "); Star Dot;
                  lits (py " in kustomization"); Dot; lits (py "yaml");
                  Star Dot];
     ignorecase := false |}.

(** ** [shlex.quote] and the quote removal of the shell

    [shlex.quote] belongs to Python's standard library (Lib/shlex.py): the
    empty string gives two single quotes; a string in which the search for
    the class [[^\w@%+=:,./-]] (with [re.ASCII]) finds nothing is returned
    as it is; any other string is put between single quotes, each single
    quote of it replaced by a single quote, a double-quoted single quote
    and a single quote.  The shell's side is the quote removal of a POSIX
    shell on one word (Shell Command Language, 2.2 Quoting). *)

Module Shlex.

(** [\w] under [re.ASCII]: [[a-zA-Z0-9_]]. *)
Definition is_word (c : N) : bool :=
  ((48 <=? c) && (c <=? 57) || (65 <=? c) && (c <=? 90)
   || (97 <=? c) && (c <=? 122) || (c =? 95))%N.

(** The characters outside the class [[^\w@%+=:,./-]]. *)
Definition is_safe (c : N) : bool :=
  is_word c || existsb (N.eqb c) (py "@%+=:,./-").

(** [_find_unsafe(s) is None] *)
Definition all_safe (s : pystr) : bool := forallb is_safe s.

(** The replacement of a single quote. *)
Definition quoted_squote : pystr := [SQUOTE; DQUOTE; SQUOTE; DQUOTE; SQUOTE].

Definition quote (s : pystr) : pystr :=
  match s with
  | [] => [SQUOTE; SQUOTE]
  | _ => if all_safe s then s
         else [SQUOTE] ++ replace_char SQUOTE quoted_squote s ++ [SQUOTE]
  end.

(** Where the shell is in a word. *)
Inductive mode :=
| Unquoted
| InSingle
| InDouble.

(** Characters that end a word or start an expansion, a substitution, a
    pattern or a comment when they are not quoted. *)
Definition is_special (c : N) : bool :=
  is_space c || existsb (N.eqb c) (py "|&;<>()$`*?[]#~!{}^").

(** Quote removal on one word, character by character.  The result is
    [None] when the text is not one fully literal word: an unquoted
    special character, an expansion inside double quotes, a quote left
    open or a backslash at the end. *)
Fixpoint unquote_from (m : mode) (s : pystr) : option pystr :=
  match m, s with
  | Unquoted, [] => Some []
  | _, [] => None
  | Unquoted, c :: rest =>
      if (c =? SQUOTE)%N then unquote_from InSingle rest
      else if (c =? DQUOTE)%N then unquote_from InDouble rest
      else if (c =? BACKSLASH)%N then
        match rest with
        | [] => None
        | d :: rest' =>
            if (d =? LF)%N then unquote_from Unquoted rest'
            else option_map (cons d) (unquote_from Unquoted rest')
        end
      else if is_special c then None
      else option_map (cons c) (unquote_from Unquoted rest)
  | InSingle, c :: rest =>
      if (c =? SQUOTE)%N then unquote_from Unquoted rest
      else option_map (cons c) (unquote_from InSingle rest)
  | InDouble, c :: rest =>
      if (c =? DQUOTE)%N then unquote_from Unquoted rest
      else if (c =? BACKSLASH)%N then
        match rest with
        | [] => None
        | d :: rest' =>
            if (d =? LF)%N then unquote_from InDouble rest'
            else if existsb (N.eqb d) [36; 96; DQUOTE; BACKSLASH]%N
            then option_map (cons d) (unquote_from InDouble rest')
            else option_map (fun r => c :: d :: r) (unquote_from InDouble rest')
        end
      else if existsb (N.eqb c) [36; 96]%N then None
      else option_map (cons c) (unquote_from InDouble rest)
  end.

Definition unquote (s : pystr) : option pystr := unquote_from Unquoted s.

End Shlex.

(** ** Exceptions, effects and the monad of the scripts *)

Inductive exn :=
| IndexError                 (* [l[0]] on an empty list *)
| AttributeError             (* a field absent from the event payload *)
| HTTPError                  (* a failed call to the repository host *)
| SystemExit (status : N).   (* [exit(status)] *)

Inductive Result (A : Type) :=
| Ok (a : A)
| Raise (e : exn).
Arguments Ok {A} a.
Arguments Raise {A} e.

(** The calls made to the repository host. *)
Inductive api_call :=
| GetCommit (sha : pystr)               (* api.git.get_commit *)
| GetRef (ref : pystr)                  (* api.git.get_ref *)
| CompareCommits (base head : pystr).   (* api.repos.compare_commits *)

(** What a run does besides computing a value. *)
Inductive effect :=
| Print (line : pystr)                  (* print(...) *)
| Call (c : api_call)
| Output (name value : pystr)           (* actions_output *)
| Error (message : pystr)               (* actions_error *)
| SetGitUser.                           (* set_git_user() *)

(** A computation: the effects performed, in order, and how it ended. *)
Definition M (A : Type) : Type := list effect * Result A.

Definition ret {A} (a : A) : M A := ([], Ok a).
Definition raise {A} (e : exn) : M A := ([], Raise e).
Definition tell (e : effect) : M unit := ([e], Ok tt).

Definition bind {A B} (m : M A) (f : A -> M B) : M B :=
  match m with
  | (t, Ok a) => let (t', r) := f a in (t ++ t', r)
  | (t, Raise e) => (t, Raise e)
  end.

Declare Scope py_scope.
Delimit Scope py_scope with py.
Notation "x <- m ;; k" := (bind m (fun x => k))
  (at level 61, m at next level, right associativity) : py_scope.
Notation "m ;;; k" := (bind m (fun _ => k))
  (at level 61, right associativity) : py_scope.
Open Scope py_scope.

Definition trace {A} (m : M A) : list effect := fst m.
Definition result {A} (m : M A) : Result A := snd m.

Definition print (line : pystr) : M unit := tell (Print line).

(** Reading an attribute that may be absent from the payload. *)
Definition attr {A} (field : option A) : M A :=
  match field with
  | Some a => ret a
  | None => raise AttributeError
  end.

(** [l[0]] *)
Definition item0 {A} (l : list A) : M A :=
  match l with
  | a :: _ => ret a
  | [] => raise IndexError
  end.

(** The calls to the host made in a trace, in order. *)
Definition calls_of (t : list effect) : list api_call :=
  flat_map (fun e => match e with Call c => [c] | _ => [] end) t.

Definition outputs_of (t : list effect) : list (pystr * pystr) :=
  flat_map (fun e => match e with Output n v => [(n, v)] | _ => [] end) t.

Definition errors_of (t : list effect) : list pystr :=
  flat_map (fun e => match e with Error m => [m] | _ => [] end) t.

(** The exit status of the interpreter: 0 at a normal end, the argument of
    [exit], and 1 when an exception is not caught. *)
Definition exit_status {A} (r : Result A) : N :=
  match r with
  | Ok _ => 0
  | Raise (SystemExit n) => n
  | Raise _ => 1
  end.

(** ** The GitHub context and the repository host *)

Record GitUser := { name : pystr; email : pystr }.

(** A commit as the code reads it: [parents] holds the [sha] of each item
    of [commit.parents]; [html_url] is absent from the head commit of a
    push payload. *)
Record Commit := {
  sha : pystr;
  message : pystr;
  committer : GitUser;
  author : GitUser;
  parents : list pystr;
  url : pystr;
  html_url : option pystr
}.

(** [event.pull_request]; [html_href] is [_links.html.href]. *)
Record PullRequest := {
  title : pystr;
  draft : bool;
  html_href : pystr
}.

Record Release := { tag_name : pystr }.

Record Repository := { default_branch : pystr; repo_html_url : pystr }.

(** [context_github.event]: the payload fields depend on the event. *)
Record Event := {
  pull_request : option PullRequest;
  release : option Release;
  head_commit : option Commit;
  repository : Repository
}.

(** [context_github] *)
Record Context := {
  event_name : pystr;
  event : Event;
  ctx_sha : pystr;
  head_ref : pystr;
  ref : pystr
}.

(** The repository host behind [api]: what each read answers, [None] when
    the call fails.  [get_ref] answers [branch.object.sha] and
    [compare_commits] the [status] of the comparison. *)
Record GhApi := {
  git_get_commit : pystr -> option Commit;
  git_get_ref : pystr -> option pystr;
  repos_compare_commits : pystr -> pystr -> option pystr
}.

Definition http {A} (c : api_call) (answer : option A) : M A :=
  tell (Call c) ;;;
  match answer with
  | Some a => ret a
  | None => raise HTTPError
  end.

Section Scripts.

Variable context_github : Context.
Variable api : GhApi.

Definition get_commit (s : pystr) : M Commit :=
  http (GetCommit s) (git_get_commit api s).

Definition get_ref (r : pystr) : M pystr :=
  http (GetRef r) (git_get_ref api r).

Definition compare_commits (base head : pystr) : M pystr :=
  http (CompareCommits base head) (repos_compare_commits api base head).

(** [context_github.head_ref or context_github.ref.rsplit("/", 1)[-1]] *)
Definition CURRENT_REF : pystr :=
  match head_ref context_github with
  | [] => rsplit1_last 47 (ref context_github)
  | r => r
  end.

Definition MAIN_BRANCH_NAME : pystr :=
  default_branch (repository (event context_github)).

Definition get_current_commit : M Commit :=
  if Str.eqb (event_name context_github) (py "push") then
    attr (head_commit (event context_github))
  else get_commit (ctx_sha context_github).

Definition get_last_commit (branch_name : pystr) : M Commit :=
  branch_sha <- get_ref (py "heads/" ++ branch_name) ;;
  get_commit branch_sha.

(** ** predeploy.py *)

Definition _extract_title (text : pystr) : M pystr :=
  first_n <- item0 (split1 (py "\n") text) ;;
  first_r <- item0 (split1 (py "\r") first_n) ;;
  item0 (splitlines first_r).

(** [commit.get('html_url', commit.url)] *)
Definition commit_link (c : Commit) : pystr :=
  match html_url c with
  | Some u => u
  | None => url c
  end.

(** [not commit] for the optional argument: [None] is falsy, a commit
    object is truthy. *)
Definition not_commit (commit : option Commit) : bool :=
  match commit with
  | None => true
  | Some _ => false
  end.

Definition get_deploy_note (commit : option Commit) : M pystr :=
  if Str.eqb (event_name context_github) (py "pull_request")
     && not_commit commit
  then
    pr <- attr (pull_request (event context_github)) ;;
    title <- _extract_title (title pr) ;;
    ret (py "PR: " ++ title ++ py " " ++ html_href pr)
  else
    commit <- match commit with
              | None => get_current_commit
              | Some c => ret c
              end ;;
    title <- _extract_title (message commit) ;;
    ret (py "Commit: " ++ title ++ py " " ++ commit_link commit).

(** The test of the loop of [_is_human_commit]. *)
Definition is_automated (commit : Commit) : bool :=
  contains BOT_EMAILS (email (committer commit))
  && re_match AUTO_PR_PATTERN (message commit).

(** [for commit in commits: if ...: return False] and [return True] after
    the loop. *)
Fixpoint human_loop (commits : list Commit) : M bool :=
  match commits with
  | [] => ret true
  | commit :: rest =>
      if is_automated commit then ret false else human_loop rest
  end.

(** [[f(x) for x in l]] for an [f] that can raise. *)
Fixpoint comprehension {A B} (f : A -> M B) (l : list A) : M (list B) :=
  match l with
  | [] => ret []
  | x :: rest =>
      y <- f x ;;
      ys <- comprehension f rest ;;
      ret (y :: ys)
  end.

Definition _is_human_commit : M bool :=
  cur_commit <- get_current_commit ;;
  commits <- (if 1 <? length (parents cur_commit)
              then comprehension get_commit (parents cur_commit)
              else ret [cur_commit]) ;;
  human_loop commits.

Definition check_deploy_required : M bool :=
  is_release <-
    (if Str.eqb (event_name context_github) (py "release") then
       rel <- attr (release (event context_github)) ;;
       ret (negb (re_match RELEASE_PATTERN (tag_name rel)))
     else ret false) ;;
  if (is_release : bool) then
    print (py "Non-version tag, skipping the release.") ;;;
    ret false
  else if negb (Str.eqb (event_name context_github) (py "pull_request")) then
    print (py "Not a PR, enable the release.") ;;;
    ret true
  else
    pr <- attr (pull_request (event context_github)) ;;
    if draft pr then
      print (py "Skip release for a draft PR.") ;;;
      ret false
    else
      pr <- attr (pull_request (event context_github)) ;;
      if re_match AUX_PR_PATTERN (title pr) then
        print (py "Skip release for a PR prefixed with `Aux:`.") ;;;
        ret false
      else
        is_human_commit <- _is_human_commit ;;
        (if negb is_human_commit
         then print (py "Skipping the release for a commit created by a bot.")
         else ret tt) ;;;
        ret is_human_commit.

(** The value of [_is_branch_directly_deployed]: [True], or [None] when
    the loop ends without a [return]. *)
Inductive PyVal :=
| PyTrue
| PyNone.

Definition truthy (v : PyVal) : bool :=
  match v with
  | PyTrue => true
  | PyNone => false
  end.

Fixpoint directly_deployed_loop (branches : list pystr) : M PyVal :=
  match branches with
  | [] => ret PyNone
  | branch :: rest =>
      status <- compare_commits branch DEPLOY_DEV_BRANCH ;;
      if Str.eqb status (py "identical") then
        print (DEPLOY_DEV_BRANCH ++ py " is identical to " ++ branch
               ++ py ", allow to override.") ;;;
        ret PyTrue
      else directly_deployed_loop rest
  end.

Definition _is_branch_directly_deployed : M PyVal :=
  directly_deployed_loop [MAIN_BRANCH_NAME; head_ref context_github].

(** The loop of [check_safe_to_deploy] over the candidates
    [(name, commit)], and the [return False] after it. *)
Fixpoint safe_loop (last_deploy_commit : Commit)
    (candidates : list (pystr * option Commit)) : M bool :=
  match candidates with
  | [] => ret false
  | (name, commit) :: rest =>
      if negb (contains BOT_EMAILS (email (committer last_deploy_commit)))
      then safe_loop last_deploy_commit rest
      else
        note <- get_deploy_note commit ;;
        if endswith (message last_deploy_commit) note then
          print (py "The deploy seems to be based on " ++ name
                 ++ py ".  Allow to override.") ;;;
          ret true
        else safe_loop last_deploy_commit rest
  end.

Definition check_safe_to_deploy : M bool :=
  if negb (Str.eqb (event_name context_github) (py "pull_request")) then
    print (py "Not a PR, assume it is safe to deploy.") ;;;
    ret true
  else
    directly <- _is_branch_directly_deployed ;;
    if truthy directly then ret true
    else
      last_deploy_commit <- get_last_commit DEPLOY_DEV_BRANCH ;;
      last_main_commit <- get_last_commit MAIN_BRANCH_NAME ;;
      safe_loop last_deploy_commit
        [(py "HEAD", None); (MAIN_BRANCH_NAME, Some last_main_commit)].

(** The text given to [actions_error]: the f-string after
    [textwrap.dedent], which removes the indentation common to its lines
    and empties the last, blank line (for a ref and a URL of one line). *)
Definition unsafe_message : pystr :=
  [LF] ++ py "The branch " ++ [DQUOTE] ++ DEPLOY_DEV_BRANCH ++ [DQUOTE]
  ++ py " is not a direct accessor of " ++ [DQUOTE] ++ CURRENT_REF
  ++ [DQUOTE] ++ py "." ++ [LF]
  ++ py "Make sure the conflicting PRs are merged and re-run this job."
  ++ [LF]
  ++ py "If it did not help, try resetting the " ++ DEPLOY_DEV_BRANCH
  ++ py " branch with" ++ [LF]
  ++ [DQUOTE] ++ py "Reset deploy/dev branch" ++ [DQUOTE] ++ py " action:"
  ++ [LF]
  ++ repo_html_url (repository (event context_github))
  ++ py "/actions/workflows/reset-dev-deploy-branch.yml" ++ [LF].

(** The body of [if __name__ == "__main__":]. *)
Definition main : M unit :=
  tell SetGitUser ;;;
  _deploy_note <- get_deploy_note None ;;
  tell (Output (py "note_raw") _deploy_note) ;;;
  tell (Output (py "note_clean") (Shlex.quote _deploy_note)) ;;;
  _is_deploy_required <- check_deploy_required ;;
  tell (Output (py "confirm") (bool_lower _is_deploy_required)) ;;;
  unsafe <- (if (_is_deploy_required : bool)
             then safe <- check_safe_to_deploy ;; ret (negb safe)
             else ret false) ;;
  if (unsafe : bool) then
    tell (Error unsafe_message) ;;;
    raise (SystemExit 1)
  else ret tt.

End Scripts.

(** ** Sample events and repositories *)

Module Sample.

Definition dev : GitUser :=
  {| name := py "Dev"; email := py "dev@example.com" |}.

Definition actions_bot : GitUser :=
  {| name := py "github-actions[bot]";
     email := py "github-actions[bot]@users.noreply.github.com" |}.

Definition web_flow : GitUser :=
  {| name := py "GitHub"; email := py "noreply@github.com" |}.

Definition mk_commit (s msg : pystr) (who : GitUser) (ps : list pystr)
  : Commit :=
  {| sha := s; message := msg; committer := who; author := who;
     parents := ps;
     url := py "https://api.host/git/commits/" ++ s;
     html_url := Some (py "https://host/commit/" ++ s) |}.

Definition bump_message : pystr :=
  py "Automatically set version 1.0.1 of image web in kustomization.yaml".

(** A human commit, a version bump by the bot and their merge. *)
Definition p1 : Commit := mk_commit (py "a1") (py "Add retry logic") dev [py "00"].
Definition p2 : Commit := mk_commit (py "b2") bump_message actions_bot [py "00"].
Definition merge12 : Commit :=
  mk_commit (py "c3") (py "Merge b2 into a1") web_flow [py "a1"; py "b2"].

(** The bump with a human committer, and a bot commit with another
    message. *)
Definition bump_by_dev : Commit := mk_commit (py "d4") bump_message dev [py "00"].
Definition bot_other : Commit :=
  mk_commit (py "e5") (py "Update lock file") actions_bot [py "00"].

(** The tip of the main branch and two tips for the deploy branch: one
    recording the note of the pull request, one made by hand. *)
Definition main_tip : Commit := mk_commit (py "f6") (py "Release notes") dev [py "00"].

Definition pr_note : pystr := py "PR: Fix bug #42 https://host/pr/42".

Definition deploy_tip_noted : Commit :=
  mk_commit (py "77") (py "Deploy to dev: " ++ pr_note) actions_bot [py "00"].

Definition deploy_tip_manual : Commit :=
  mk_commit (py "88") (py "Manual hotfix") dev [py "00"].

Definition lookup {A} (k : pystr) (l : list (pystr * A)) : option A :=
  match find (fun kv => Str.eqb k (fst kv)) l with
  | Some kv => Some (snd kv)
  | None => None
  end.

Definition commits : list (pystr * Commit) :=
  map (fun c => (sha c, c))
      [p1; p2; merge12; bump_by_dev; bot_other; main_tip; deploy_tip_noted;
       deploy_tip_manual].

(** A host on which [main] is at [main_tip], [deploy/dev] at [deploy_tip]
    and no branch compares as identical to the deploy branch. *)
Definition host (deploy_tip : Commit) : GhApi :=
  {| git_get_commit := fun s => lookup s commits;
     git_get_ref := fun r =>
       lookup r [(py "heads/main", sha main_tip);
                 (py "heads/deploy/dev", sha deploy_tip)];
     repos_compare_commits := fun _ _ => Some (py "ahead") |}.

Definition repo : Repository :=
  {| default_branch := py "main"; repo_html_url := py "https://host/repo" |}.

Definition pr_event (t : pystr) (d : bool) : Event :=
  {| pull_request :=
       Some {| title := t; draft := d; html_href := py "https://host/pr/42" |};
     release := None; head_commit := None; repository := repo |}.

(** A pull request event whose current commit is [c]. *)
Definition pr_context (t : pystr) (d : bool) (c : Commit) : Context :=
  {| event_name := py "pull_request"; event := pr_event t d;
     ctx_sha := sha c; head_ref := py "feature"; ref := py "refs/pull/42/merge" |}.

Definition release_context (tag : pystr) : Context :=
  {| event_name := py "release";
     event := {| pull_request := None; release := Some {| tag_name := tag |};
                 head_commit := None; repository := repo |};
     ctx_sha := py "a1"; head_ref := []; ref := py "refs/tags/" ++ tag |}.

Definition push_context (c : Commit) : Context :=
  {| event_name := py "push";
     event := {| pull_request := None; release := None;
                 head_commit := Some c; repository := repo |};
     ctx_sha := sha c; head_ref := []; ref := py "refs/heads/main" |}.

(** The same host, on which [branch] compares as identical to the deploy
    branch. *)
Definition host_identical (branch : pystr) (deploy_tip : Commit) : GhApi :=
  {| git_get_commit := git_get_commit (host deploy_tip);
     git_get_ref := git_get_ref (host deploy_tip);
     repos_compare_commits := fun base _ =>
       if Str.eqb base branch then Some (py "identical")
       else Some (py "behind") |}.

Definition main_note : pystr := py "Commit: Release notes https://host/commit/f6".

(** The host with a deploy branch updated by hand, and the pull request
    whose merge commit is [merge12]. *)
Definition plain_host : GhApi := host deploy_tip_manual.

(** The pull request [Fix bug #42], open on the human commit [p1]. *)
Definition fix_context : Context := pr_context (py "Fix bug #42") false p1.

Definition merge_context : Context :=
  pr_context (py "Add retry logic") false merge12.

(** A manual run of the workflow on the main branch, and a host that
    answers no call. *)
Definition dispatch_context : Context :=
  {| event_name := py "workflow_dispatch";
     event := {| pull_request := None; release := None;
                 head_commit := None; repository := repo |};
     ctx_sha := sha main_tip; head_ref := []; ref := py "refs/heads/main" |}.

Definition offline_host : GhApi :=
  {| git_get_commit := fun _ => None;
     git_get_ref := fun _ => None;
     repos_compare_commits := fun _ _ => None |}.

End Sample.

(** ** Notions used in the statements *)

(** The status for which [_is_branch_directly_deployed] looks. *)
Definition identical : pystr := py "identical".

(** A trace that writes nothing to the output and error channels. *)
Definition silent (t : list effect) : Prop :=
  outputs_of t = [] /\ errors_of t = [].

(** The text before the first occurrence of [sep], or all of [s]:
    [s.split(sep, 1)[0]]. *)
Definition first_segment (sep s : pystr) : pystr :=
  match find_sep sep s with
  | Some (before, _) => before
  | None => s
  end.

(** No character of [s] is a line boundary. *)
Definition no_linebreak (s : pystr) : Prop :=
  Forall (fun c => is_linebreak c = false) s.

(** [sep] occurs in [s]. *)
Definition occurs (sep s : pystr) : Prop :=
  exists before after, s = before ++ sep ++ after.

(** The two-character escape sequences on which [_extract_title] splits:
    a backslash followed by the letter n, and by the letter r. *)
Definition ESCAPED_N : pystr := [BACKSLASH; 110%N].
Definition ESCAPED_R : pystr := [BACKSLASH; 114%N].

(** An ASCII digit. *)
Definition is_digit (c : N) : Prop := (48 <= c <= 57)%N.

(** ** Further notions used in the statements *)

(** [p] is a prefix of [s]. *)
Definition is_prefix (p s : pystr) : Prop := exists rest, s = p ++ rest.

(** A computation that does not end with [exit]. *)
Definition no_exit {A : Type} (m : M A) : Prop :=
  forall n, result m <> Raise (SystemExit n).

(** ** Further sample hosts *)

Module Scenario.

(** The sample host on which the commit [b2] cannot be read. *)
Definition unreadable_host : GhApi :=
  {| git_get_commit := fun s =>
       if Str.eqb s (py "b2") then None
       else git_get_commit Sample.plain_host s;
     git_get_ref := git_get_ref Sample.plain_host;
     repos_compare_commits := repos_compare_commits Sample.plain_host |}.

(** A host on which the comparison of the main branch fails, while the
    head branch would compare as identical to the deploy branch. *)
Definition main_compare_fails_host : GhApi :=
  {| git_get_commit := git_get_commit Sample.plain_host;
     git_get_ref := git_get_ref Sample.plain_host;
     repos_compare_commits := fun base _ =>
       if Str.eqb base (py "main") then None else Some (py "identical") |}.

(** A commit with an empty message, and the host on which it is the tip of
    the main branch while the deploy branch holds the note recorded by the
    bot. *)
Definition empty_message_tip : Commit :=
  Sample.mk_commit (py "99") [] Sample.dev [py "00"].

Definition empty_main_host : GhApi :=
  {| git_get_commit := fun s =>
       if Str.eqb s (py "99") then Some empty_message_tip
       else git_get_commit (Sample.host Sample.deploy_tip_noted) s;
     git_get_ref := fun r =>
       if Str.eqb r (py "heads/main") then Some (py "99")
       else git_get_ref (Sample.host Sample.deploy_tip_noted) r;
     repos_compare_commits :=
       repos_compare_commits (Sample.host Sample.deploy_tip_noted) |}.

End Scenario.

(** ** cleanup.py, reset_branch.py and reset_dev_branch.py

    These scripts change the references of the host.  The host is a store
    that the calls read and change; a computation takes the store and
    gives what it did, how it ended and the store it leaves. *)

Module Maintenance.

(** The calls of these scripts. *)
Inductive ref_call :=
| ListMatchingRefs (ref : pystr)                 (* api.git.list_matching_refs *)
| DeleteRef (ref : pystr)                        (* api.git.delete_ref *)
| UpdateRef (ref sha : pystr) (force : bool).    (* api.git.update_ref *)

Inductive action :=
| Say (line : pystr)                             (* print(...) *)
| Do (c : ref_call).

(** The host: [list_matching_refs] answers the [ref] field of each
    reference found, [update_ref] the text under which the answer is
    printed; [None] is a failed call, which leaves the store as it is. *)
Record RefHost (Store : Type) := {
  list_matching_refs : Store -> pystr -> option (list pystr);
  delete_ref : Store -> pystr -> option Store;
  update_ref : Store -> pystr -> pystr -> bool -> option (pystr * Store)
}.

Definition Run (Store A : Type) : Type := list action * Result A * Store.

Definition actions {Store A} (r : Run Store A) : list action := fst (fst r).
Definition outcome {Store A} (r : Run Store A) : Result A := snd (fst r).
Definition store_after {Store A} (r : Run Store A) : Store := snd r.

(** The deletions asked for in a run, in order. *)
Definition deletions (t : list action) : list pystr :=
  flat_map (fun a => match a with Do (DeleteRef r) => [r] | _ => [] end) t.

(** [l[-1]] *)
Definition item_last {A} (l : list A) : Result A :=
  match rev l with
  | a :: _ => Ok a
  | [] => Raise IndexError
  end.

Section Scripts.

Variable Store : Type.
Variable host : RefHost Store.
Variable context_github : Context.

(** [f"heads/{ CURRENT_REF }-auto-pr-"] *)
Definition stale_prefix : pystr :=
  py "heads/" ++ CURRENT_REF context_github ++ py "-auto-pr-".

(** The loop of cleanup.py over the references found. *)
Fixpoint delete_loop (stale_branches : list pystr) (s : Store)
  : Run Store unit :=
  match stale_branches with
  | [] => ([], Ok tt, s)
  | branch :: rest =>
      match item_last (split1 (py "/") branch) with
      | Raise e => ([], Raise e, s)
      | Ok ref =>
          let said := [Say (py "Deleting " ++ ref); Do (DeleteRef ref)] in
          match delete_ref host s ref with
          | None => (said, Raise HTTPError, s)
          | Some s' =>
              let '(t, r, s'') := delete_loop rest s' in
              (said ++ t, r, s'')
          end
      end
  end.

(** The body of cleanup.py. *)
Definition cleanup (s : Store) : Run Store unit :=
  let listing := Do (ListMatchingRefs stale_prefix) in
  match list_matching_refs host s stale_prefix with
  | None => ([listing], Raise HTTPError, s)
  | Some stale_branches =>
      let '(t, r, s') := delete_loop stale_branches s in
      (listing :: t, r, s')
  end.

(** reset_branch.py: [_reset_branch(name)] *)
Definition _reset_branch (name : pystr) (s : Store) : Run Store unit :=
  let call := Do (UpdateRef (py "heads/" ++ name) (ctx_sha context_github)
                    true) in
  match update_ref host s (py "heads/" ++ name) (ctx_sha context_github) true
  with
  | None => ([call], Raise HTTPError, s)
  | Some (shown, s') => ([call; Say shown], Ok tt, s')
  end.

(** The body of reset_dev_branch.py. *)
Definition reset_dev_branch (s : Store) : Run Store unit :=
  let call := Do (UpdateRef (py "heads/deploy/dev") (ctx_sha context_github)
                    true) in
  match update_ref host s (py "heads/deploy/dev") (ctx_sha context_github)
          true
  with
  | None => ([call], Raise HTTPError, s)
  | Some (shown, s') => ([call; Say shown], Ok tt, s')
  end.

End Scripts.

(** The name under which [delete_ref] is asked to delete a reference
    found: the text after its first slash, or all of it. *)
Definition after_first_slash (branch : pystr) : pystr :=
  match find_sep (py "/") branch with
  | Some (_, after) => after
  | None => branch
  end.

(** A host that keeps its references as a table of full names [refs/...]:
    it finds the references whose name begins with [refs/] and the text
    asked for, and deletes a reference by its name without [refs/]. *)
Definition lists_by_prefix {Store} (host : RefHost Store)
    (refs : Store -> list pystr) : Prop :=
  forall s p,
    list_matching_refs host s p
    = Some (filter (fun r => startswith r (py "refs/" ++ p)) (refs s)).

Definition deletes_by_name {Store} (host : RefHost Store)
    (refs : Store -> list pystr) : Prop :=
  forall s r,
    In (py "refs/" ++ r) (refs s) ->
    exists s',
      delete_ref host s r = Some s'
      /\ refs s' = filter (fun x => negb (Str.eqb x (py "refs/" ++ r))) (refs s).

(** Such a host: the store is the list of the names. *)
Definition table_host : RefHost (list pystr) :=
  {| list_matching_refs := fun s p =>
       Some (filter (fun r => startswith r (py "refs/" ++ p)) s);
     delete_ref := fun s r =>
       if contains s (py "refs/" ++ r)
       then Some (filter (fun x => negb (Str.eqb x (py "refs/" ++ r))) s)
       else None;
     update_ref := fun s r sha force =>
       if contains s (py "refs/" ++ r) then Some (sha, s) else None |}.

(** References of a repository with two branches left by automation. *)
Definition sample_refs : list pystr :=
  [py "refs/heads/main"; py "refs/heads/feature";
   py "refs/heads/feature-auto-pr-7"; py "refs/heads/deploy/dev";
   py "refs/heads/feature-auto-pr-12"; py "refs/tags/v1.2.3"].

(** The listings asked for in a run, in order. *)
Definition listings (t : list action) : list pystr :=
  flat_map (fun a => match a with
                     | Do (ListMatchingRefs r) => [r]
                     | _ => []
                     end) t.

(** What the loop of cleanup.py does for the names it asks to delete: for
    each name the printed line, then the call. *)
Definition deleting (names : list pystr) : list action :=
  flat_map (fun d => [Say (py "Deleting " ++ d); Do (DeleteRef d)]) names.

(** The store left by the deletion of each name in turn, when every
    deletion succeeds. *)
Fixpoint delete_each {Store} (host : RefHost Store) (names : list pystr)
    (s : Store) : option Store :=
  match names with
  | [] => Some s
  | d :: rest =>
      match delete_ref host s d with
      | Some s' => delete_each host rest s'
      | None => None
      end
  end.

(** A table on which the deletion of the branch [feature-auto-pr-12] is
    refused, and references with three branches left by automation. *)
Definition refusing_host : RefHost (list pystr) :=
  {| list_matching_refs := list_matching_refs table_host;
     delete_ref := fun s r =>
       if Str.eqb r (py "heads/feature-auto-pr-12") then None
       else delete_ref table_host s r;
     update_ref := update_ref table_host |}.

Definition three_stale_refs : list pystr :=
  [py "refs/heads/main"; py "refs/heads/feature-auto-pr-7";
   py "refs/heads/feature-auto-pr-12"; py "refs/heads/feature-auto-pr-30"].

End Maintenance.
(** * Properties *)

Unset Implicit Arguments.

(** ** Strings *)

Lemma str_eqb_eq (a b : pystr) : Str.eqb a b = true <-> a = b.
Proof.
  revert b. induction a as [|x a IH]; intros [|y b]; simpl;
    try (split; [discriminate | congruence]); try tauto.
  rewrite andb_true_iff, N.eqb_eq, IH. split.
  - intros [-> ->]. reflexivity.
  - intros H. inversion H. auto.
Qed.

Lemma str_eqb_refl (a : pystr) : Str.eqb a a = true.
Proof. now apply str_eqb_eq. Qed.

Lemma str_eqb_neq (a b : pystr) : Str.eqb a b = false <-> a <> b.
Proof.
  rewrite <- str_eqb_eq. destruct (Str.eqb a b); split; congruence.
Qed.

Lemma contains_In (t : list pystr) (x : pystr) :
  contains t x = true <-> In x t.
Proof.
  unfold contains. rewrite existsb_exists. split.
  - intros [y [Hy E]]. apply str_eqb_eq in E. now subst.
  - intros H. exists x. split; [assumption | apply str_eqb_refl].
Qed.

Example splitlines_empty : splitlines [] = [].
Proof. reflexivity. Qed.

Example splitlines_crlf :
  splitlines (py "ab" ++ [CR; LF] ++ py "c" ++ [LF]) = [py "ab"; py "c"].
Proof. reflexivity. Qed.

Example splitlines_blank : splitlines [LF] = [[]].
Proof. reflexivity. Qed.

Example split1_escape :
  split1 (py "\n") (py "fix\nbody\nmore") = [py "fix"; py "body\nmore"].
Proof. reflexivity. Qed.

Example rsplit_ref : rsplit1_last 47 (py "refs/heads/main") = py "main".
Proof. reflexivity. Qed.

(** ** Patterns on examples *)

Example release_v123 : re_match RELEASE_PATTERN (py "v1.2.3") = true.
Proof. reflexivity. Qed.

Example release_nightly : re_match RELEASE_PATTERN (py "nightly-build") = false.
Proof. reflexivity. Qed.

Example release_rc : re_fullmatch RELEASE_PATTERN (py "v1.2rc1") = true.
Proof. reflexivity. Qed.

Example release_prefix_only :
  re_match RELEASE_PATTERN (py "v1-nightly") = true
  /\ re_fullmatch RELEASE_PATTERN (py "v1-nightly") = false.
Proof. split; reflexivity. Qed.

Example aux_title : re_match AUX_PR_PATTERN (py "123 Aux: cleanup docs") = true.
Proof. reflexivity. Qed.

Example aux_title_case : re_match AUX_PR_PATTERN (py "aUX: x") = true.
Proof. reflexivity. Qed.

Example plain_title : re_match AUX_PR_PATTERN (py "Add retry logic") = false.
Proof. reflexivity. Qed.

Example auto_message :
  re_match AUTO_PR_PATTERN
    (py "Automatically set version 1.0.1 of image web in kustomization.yaml [skip ci]")
  = true.
Proof. vm_compute. reflexivity. Qed.

Example auto_message_not_at_start :
  re_match AUTO_PR_PATTERN
    (py "Revert: Automatically set version 1 of image web in kustomization.yaml")
  = false.
Proof. vm_compute. reflexivity. Qed.

(** ** The matcher and the language of an expression *)

Section Matcher.

Variable ic : bool.

Lemma matches_nil_nullable (r : regex) (s : pystr) :
  matches ic r s -> s = [] -> nullable r = true.
Proof.
  induction 1; intros Hs; cbn; try discriminate; try reflexivity.
  - apply app_eq_nil in Hs. destruct Hs. now rewrite IHmatches1, IHmatches2.
  - now rewrite IHmatches.
  - now rewrite IHmatches, orb_true_r.
  - apply app_eq_nil in Hs. destruct Hs. auto.
Qed.

Lemma nullable_matches_nil (r : regex) :
  nullable r = true -> matches ic r [].
Proof.
  induction r; cbn; intros H; try discriminate.
  - constructor.
  - apply andb_true_iff in H. destruct H.
    change (@nil N) with (@nil N ++ []). constructor; auto.
  - apply orb_true_iff in H. destruct H; [apply MAltL | apply MAltR]; auto.
  - constructor.
  - change (@nil N) with (@nil N ++ []). constructor; [auto | constructor].
  - constructor.
Qed.

Lemma matches_of_bool (b : bool) (s : pystr) :
  matches ic (of_bool b) s -> b = true /\ s = [].
Proof. destruct b; cbn; intros H; inversion H; auto. Qed.

Lemma deriv_sound (c : N) (r : regex) :
  forall s, matches ic (deriv ic c r) s -> matches ic r (c :: s).
Proof.
  induction r; cbn [deriv]; intros s H.
  - inversion H.
  - inversion H.
  - apply matches_of_bool in H. destruct H as [H ->]. now constructor.
  - apply matches_of_bool in H. destruct H as [H ->]. now constructor.
  - apply matches_of_bool in H. destruct H as [H ->]. now constructor.
  - destruct (nullable r1) eqn:E.
    + inversion H; subst.
      * match goal with
        | H' : matches _ (Cat _ _) _ |- _ => inversion H'; subst
        end.
        change (c :: s1 ++ s2) with ((c :: s1) ++ s2). constructor; auto.
      * change (c :: s) with ([] ++ c :: s).
        constructor; [now apply nullable_matches_nil | auto].
    + inversion H; subst.
      change (c :: s1 ++ s2) with ((c :: s1) ++ s2). constructor; auto.
  - inversion H; subst; [apply MAltL | apply MAltR]; auto.
  - inversion H; subst.
    change (c :: s1 ++ s2) with ((c :: s1) ++ s2). constructor; auto.
  - inversion H; subst.
    change (c :: s1 ++ s2) with ((c :: s1) ++ s2). constructor; auto.
  - apply MOptSome. auto.
Qed.

Lemma deriv_complete (r : regex) (w : pystr) :
  matches ic r w ->
  forall c s, w = c :: s -> matches ic (deriv ic c r) s.
Proof.
  induction 1; intros c0 s0 Hw; cbn [deriv]; try discriminate.
  - inversion Hw; subst. rewrite H. constructor.
  - inversion Hw; subst. rewrite H. constructor.
  - inversion Hw; subst. rewrite H. constructor.
  - destruct s1 as [|c1 s1]; cbn in Hw.
    + rewrite (matches_nil_nullable _ _ H eq_refl). apply MAltR. auto.
    + inversion Hw; subst.
      assert (Hc : matches ic (Cat (deriv ic c0 r1) r2) (s1 ++ s2))
        by (constructor; auto).
      destruct (nullable r1); [now apply MAltL | exact Hc].
  - apply MAltL. auto.
  - apply MAltR. auto.
  - destruct s1 as [|c1 s1]; cbn in Hw.
    + apply (IHmatches2 _ _ Hw).
    + inversion Hw; subst. constructor; auto.
  - destruct s1 as [|c1 s1]; cbn in Hw.
    + apply (IHmatches2 _ _ Hw).
    + inversion Hw; subst. constructor; auto.
  - auto.
Qed.

(** The matcher decides the language. *)
Lemma fullmatch_expr_iff (s : pystr) :
  forall r, fullmatch_expr ic r s = true <-> matches ic r s.
Proof.
  induction s as [|c s IH]; intros r; cbn [fullmatch_expr].
  - split; [apply nullable_matches_nil|].
    intros H. now apply (matches_nil_nullable _ _ H).
  - rewrite IH. split; [apply deriv_sound|].
    intros H. now apply (deriv_complete _ _ H).
Qed.

(** [match] looks for a prefix in the language. *)
Lemma match_expr_iff (s : pystr) :
  forall r, match_expr ic r s = true <->
            exists p rest, s = p ++ rest /\ fullmatch_expr ic r p = true.
Proof.
  induction s as [|c s IH]; intros r; cbn [match_expr].
  - rewrite orb_false_r. split.
    + intros H. now exists [], [].
    + intros [p [rest [Hs Hp]]]. symmetry in Hs. apply app_eq_nil in Hs.
      destruct Hs; subst. exact Hp.
  - rewrite orb_true_iff, IH. split.
    + intros [H | [p [rest [Hs Hp]]]].
      * now exists [], (c :: s).
      * exists (c :: p), rest. subst. auto.
    + intros [[|c' p] [rest [Hs Hp]]]; [left; exact Hp | right].
      inversion Hs; subst. now exists p, rest.
Qed.

End Matcher.

Lemma re_fullmatch_iff (p : pattern) (s : pystr) :
  re_fullmatch p s = true <-> matches (ignorecase p) (expr p) s.
Proof. apply fullmatch_expr_iff. Qed.

Lemma re_match_iff (p : pattern) (s : pystr) :
  re_match p s = true <->
  exists prefix rest, s = prefix ++ rest /\ re_fullmatch p prefix = true.
Proof. apply match_expr_iff. Qed.

(** ** The version-tag pattern *)

Lemma digit_accepts (ic : bool) (c : N) :
  existsb (item_accepts ic c) [CRange 48 57] = true <-> is_digit c.
Proof.
  unfold is_digit. cbn [existsb item_accepts]. rewrite orb_false_r.
  assert (Hl : ascii_lower c = c \/ (97 <= ascii_lower c)%N).
  { unfold ascii_lower.
    destruct ((65 <=? c)%N && (c <=? 90)%N) eqn:E; [right | now left].
    apply andb_true_iff in E. destruct E as [E _].
    apply N.leb_le in E. lia. }
  rewrite orb_true_iff, !andb_true_iff, !N.leb_le. split.
  - intros [H|[[_ H1] H2]]; [lia|]. destruct Hl as [Hl|Hl]; lia.
  - intros H. left. lia.
Qed.

Lemma matches_cat_inv (ic : bool) (r1 r2 : regex) (s : pystr) :
  matches ic (Cat r1 r2) s ->
  exists s1 s2, s = s1 ++ s2 /\ matches ic r1 s1 /\ matches ic r2 s2.
Proof. intros H. inversion H; subst. eauto. Qed.

Lemma matches_plus_inv (ic : bool) (r : regex) (s : pystr) :
  matches ic (Plus r) s ->
  exists s1 s2, s = s1 ++ s2 /\ matches ic r s1 /\ matches ic (Star r) s2.
Proof. intros H. inversion H; subst. eauto. Qed.

Lemma matches_lit_inv (ic : bool) (a : N) (s : pystr) :
  matches ic (Lit a) s -> exists c, s = [c] /\ lit_accepts ic a c = true.
Proof. intros H. inversion H; subst. eauto. Qed.

Lemma matches_class_inv (ic : bool) (items : list class_item) (s : pystr) :
  matches ic (Class items) s ->
  exists c, s = [c] /\ existsb (item_accepts ic c) items = true.
Proof. intros H. inversion H; subst. eauto. Qed.

(** A tag matches the version-tag pattern as soon as it begins with [v]
    and a digit, whatever follows. *)
Lemma release_pattern_match_iff (tag : pystr) :
  re_match RELEASE_PATTERN tag = true <->
  exists d rest, tag = 118%N :: d :: rest /\ is_digit d.
Proof.
  rewrite re_match_iff. split.
  - intros [p [rest [-> H]]]. apply re_fullmatch_iff in H.
    cbn in H.
    apply matches_cat_inv in H. destruct H as [sv [s' [-> [Hv H]]]].
    apply matches_lit_inv in Hv. destruct Hv as [v [-> Hv]].
    unfold lit_accepts in Hv. apply N.eqb_eq in Hv. subst v.
    apply matches_cat_inv in H. destruct H as [sd [s'' [-> [Hd _]]]].
    apply matches_plus_inv in Hd. destruct Hd as [s1 [s2 [-> [Hd _]]]].
    apply matches_class_inv in Hd. destruct Hd as [d [-> Hd]].
    apply digit_accepts in Hd.
    exists d. eexists. split; [|exact Hd]. cbn. reflexivity.
  - intros [d [rest [-> Hd]]]. exists [118%N; d], rest.
    split; [reflexivity|]. apply re_fullmatch_iff. cbn.
    change [118%N; d] with ([118%N] ++ ([d] ++ []) ++ [] ++ [] ++ []).
    constructor; [constructor; reflexivity|].
    constructor.
    + constructor; [|constructor]. constructor. now apply digit_accepts.
    + constructor; [constructor|]. constructor; constructor.
Qed.

(** ** The auxiliary-title pattern *)

Lemma matches_star_class (ic : bool) (items : list class_item) (s : pystr) :
  matches ic (Star (Class items)) s <->
  Forall (fun c => existsb (item_accepts ic c) items = true) s.
Proof.
  split.
  - intros H. remember (Star (Class items)) as r eqn:Hr.
    induction H; inversion Hr; subst; [constructor|].
    apply matches_class_inv in H. destruct H as [c [-> Hc]].
    cbn. constructor; auto.
  - induction 1 as [|c s Hc _ IH]; [constructor|].
    change (c :: s) with ([c] ++ s). constructor; [|exact IH].
    now constructor.
Qed.

Lemma digit_or_space_accepts (c : N) :
  existsb (item_accepts true c) [CRange 48 57; CSpace] = true <->
  is_digit c \/ is_space c = true.
Proof.
  rewrite <- (digit_accepts true c). cbn [existsb item_accepts].
  rewrite !orb_false_r, !orb_true_iff. tauto.
Qed.

Lemma letter_accepts (upper c : N) :
  (65 <= upper <= 90)%N ->
  lit_accepts true upper c = true <-> c = upper \/ c = (upper + 32)%N.
Proof.
  intros Hu. unfold lit_accepts, ascii_lower. rewrite N.eqb_eq.
  replace ((65 <=? upper)%N && (upper <=? 90)%N) with true
    by (symmetry; apply andb_true_iff; rewrite !N.leb_le; lia).
  destruct ((65 <=? c)%N && (c <=? 90)%N) eqn:E.
  - apply andb_true_iff in E. rewrite !N.leb_le in E. lia.
  - apply andb_false_iff in E. rewrite !N.leb_gt in E. lia.
Qed.

(** A title matches the auxiliary pattern exactly when, after leading
    digits and white space, it reads [Aux:] in upper or lower case,
    whatever follows. *)
Lemma aux_pattern_match_iff (t : pystr) :
  re_match AUX_PR_PATTERN t = true <->
  exists lead a u x rest,
    t = lead ++ a :: u :: x :: 58%N :: rest
    /\ Forall (fun c => is_digit c \/ is_space c = true) lead
    /\ (a = 65 \/ a = 97)%N /\ (u = 85 \/ u = 117)%N /\ (x = 88 \/ x = 120)%N.
Proof.
  assert (HA : forall c, lit_accepts true 65 c = true <-> (c = 65 \/ c = 97)%N)
    by (intros c; apply (letter_accepts 65 c); lia).
  assert (HU : forall c, lit_accepts true 117 c = true <-> (c = 85 \/ c = 117)%N).
  { intros c. change (lit_accepts true 117 c) with (lit_accepts true 85 c).
    apply (letter_accepts 85 c). lia. }
  assert (HX : forall c, lit_accepts true 120 c = true <-> (c = 88 \/ c = 120)%N).
  { intros c. change (lit_accepts true 120 c) with (lit_accepts true 88 c).
    apply (letter_accepts 88 c). lia. }
  assert (HC : forall c, lit_accepts true 58 c = true <-> c = 58%N).
  { intros c. unfold lit_accepts. change (ascii_lower 58) with 58%N.
    rewrite N.eqb_eq. unfold ascii_lower.
    destruct ((65 <=? c)%N && (c <=? 90)%N) eqn:E; [|split; congruence].
    apply andb_true_iff in E. rewrite !N.leb_le in E. lia. }
  rewrite re_match_iff. split.
  - intros [p [rest [-> H]]]. apply re_fullmatch_iff in H. cbn in H.
    apply matches_cat_inv in H. destruct H as [lead [s' [-> [Hlead H]]]].
    apply matches_star_class in Hlead.
    apply matches_cat_inv in H. destruct H as [saux [s'' [-> [Haux _]]]].
    apply matches_cat_inv in Haux. destruct Haux as [sa [s1 [-> [Ha H]]]].
    apply matches_lit_inv in Ha. destruct Ha as [a [-> Ha]].
    apply matches_cat_inv in H. destruct H as [su [s2 [-> [Hu H]]]].
    apply matches_lit_inv in Hu. destruct Hu as [u [-> Hu]].
    apply matches_cat_inv in H. destruct H as [sx [s3 [-> [Hx H]]]].
    apply matches_lit_inv in Hx. destruct Hx as [x [-> Hx]].
    apply matches_cat_inv in H. destruct H as [sc [s4 [-> [Hc H]]]].
    apply matches_lit_inv in Hc. destruct Hc as [c [-> Hc]].
    apply HA in Ha. apply HU in Hu. apply HX in Hx. apply HC in Hc. subst c.
    exists lead, a, u, x. eexists. split; [|split; [|tauto]].
    + rewrite <- !app_assoc. cbn. reflexivity.
    + eapply Forall_impl; [|exact Hlead].
      intros c Hc. now apply digit_or_space_accepts.
  - intros [lead [a [u [x [rest [-> [Hlead [Ha [Hu Hx]]]]]]]]].
    exists (lead ++ [a; u; x; 58%N]), rest. split.
    + now rewrite <- app_assoc.
    + apply re_fullmatch_iff. cbn.
      replace (lead ++ [a; u; x; 58%N])
        with (lead ++ ([a] ++ [u] ++ [x] ++ [58%N] ++ []) ++ [] ++ [])
        by reflexivity.
      constructor.
      * apply matches_star_class. eapply Forall_impl; [|exact Hlead].
        intros c Hc. now apply digit_or_space_accepts.
      * constructor; [|constructor; constructor].
        constructor; [constructor; now apply HA|].
        constructor; [constructor; now apply HU|].
        constructor; [constructor; now apply HX|].
        constructor; [constructor; now apply HC | constructor].
Qed.

(** ** The monad *)

Lemma result_bind_ok {A B} (m : M A) (f : A -> M B) (a : A) :
  result m = Ok a -> result (bind m f) = result (f a).
Proof.
  destruct m as [t [x|e]]; simpl; intros H; inversion H; subst.
  unfold bind. destruct (f a); reflexivity.
Qed.

Lemma result_bind_raise {A B} (m : M A) (f : A -> M B) (e : exn) :
  result m = Raise e -> result (bind m f) = Raise e.
Proof.
  destruct m as [t [x|e']]; simpl; intros H; inversion H; subst. reflexivity.
Qed.

Lemma trace_bind_ok {A B} (m : M A) (f : A -> M B) (a : A) :
  result m = Ok a -> trace (bind m f) = trace m ++ trace (f a).
Proof.
  destruct m as [t [x|e]]; simpl; intros H; inversion H; subst.
  unfold bind. destruct (f a); reflexivity.
Qed.

Lemma calls_of_app (t1 t2 : list effect) :
  calls_of (t1 ++ t2) = calls_of t1 ++ calls_of t2.
Proof. apply flat_map_app. Qed.

Lemma outputs_of_app (t1 t2 : list effect) :
  outputs_of (t1 ++ t2) = outputs_of t1 ++ outputs_of t2.
Proof. apply flat_map_app. Qed.

Lemma errors_of_app (t1 t2 : list effect) :
  errors_of (t1 ++ t2) = errors_of t1 ++ errors_of t2.
Proof. apply flat_map_app. Qed.

(** ** The commit classifier *)

Lemma is_automated_iff (c : Commit) :
  is_automated c = true <->
  In (email (committer c)) BOT_EMAILS
  /\ re_match AUTO_PR_PATTERN (message c) = true.
Proof.
  unfold is_automated. now rewrite andb_true_iff, contains_In.
Qed.

(** The loop answers [True] exactly when no commit of the list is an
    automated one, and performs no effect. *)
Lemma human_loop_forallb (commits : list Commit) :
  human_loop commits
  = ([], Ok (forallb (fun c => negb (is_automated c)) commits)).
Proof.
  induction commits as [|c rest IH]; simpl; [reflexivity|].
  destruct (is_automated c); simpl; [reflexivity | exact IH].
Qed.

(** A list comprehension over reads that all succeed. *)
Lemma comprehension_get_commit (api : GhApi) (shas : list pystr)
    (cs : list Commit) :
  map (git_get_commit api) shas = map Some cs ->
  comprehension (get_commit api) shas = (map (fun s => Call (GetCommit s)) shas, Ok cs).
Proof.
  revert cs. induction shas as [|s shas IH]; intros [|c cs] H;
    simpl in H; try discriminate; [reflexivity|].
  inversion H as [[Hc Hcs]]. simpl.
  unfold get_commit at 1, http. rewrite Hc. simpl.
  rewrite (IH cs Hcs). simpl. now rewrite app_nil_r.
Qed.

Lemma calls_of_get_commits (shas : list pystr) :
  calls_of (map (fun s => Call (GetCommit s)) shas) = map GetCommit shas.
Proof.
  induction shas as [|s shas IH]; simpl; [reflexivity | now rewrite IH].
Qed.

(** The classifier on a commit that is not a merge: its answer and what
    it reads. *)
Lemma is_human_commit_single (ctx : Context) (api : GhApi) (c : Commit) :
  result (get_current_commit ctx api) = Ok c ->
  length (parents c) <= 1 ->
  _is_human_commit ctx api
  = (trace (get_current_commit ctx api), Ok (negb (is_automated c))).
Proof.
  intros Hc Hp. unfold _is_human_commit.
  destruct (get_current_commit ctx api) as [t [c'|e]]; simpl in Hc;
    inversion Hc; subst c'.
  unfold bind, ret. cbv beta iota.
  rewrite (proj2 (Nat.ltb_ge _ _) Hp). rewrite human_loop_forallb. simpl.
  now rewrite andb_true_r, app_nil_r.
Qed.

(** The classifier on a merge commit whose parents can all be read. *)
Lemma is_human_commit_merge (ctx : Context) (api : GhApi) (c : Commit)
    (ps : list Commit) :
  result (get_current_commit ctx api) = Ok c ->
  1 < length (parents c) ->
  map (git_get_commit api) (parents c) = map Some ps ->
  _is_human_commit ctx api
  = (trace (get_current_commit ctx api)
     ++ map (fun s => Call (GetCommit s)) (parents c),
     Ok (forallb (fun p => negb (is_automated p)) ps)).
Proof.
  intros Hc Hp Hps. unfold _is_human_commit.
  destruct (get_current_commit ctx api) as [t [c'|e]]; simpl in Hc;
    inversion Hc; subst c'.
  unfold bind. cbv beta iota.
  rewrite (proj2 (Nat.ltb_lt _ _) Hp), (comprehension_get_commit _ _ _ Hps).
  rewrite human_loop_forallb. simpl. now rewrite app_nil_r.
Qed.

(** C6: for a current commit with at most one parent, the classifier
    returns, and its answer is false (automated) exactly when the committer
    email is one of BOT_EMAILS and the message matches the automatic
    version-bump pattern; in every other case the answer is true (human). *)
Theorem is_human_commit_false_iff_bot_and_pattern
    (ctx : Context) (api : GhApi) (c : Commit) :
  result (get_current_commit ctx api) = Ok c ->
  length (parents c) <= 1 ->
  exists human : bool,
    result (_is_human_commit ctx api) = Ok human
    /\ (human = false <->
        In (email (committer c)) BOT_EMAILS
        /\ re_match AUTO_PR_PATTERN (message c) = true)
    /\ (human = true <->
        ~ In (email (committer c)) BOT_EMAILS
        \/ re_match AUTO_PR_PATTERN (message c) = false).
Proof.
  intros Hc Hp. exists (negb (is_automated c)).
  rewrite (is_human_commit_single _ _ _ Hc Hp). split; [reflexivity|].
  destruct (is_automated c) eqn:E; cbn [negb].
  - apply is_automated_iff in E. destruct E as [E1 E2].
    split; [tauto|]. split; [discriminate|].
    intros [H|H]; [tauto | congruence].
  - assert (Hn : ~ (In (email (committer c)) BOT_EMAILS
                    /\ re_match AUTO_PR_PATTERN (message c) = true))
      by (rewrite <- is_automated_iff; congruence).
    split; [split; [discriminate | tauto]|].
    split; [|reflexivity]. intros _.
    unfold is_automated in E. apply andb_false_iff in E.
    destruct E as [E|E]; [left | right; exact E].
    intros HIn. apply contains_In in HIn. congruence.
Qed.

(** The theorem at the sample commits: the bump of the bot is automated,
    the same message from a human committer and another message from the
    bot are human. *)
Lemma is_human_commit_false_iff_bot_and_pattern_witness :
  exists human : bool,
    result (_is_human_commit
              (Sample.pr_context (py "Add retry logic") false Sample.p2)
              (Sample.host Sample.deploy_tip_manual)) = Ok human
    /\ (human = false <->
        In (email (committer Sample.p2)) BOT_EMAILS
        /\ re_match AUTO_PR_PATTERN (message Sample.p2) = true)
    /\ (human = true <->
        ~ In (email (committer Sample.p2)) BOT_EMAILS
        \/ re_match AUTO_PR_PATTERN (message Sample.p2) = false).
Proof.
  apply (@is_human_commit_false_iff_bot_and_pattern
           (Sample.pr_context (py "Add retry logic") false Sample.p2)
           (Sample.host Sample.deploy_tip_manual) Sample.p2).
  - vm_compute. reflexivity.
  - simpl. lia.
Defined.

Example single_commit_classification :
  let api := Sample.host Sample.deploy_tip_manual in
  let ctx := Sample.pr_context (py "Add retry logic") false in
  result (_is_human_commit (ctx Sample.p1) api) = Ok true
  /\ result (_is_human_commit (ctx Sample.p2) api) = Ok false
  /\ result (_is_human_commit (ctx Sample.bump_by_dev) api) = Ok true
  /\ result (_is_human_commit (ctx Sample.bot_other) api) = Ok true.
Proof. vm_compute. repeat split. Qed.

(** C1, as amended: for a merge commit (more than one parent) whose
    parents can all be read, the classifier fetches every parent, in order,
    and answers true (human) exactly when every parent is human, that is
    when no parent has both a bot committer email and a message matching
    the version-bump pattern; one automated parent makes the merge
    automated. *)
Theorem is_human_merge_iff_all_parents_human
    (ctx : Context) (api : GhApi) (c : Commit) (ps : list Commit) :
  result (get_current_commit ctx api) = Ok c ->
  1 < length (parents c) ->
  map (git_get_commit api) (parents c) = map Some ps ->
  exists human : bool,
    result (_is_human_commit ctx api) = Ok human
    /\ calls_of (trace (_is_human_commit ctx api))
       = calls_of (trace (get_current_commit ctx api))
         ++ map GetCommit (parents c)
    /\ (human = true <->
        forall p, In p ps ->
          ~ In (email (committer p)) BOT_EMAILS
          \/ re_match AUTO_PR_PATTERN (message p) = false)
    /\ (human = false <->
        exists p, In p ps
          /\ In (email (committer p)) BOT_EMAILS
          /\ re_match AUTO_PR_PATTERN (message p) = true).
Proof.
  intros Hc Hp Hps.
  exists (forallb (fun p => negb (is_automated p)) ps).
  rewrite (is_human_commit_merge _ _ _ _ Hc Hp Hps).
  split; [reflexivity|]. split.
  { cbn [trace fst]. now rewrite calls_of_app, calls_of_get_commits. }
  split.
  - rewrite forallb_forall. split.
    + intros H p Hin. specialize (H p Hin).
      apply negb_true_iff in H. unfold is_automated in H.
      apply andb_false_iff in H. destruct H as [H|H]; [left | right; exact H].
      intros HIn. apply contains_In in HIn. congruence.
    + intros H p Hin. apply negb_true_iff.
      destruct (is_automated p) eqn:E; [|reflexivity].
      apply is_automated_iff in E. destruct E as [E1 E2].
      destruct (H p Hin) as [H'|H']; [tauto | congruence].
  - rewrite <- not_true_iff_false, forallb_forall. split.
    + intros H.
      destruct (existsb is_automated ps) eqn:E.
      * apply existsb_exists in E. destruct E as [p [Hin Ha]].
        exists p. split; [exact Hin | now apply is_automated_iff].
      * exfalso. apply H. intros p Hin. apply negb_true_iff.
        destruct (is_automated p) eqn:Ea; [|reflexivity].
        assert (existsb is_automated ps = true)
          by (apply existsb_exists; exists p; auto).
        congruence.
    + intros [p [Hin Ha]] H. specialize (H p Hin).
      apply is_automated_iff in Ha. rewrite Ha in H. discriminate.
Qed.

(** The theorem at the sample merge of a human commit and a version bump of
    the bot. *)
Lemma is_human_merge_iff_all_parents_human_witness :
  exists human : bool,
    result (_is_human_commit
              (Sample.pr_context (py "Add retry logic") false Sample.merge12)
              (Sample.host Sample.deploy_tip_manual)) = Ok human
    /\ calls_of (trace (_is_human_commit
              (Sample.pr_context (py "Add retry logic") false Sample.merge12)
              (Sample.host Sample.deploy_tip_manual)))
       = calls_of (trace (get_current_commit
              (Sample.pr_context (py "Add retry logic") false Sample.merge12)
              (Sample.host Sample.deploy_tip_manual)))
         ++ map GetCommit (parents Sample.merge12)
    /\ (human = true <->
        forall p, In p [Sample.p1; Sample.p2] ->
          ~ In (email (committer p)) BOT_EMAILS
          \/ re_match AUTO_PR_PATTERN (message p) = false)
    /\ (human = false <->
        exists p, In p [Sample.p1; Sample.p2]
          /\ In (email (committer p)) BOT_EMAILS
          /\ re_match AUTO_PR_PATTERN (message p) = true).
Proof.
  apply (is_human_merge_iff_all_parents_human
           (Sample.pr_context (py "Add retry logic") false Sample.merge12)
           (Sample.host Sample.deploy_tip_manual)
           Sample.merge12 [Sample.p1; Sample.p2]).
  - vm_compute. reflexivity.
  - simpl. lia.
  - vm_compute. reflexivity.
Defined.

(** C1 as stated fails: on the merge with parents [p1; p2], p1 committed by
    a human and p2 a version bump committed by the bot, both parents are
    fetched and the classification is false (automated), not true. *)
Lemma merge_of_human_and_bump_is_automated :
  result (get_current_commit Sample.merge_context Sample.plain_host)
  = Ok Sample.merge12
  /\ parents Sample.merge12 = [sha Sample.p1; sha Sample.p2]
  /\ git_get_commit Sample.plain_host (sha Sample.p1) = Some Sample.p1
  /\ git_get_commit Sample.plain_host (sha Sample.p2) = Some Sample.p2
  /\ contains BOT_EMAILS (email (committer Sample.p1)) = false
  /\ contains BOT_EMAILS (email (committer Sample.p2)) = true
  /\ re_match AUTO_PR_PATTERN (message Sample.p2) = true
  /\ _is_human_commit Sample.merge_context Sample.plain_host
     = ([Call (GetCommit (sha Sample.merge12));
         Call (GetCommit (sha Sample.p1));
         Call (GetCommit (sha Sample.p2))], Ok false).
Proof. vm_compute. repeat split. Qed.

(** ** The deploy-required decision *)

Ltac event_is H :=
  rewrite H;
  change (Str.eqb (py "pull_request") (py "release")) with false;
  change (Str.eqb (py "pull_request") (py "pull_request")) with true;
  change (Str.eqb (py "release") (py "release")) with true;
  change (Str.eqb (py "release") (py "pull_request")) with false;
  cbn [negb].

(** Past the first three checks, on a pull request that is neither a draft
    nor auxiliary, the decision is the classifier's: same reads, same
    answer, and one more line printed when the answer is false. *)
Lemma check_deploy_required_classifies (ctx : Context) (api : GhApi)
    (pr : PullRequest) :
  event_name ctx = py "pull_request" ->
  pull_request (event ctx) = Some pr ->
  draft pr = false ->
  re_match AUX_PR_PATTERN (title pr) = false ->
  check_deploy_required ctx api
  = (trace (_is_human_commit ctx api)
     ++ match result (_is_human_commit ctx api) with
        | Ok false =>
            [Print (py "Skipping the release for a commit created by a bot.")]
        | _ => []
        end,
     result (_is_human_commit ctx api)).
Proof.
  intros Hev Hpr Hd Ha. unfold check_deploy_required.
  event_is Hev. rewrite Hpr. cbn [attr bind ret app]. rewrite Hd, Ha.
  destruct (_is_human_commit ctx api) as [t [[|]|e]]; cbn;
    now rewrite ?app_nil_r.
Qed.

(** C4: on a pull request event the checks run in a fixed order and stop at
    the first that decides.  A draft gives false whatever the title, with
    nothing read from the host; otherwise a title matching the auxiliary
    pattern gives false, again with nothing read; otherwise the answer and
    the reads are those of the human-commit classification of the current
    commit.  A title matches the auxiliary pattern when, after leading
    digits and white space, it reads [Aux:] in upper or lower case;
    [123 Aux: cleanup docs] matches and [Add retry logic] does not. *)
Theorem check_deploy_required_pull_request_order
    (ctx : Context) (api : GhApi) (pr : PullRequest) :
  event_name ctx = py "pull_request" ->
  pull_request (event ctx) = Some pr ->
  (draft pr = true ->
     check_deploy_required ctx api
     = ([Print (py "Skip release for a draft PR.")], Ok false))
  /\ (draft pr = false ->
      re_match AUX_PR_PATTERN (title pr) = true ->
      check_deploy_required ctx api
      = ([Print (py "Skip release for a PR prefixed with `Aux:`.")],
         Ok false))
  /\ (draft pr = false ->
      re_match AUX_PR_PATTERN (title pr) = false ->
      result (check_deploy_required ctx api)
      = result (_is_human_commit ctx api)
      /\ calls_of (trace (check_deploy_required ctx api))
         = calls_of (trace (_is_human_commit ctx api)))
  /\ (forall t : pystr,
        re_match AUX_PR_PATTERN t = true <->
        exists lead a u x rest,
          t = lead ++ a :: u :: x :: 58%N :: rest
          /\ Forall (fun c => is_digit c \/ is_space c = true) lead
          /\ (a = 65 \/ a = 97)%N /\ (u = 85 \/ u = 117)%N
          /\ (x = 88 \/ x = 120)%N)
  /\ re_match AUX_PR_PATTERN (py "123 Aux: cleanup docs") = true
  /\ re_match AUX_PR_PATTERN (py "Add retry logic") = false.
Proof.
  intros Hev Hpr.
  split; [|split; [|split; [|split; [exact aux_pattern_match_iff|]]]].
  - intros Hd. unfold check_deploy_required.
    event_is Hev. rewrite Hpr. cbn [attr bind ret app]. now rewrite Hd.
  - intros Hd Ha. unfold check_deploy_required.
    event_is Hev. rewrite Hpr. cbn [attr bind ret app]. now rewrite Hd, Ha.
  - intros Hd Ha.
    rewrite (check_deploy_required_classifies _ _ _ Hev Hpr Hd Ha).
    split; [reflexivity|].
    cbn [trace fst]. rewrite calls_of_app.
    destruct (result (_is_human_commit ctx api)) as [[|]|e]; cbn;
      now rewrite app_nil_r.
  - split; reflexivity.
Qed.

(** The theorem at three sample pull requests: a draft with an ordinary
    title, the auxiliary title, and [Add retry logic] on a human commit. *)
Lemma check_deploy_required_pull_request_order_witness :
  check_deploy_required
    (Sample.pr_context (py "Add retry logic") true Sample.p1)
    Sample.plain_host
  = ([Print (py "Skip release for a draft PR.")], Ok false)
  /\ check_deploy_required
       (Sample.pr_context (py "123 Aux: cleanup docs") false Sample.p1)
       Sample.plain_host
     = ([Print (py "Skip release for a PR prefixed with `Aux:`.")], Ok false)
  /\ result (check_deploy_required
               (Sample.pr_context (py "Add retry logic") false Sample.p1)
               Sample.plain_host)
     = Ok true.
Proof.
  split; [|split].
  - apply (check_deploy_required_pull_request_order
             (Sample.pr_context (py "Add retry logic") true Sample.p1)
             Sample.plain_host
             {| title := py "Add retry logic"; draft := true;
                html_href := py "https://host/pr/42" |}
             eq_refl eq_refl).
    reflexivity.
  - apply (check_deploy_required_pull_request_order
             (Sample.pr_context (py "123 Aux: cleanup docs") false Sample.p1)
             Sample.plain_host
             {| title := py "123 Aux: cleanup docs"; draft := false;
                html_href := py "https://host/pr/42" |}
             eq_refl eq_refl); reflexivity.
  - destruct (check_deploy_required_pull_request_order
                (Sample.pr_context (py "Add retry logic") false Sample.p1)
                Sample.plain_host
                {| title := py "Add retry logic"; draft := false;
                   html_href := py "https://host/pr/42" |}
                eq_refl eq_refl) as [_ [_ [H _]]].
    destruct (H eq_refl eq_refl) as [Hr _]. rewrite Hr.
    vm_compute. reflexivity.
Defined.

(** C5: a release event whose tag does not match the version-tag pattern
    gives false; every other event that is not a pull request (a push, a
    workflow dispatch, a release whose tag matches) gives true.  In both
    cases one line is printed and nothing is read from the host, so the
    commit classifier is not consulted.  The tag [nightly-build] does not
    match and [v1.2.3] does. *)
Theorem check_deploy_required_not_pull_request
    (ctx : Context) (api : GhApi) :
  (forall rel : Release,
     event_name ctx = py "release" ->
     release (event ctx) = Some rel ->
     re_match RELEASE_PATTERN (tag_name rel) = false ->
     check_deploy_required ctx api
     = ([Print (py "Non-version tag, skipping the release.")], Ok false))
  /\ (forall rel : Release,
        event_name ctx = py "release" ->
        release (event ctx) = Some rel ->
        re_match RELEASE_PATTERN (tag_name rel) = true ->
        check_deploy_required ctx api
        = ([Print (py "Not a PR, enable the release.")], Ok true))
  /\ (event_name ctx <> py "pull_request" ->
      event_name ctx <> py "release" ->
      check_deploy_required ctx api
      = ([Print (py "Not a PR, enable the release.")], Ok true))
  /\ re_match RELEASE_PATTERN (py "nightly-build") = false
  /\ re_match RELEASE_PATTERN (py "v1.2.3") = true.
Proof.
  split; [|split; [|split; [|split; reflexivity]]].
  - intros rel Hev Hrel Htag. unfold check_deploy_required.
    event_is Hev. rewrite Hrel. cbn [attr bind ret app]. now rewrite Htag.
  - intros rel Hev Hrel Htag. unfold check_deploy_required.
    event_is Hev. rewrite Hrel. cbn [attr bind ret app]. now rewrite Htag.
  - intros Hpr Hrel. unfold check_deploy_required.
    apply str_eqb_neq in Hpr, Hrel. now rewrite Hpr, Hrel.
Qed.

(** The theorem at sample events: two releases and a push. *)
Lemma check_deploy_required_not_pull_request_witness :
  check_deploy_required (Sample.release_context (py "nightly-build"))
    Sample.plain_host
  = ([Print (py "Non-version tag, skipping the release.")], Ok false)
  /\ check_deploy_required (Sample.release_context (py "v1.2.3"))
       Sample.plain_host
     = ([Print (py "Not a PR, enable the release.")], Ok true)
  /\ check_deploy_required (Sample.push_context Sample.p2) Sample.plain_host
     = ([Print (py "Not a PR, enable the release.")], Ok true).
Proof.
  split; [|split].
  - apply (check_deploy_required_not_pull_request
             (Sample.release_context (py "nightly-build")) Sample.plain_host)
      with (rel := {| tag_name := py "nightly-build" |}); reflexivity.
  - apply (check_deploy_required_not_pull_request
             (Sample.release_context (py "v1.2.3")) Sample.plain_host)
      with (rel := {| tag_name := py "v1.2.3" |}); reflexivity.
  - apply (check_deploy_required_not_pull_request
             (Sample.push_context Sample.p2) Sample.plain_host);
      intro H; vm_compute in H; discriminate H.
Defined.

(** C10: [match] accepts a text as soon as one of its prefixes is in the
    language of the pattern, for the version-tag pattern as for the
    auxiliary-title pattern.  So a release whose tag only begins with a
    version (a [v] and a digit are enough) is treated as a version tag and
    [check_deploy_required] returns true for it: this is the case of
    [v1-nightly] and of [v1.2.3.anything], which as a whole are not in the
    language of the pattern. *)
Theorem release_tag_prefix_is_enough
    (ctx : Context) (api : GhApi) (rel : Release) (version rest : pystr) :
  event_name ctx = py "release" ->
  release (event ctx) = Some rel ->
  tag_name rel = version ++ rest ->
  re_fullmatch RELEASE_PATTERN version = true ->
  re_match RELEASE_PATTERN (tag_name rel) = true
  /\ check_deploy_required ctx api
     = ([Print (py "Not a PR, enable the release.")], Ok true)
  /\ (forall (p : pattern) (s : pystr),
        re_match p s = true <->
        exists prefix tail, s = prefix ++ tail /\ re_fullmatch p prefix = true)
  /\ (forall tag : pystr,
        re_match RELEASE_PATTERN tag = true <->
        exists d tail, tag = 118%N :: d :: tail /\ is_digit d)
  /\ re_fullmatch RELEASE_PATTERN (py "v1-nightly") = false
  /\ re_fullmatch RELEASE_PATTERN (py "v1.2.3.anything") = false
  /\ re_match RELEASE_PATTERN (py "v1-nightly") = true
  /\ re_match RELEASE_PATTERN (py "v1.2.3.anything") = true.
Proof.
  intros Hev Hrel Htag Hv.
  assert (Hm : re_match RELEASE_PATTERN (tag_name rel) = true).
  { apply re_match_iff. now exists version, rest. }
  split; [exact Hm|]. split.
  { unfold check_deploy_required. event_is Hev. rewrite Hrel.
    cbn [attr bind ret app]. now rewrite Hm. }
  split; [exact re_match_iff|]. split; [exact release_pattern_match_iff|].
  repeat split.
Qed.

(** The theorem at the release tagged [v1-nightly], whose prefix [v1] is
    a version. *)
Lemma release_tag_prefix_is_enough_witness :
  re_match RELEASE_PATTERN (py "v1-nightly") = true
  /\ check_deploy_required (Sample.release_context (py "v1-nightly"))
       Sample.plain_host
     = ([Print (py "Not a PR, enable the release.")], Ok true).
Proof.
  destruct (release_tag_prefix_is_enough
              (Sample.release_context (py "v1-nightly")) Sample.plain_host
              {| tag_name := py "v1-nightly" |} (py "v1") (py "-nightly")
              eq_refl eq_refl eq_refl eq_refl) as [H1 [H2 _]].
  split; assumption.
Defined.

Example release_with_longer_tag :
  check_deploy_required (Sample.release_context (py "v1.2.3.anything"))
    Sample.plain_host
  = ([Print (py "Not a PR, enable the release.")], Ok true).
Proof. reflexivity. Qed.

(** ** The safe-to-deploy decision *)

Lemma endswith_iff (s p : pystr) :
  endswith s p = true <-> exists before, s = before ++ p.
Proof.
  unfold endswith. rewrite andb_true_iff, Nat.leb_le, str_eqb_eq. split.
  - intros [Hlen Heq]. exists (firstn (length s - length p) s).
    rewrite <- Heq at 2. symmetry. apply firstn_skipn.
  - intros [before ->]. rewrite length_app. split; [lia|].
    replace (length before + length p - length p) with (length before) by lia.
    rewrite skipn_app, skipn_all, Nat.sub_diag. reflexivity.
Qed.

(** A message that ends with a text as long as the note but different from
    it does not end with the note. *)
Lemma endswith_other_note (before note note' : pystr) :
  length note' = length note ->
  note' <> note ->
  endswith (before ++ note') note = false.
Proof.
  intros Hlen Hneq. apply not_true_iff_false. intros H.
  apply endswith_iff in H. destruct H as [b' H].
  assert (Hb : length before = length b').
  { apply (f_equal (@length N)) in H. rewrite !length_app in H. lia. }
  apply Hneq.
  apply (f_equal (skipn (length before))) in H.
  rewrite skipn_app, skipn_all, Nat.sub_diag in H. simpl in H.
  rewrite Hb, skipn_app, skipn_all, Nat.sub_diag in H. exact H.
Qed.

Lemma result_get_last_commit (api : GhApi) (branch : pystr) (c : Commit) :
  result (get_last_commit api branch) = Ok c <->
  exists s, git_get_ref api (py "heads/" ++ branch) = Some s
            /\ git_get_commit api s = Some c.
Proof.
  unfold get_last_commit, get_ref, get_commit, http.
  destruct (git_get_ref api (py "heads/" ++ branch)) as [s|]; cbn.
  - destruct (git_get_commit api s) as [c'|] eqn:E; cbn.
    + split.
      * intros H. inversion H. subst. now exists s.
      * intros [s' [Hs Hc]]. inversion Hs. subst. congruence.
    + split; [discriminate|].
      intros [s' [Hs Hc]]. inversion Hs. subst. congruence.
  - split; [discriminate|]. intros [s' [Hs _]]. discriminate.
Qed.

(** The loop over the two candidates, when the notes can be computed. *)
Lemma result_safe_loop (ctx : Context) (api : GhApi)
    (deploy main : Commit) (name1 name2 note_head note_main : pystr) :
  result (get_deploy_note ctx api None) = Ok note_head ->
  result (get_deploy_note ctx api (Some main)) = Ok note_main ->
  result (safe_loop ctx api deploy [(name1, None); (name2, Some main)])
  = Ok (contains BOT_EMAILS (email (committer deploy))
        && (endswith (message deploy) note_head
            || endswith (message deploy) note_main)).
Proof.
  intros H1 H2. cbn [safe_loop].
  destruct (contains BOT_EMAILS (email (committer deploy))); cbn [negb andb];
    [|reflexivity].
  rewrite (result_bind_ok _ _ _ H1).
  destruct (endswith (message deploy) note_head); [reflexivity|].
  rewrite (result_bind_ok _ _ _ H2).
  destruct (endswith (message deploy) note_main); reflexivity.
Qed.

(** When the deploy branch was not updated by a bot, no note is computed
    and the answer is false. *)
Lemma safe_loop_not_bot (ctx : Context) (api : GhApi) (deploy : Commit)
    (candidates : list (pystr * option Commit)) :
  contains BOT_EMAILS (email (committer deploy)) = false ->
  safe_loop ctx api deploy candidates = ([], Ok false).
Proof.
  intros H. induction candidates as [|[name c] rest IH]; cbn [safe_loop];
    [reflexivity|].
  rewrite H. exact IH.
Qed.

Lemma directly_deployed_main (ctx : Context) (api : GhApi) :
  repos_compare_commits api (MAIN_BRANCH_NAME ctx) DEPLOY_DEV_BRANCH
  = Some identical ->
  result (_is_branch_directly_deployed ctx api) = Ok PyTrue.
Proof.
  intros H. unfold _is_branch_directly_deployed.
  cbn [directly_deployed_loop]. unfold compare_commits, http.
  rewrite H. reflexivity.
Qed.

Lemma directly_deployed_head (ctx : Context) (api : GhApi) (st : pystr) :
  repos_compare_commits api (MAIN_BRANCH_NAME ctx) DEPLOY_DEV_BRANCH
  = Some st ->
  st <> identical ->
  repos_compare_commits api (head_ref ctx) DEPLOY_DEV_BRANCH
  = Some identical ->
  result (_is_branch_directly_deployed ctx api) = Ok PyTrue.
Proof.
  intros H Hst H'. unfold _is_branch_directly_deployed.
  cbn [directly_deployed_loop]. unfold compare_commits, http.
  rewrite H. cbn [bind tell ret app].
  apply str_eqb_neq in Hst. unfold identical in Hst. rewrite Hst.
  rewrite H'. reflexivity.
Qed.

Lemma directly_deployed_neither (ctx : Context) (api : GhApi)
    (st1 st2 : pystr) :
  repos_compare_commits api (MAIN_BRANCH_NAME ctx) DEPLOY_DEV_BRANCH
  = Some st1 ->
  st1 <> identical ->
  repos_compare_commits api (head_ref ctx) DEPLOY_DEV_BRANCH = Some st2 ->
  st2 <> identical ->
  result (_is_branch_directly_deployed ctx api) = Ok PyNone.
Proof.
  intros H1 Hst1 H2 Hst2. unfold _is_branch_directly_deployed.
  cbn [directly_deployed_loop]. unfold compare_commits, http.
  rewrite H1. cbn [bind tell ret app].
  apply str_eqb_neq in Hst1, Hst2. unfold identical in Hst1, Hst2.
  rewrite Hst1, H2. cbn [bind tell ret app]. rewrite Hst2. reflexivity.
Qed.

(** On a pull request with no branch identical to the deploy branch, the
    answer is that of the loop over the two candidates. *)
Lemma result_check_safe_loop (ctx : Context) (api : GhApi)
    (deploy main : Commit) :
  event_name ctx = py "pull_request" ->
  result (_is_branch_directly_deployed ctx api) = Ok PyNone ->
  result (get_last_commit api DEPLOY_DEV_BRANCH) = Ok deploy ->
  result (get_last_commit api (MAIN_BRANCH_NAME ctx)) = Ok main ->
  result (check_safe_to_deploy ctx api)
  = result (safe_loop ctx api deploy
              [(py "HEAD", None); (MAIN_BRANCH_NAME ctx, Some main)]).
Proof.
  intros Hev Hd Hdeploy Hmain. unfold check_safe_to_deploy.
  event_is Hev.
  rewrite (result_bind_ok _ _ _ Hd). cbn [truthy].
  rewrite (result_bind_ok _ _ _ Hdeploy).
  rewrite (result_bind_ok _ _ _ Hmain). reflexivity.
Qed.

(** C2, as amended: an event that is not a pull request is safe.  A pull
    request is safe when the main branch compares as identical to the
    deploy branch, or when it compares as not identical and the head branch
    of the event compares as identical; a comparison that fails makes the
    check raise, and the head branch is not compared when the comparison of
    the main branch failed.  When both were compared and neither is
    identical, the last commits of the deploy branch and of the main branch
    are read, and a read that fails makes the check raise.  With both read:
    the answer is false when the committer of the deploy tip is not a bot,
    whatever the notes; with a bot committer it is true when the message
    ends with the deploy note of the event's head, whether or not the note
    of the main tip can be computed; when the head's note is computed and
    does not match, it is true exactly when the message ends with the note
    of the main tip; so, when both notes are computed, the answer is true
    exactly when the committer is a bot and the message ends with one of
    the two notes, and false otherwise.  A message ending with a text of
    the length of the note that differs from it does not end with the
    note. *)
Theorem check_safe_to_deploy_cases (ctx : Context) (api : GhApi) :
  (event_name ctx <> py "pull_request" ->
     check_safe_to_deploy ctx api
     = ([Print (py "Not a PR, assume it is safe to deploy.")], Ok true))
  /\ (event_name ctx = py "pull_request" ->
      repos_compare_commits api (MAIN_BRANCH_NAME ctx) DEPLOY_DEV_BRANCH
      = Some identical ->
      result (check_safe_to_deploy ctx api) = Ok true)
  /\ (forall st : pystr,
      event_name ctx = py "pull_request" ->
      repos_compare_commits api (MAIN_BRANCH_NAME ctx) DEPLOY_DEV_BRANCH
      = Some st ->
      st <> identical ->
      repos_compare_commits api (head_ref ctx) DEPLOY_DEV_BRANCH
      = Some identical ->
      result (check_safe_to_deploy ctx api) = Ok true)
  /\ (forall (st1 st2 : pystr) (deploy main : Commit)
             (note_head note_main : pystr),
      event_name ctx = py "pull_request" ->
      repos_compare_commits api (MAIN_BRANCH_NAME ctx) DEPLOY_DEV_BRANCH
      = Some st1 ->
      st1 <> identical ->
      repos_compare_commits api (head_ref ctx) DEPLOY_DEV_BRANCH = Some st2 ->
      st2 <> identical ->
      result (get_last_commit api DEPLOY_DEV_BRANCH) = Ok deploy ->
      result (get_last_commit api (MAIN_BRANCH_NAME ctx)) = Ok main ->
      result (get_deploy_note ctx api None) = Ok note_head ->
      result (get_deploy_note ctx api (Some main)) = Ok note_main ->
      exists safe : bool,
        result (check_safe_to_deploy ctx api) = Ok safe
        /\ (safe = true <->
            In (email (committer deploy)) BOT_EMAILS
            /\ ((exists before, message deploy = before ++ note_head)
                \/ (exists before, message deploy = before ++ note_main)))
        /\ (safe = false <->
            ~ (In (email (committer deploy)) BOT_EMAILS
               /\ ((exists before, message deploy = before ++ note_head)
                   \/ (exists before, message deploy = before ++ note_main)))))
  /\ (forall (st1 st2 : pystr) (deploy main : Commit),
      event_name ctx = py "pull_request" ->
      repos_compare_commits api (MAIN_BRANCH_NAME ctx) DEPLOY_DEV_BRANCH
      = Some st1 ->
      st1 <> identical ->
      repos_compare_commits api (head_ref ctx) DEPLOY_DEV_BRANCH = Some st2 ->
      st2 <> identical ->
      result (get_last_commit api DEPLOY_DEV_BRANCH) = Ok deploy ->
      result (get_last_commit api (MAIN_BRANCH_NAME ctx)) = Ok main ->
      ~ In (email (committer deploy)) BOT_EMAILS ->
      result (check_safe_to_deploy ctx api) = Ok false)
  /\ (forall before note note' : pystr,
      length note' = length note ->
      note' <> note ->
      endswith (before ++ note') note = false)
  /\ (forall (st1 st2 : pystr) (deploy main : Commit) (note_head : pystr),
      event_name ctx = py "pull_request" ->
      repos_compare_commits api (MAIN_BRANCH_NAME ctx) DEPLOY_DEV_BRANCH
      = Some st1 ->
      st1 <> identical ->
      repos_compare_commits api (head_ref ctx) DEPLOY_DEV_BRANCH = Some st2 ->
      st2 <> identical ->
      result (get_last_commit api DEPLOY_DEV_BRANCH) = Ok deploy ->
      result (get_last_commit api (MAIN_BRANCH_NAME ctx)) = Ok main ->
      In (email (committer deploy)) BOT_EMAILS ->
      result (get_deploy_note ctx api None) = Ok note_head ->
      (exists before, message deploy = before ++ note_head) ->
      result (check_safe_to_deploy ctx api) = Ok true)
  /\ (forall (st1 st2 : pystr) (deploy main : Commit)
             (note_head note_main : pystr),
      event_name ctx = py "pull_request" ->
      repos_compare_commits api (MAIN_BRANCH_NAME ctx) DEPLOY_DEV_BRANCH
      = Some st1 ->
      st1 <> identical ->
      repos_compare_commits api (head_ref ctx) DEPLOY_DEV_BRANCH = Some st2 ->
      st2 <> identical ->
      result (get_last_commit api DEPLOY_DEV_BRANCH) = Ok deploy ->
      result (get_last_commit api (MAIN_BRANCH_NAME ctx)) = Ok main ->
      In (email (committer deploy)) BOT_EMAILS ->
      result (get_deploy_note ctx api None) = Ok note_head ->
      ~ (exists before, message deploy = before ++ note_head) ->
      result (get_deploy_note ctx api (Some main)) = Ok note_main ->
      exists safe : bool,
        result (check_safe_to_deploy ctx api) = Ok safe
        /\ (safe = true <->
            exists before, message deploy = before ++ note_main))
  /\ (event_name ctx = py "pull_request" ->
      repos_compare_commits api (MAIN_BRANCH_NAME ctx) DEPLOY_DEV_BRANCH
      = None ->
      check_safe_to_deploy ctx api
      = ([Call (CompareCommits (MAIN_BRANCH_NAME ctx) DEPLOY_DEV_BRANCH)],
         Raise HTTPError))
  /\ (forall st : pystr,
      event_name ctx = py "pull_request" ->
      repos_compare_commits api (MAIN_BRANCH_NAME ctx) DEPLOY_DEV_BRANCH
      = Some st ->
      st <> identical ->
      repos_compare_commits api (head_ref ctx) DEPLOY_DEV_BRANCH = None ->
      check_safe_to_deploy ctx api
      = ([Call (CompareCommits (MAIN_BRANCH_NAME ctx) DEPLOY_DEV_BRANCH);
          Call (CompareCommits (head_ref ctx) DEPLOY_DEV_BRANCH)],
         Raise HTTPError))
  /\ (forall (st1 st2 : pystr) (e : exn),
      event_name ctx = py "pull_request" ->
      repos_compare_commits api (MAIN_BRANCH_NAME ctx) DEPLOY_DEV_BRANCH
      = Some st1 ->
      st1 <> identical ->
      repos_compare_commits api (head_ref ctx) DEPLOY_DEV_BRANCH = Some st2 ->
      st2 <> identical ->
      result (get_last_commit api DEPLOY_DEV_BRANCH) = Raise e
      \/ (exists deploy,
            result (get_last_commit api DEPLOY_DEV_BRANCH) = Ok deploy
            /\ result (get_last_commit api (MAIN_BRANCH_NAME ctx)) = Raise e) ->
      e = HTTPError
      /\ result (check_safe_to_deploy ctx api) = Raise HTTPError).
Proof.
  split; [|split; [|split; [|split; [|split; [|split; [|split; [|split;
    [|split; [|split]]]]]]]]].
  - intros Hev. unfold check_safe_to_deploy.
    apply str_eqb_neq in Hev. now rewrite Hev.
  - intros Hev Hmain. unfold check_safe_to_deploy. event_is Hev.
    now rewrite (result_bind_ok _ _ _ (directly_deployed_main _ _ Hmain)).
  - intros st Hev Hmain Hst Hhead. unfold check_safe_to_deploy. event_is Hev.
    now rewrite (result_bind_ok _ _ _
                   (directly_deployed_head _ _ _ Hmain Hst Hhead)).
  - intros st1 st2 deploy main note_head note_main
           Hev H1 Hst1 H2 Hst2 Hdeploy Hmain Hn1 Hn2.
    rewrite (result_check_safe_loop ctx api deploy main Hev
               (directly_deployed_neither _ _ _ _ H1 Hst1 H2 Hst2)
               Hdeploy Hmain).
    rewrite (result_safe_loop ctx api deploy main _ _ _ _ Hn1 Hn2).
    eexists. split; [reflexivity|].
    assert (Hiff :
      contains BOT_EMAILS (email (committer deploy))
      && (endswith (message deploy) note_head
          || endswith (message deploy) note_main) = true <->
      In (email (committer deploy)) BOT_EMAILS
      /\ ((exists before, message deploy = before ++ note_head)
          \/ (exists before, message deploy = before ++ note_main))).
    { now rewrite andb_true_iff, orb_true_iff, contains_In, !endswith_iff. }
    split; [exact Hiff|].
    rewrite <- Hiff. symmetry. apply not_true_iff_false.
  - intros st1 st2 deploy main Hev H1 Hst1 H2 Hst2 Hdeploy Hmain Hbot.
    rewrite (result_check_safe_loop ctx api deploy main Hev
               (directly_deployed_neither _ _ _ _ H1 Hst1 H2 Hst2)
               Hdeploy Hmain).
    rewrite safe_loop_not_bot; [reflexivity|].
    apply not_true_iff_false. intros Hc. apply Hbot. now apply contains_In.
  - exact endswith_other_note.
  - intros st1 st2 deploy main note_head
           Hev H1 Hst1 H2 Hst2 Hdeploy Hmain Hbot Hn1 Hends.
    rewrite (result_check_safe_loop ctx api deploy main Hev
               (directly_deployed_neither _ _ _ _ H1 Hst1 H2 Hst2)
               Hdeploy Hmain).
    apply contains_In in Hbot. apply endswith_iff in Hends.
    cbn [safe_loop]. rewrite Hbot. cbn [negb].
    now rewrite (result_bind_ok _ _ _ Hn1), Hends.
  - intros st1 st2 deploy main note_head note_main
           Hev H1 Hst1 H2 Hst2 Hdeploy Hmain Hbot Hn1 Hends Hn2.
    rewrite (result_check_safe_loop ctx api deploy main Hev
               (directly_deployed_neither _ _ _ _ H1 Hst1 H2 Hst2)
               Hdeploy Hmain).
    rewrite (result_safe_loop ctx api deploy main _ _ _ _ Hn1 Hn2).
    apply contains_In in Hbot. rewrite Hbot.
    assert (Hno : endswith (message deploy) note_head = false).
    { apply not_true_iff_false. intros H. apply Hends.
      now apply endswith_iff. }
    rewrite Hno. cbn [andb orb]. eexists. split; [reflexivity|].
    apply endswith_iff.
  - intros Hev H1. unfold check_safe_to_deploy. event_is Hev.
    unfold _is_branch_directly_deployed. cbn [directly_deployed_loop].
    unfold compare_commits, http. now rewrite H1.
  - intros st Hev H1 Hst H2. unfold check_safe_to_deploy. event_is Hev.
    unfold _is_branch_directly_deployed. cbn [directly_deployed_loop].
    unfold compare_commits, http. rewrite H1. cbn [bind tell ret app].
    apply str_eqb_neq in Hst. unfold identical in Hst. rewrite Hst.
    now rewrite H2.
  - intros st1 st2 e Hev H1 Hst1 H2 Hst2 Hread.
    assert (Hd : result (_is_branch_directly_deployed ctx api) = Ok PyNone)
      by exact (directly_deployed_neither _ _ _ _ H1 Hst1 H2 Hst2).
    assert (Hlast : forall branch e',
              result (get_last_commit api branch) = Raise e' ->
              e' = HTTPError).
    { intros branch e'. unfold get_last_commit, get_ref, get_commit, http.
      destruct (git_get_ref api (py "heads/" ++ branch)) as [s|]; cbn.
      - destruct (git_get_commit api s); cbn; intros H; now inversion H.
      - intros H. now inversion H. }
    unfold check_safe_to_deploy. event_is Hev.
    rewrite (result_bind_ok _ _ _ Hd). cbn [truthy].
    destruct Hread as [Hdep | [deploy [Hdep Hmain]]].
    + split; [exact (Hlast _ _ Hdep)|].
      rewrite (result_bind_raise _ _ _ Hdep).
      now rewrite (Hlast _ _ Hdep).
    + split; [exact (Hlast _ _ Hmain)|].
      rewrite (result_bind_ok _ _ _ Hdep).
      rewrite (result_bind_raise _ _ _ Hmain).
      now rewrite (Hlast _ _ Hmain).
Qed.

(** The theorem at sample events: a push; pull requests on hosts where the
    main branch, then the head branch [feature], is identical to the deploy
    branch; a pull request whose note the bot recorded on the deploy
    branch, also when the tip of the main branch has an empty message; and
    a host on which the comparison of the main branch fails. *)
Lemma check_safe_to_deploy_cases_witness :
  check_safe_to_deploy (Sample.push_context Sample.p1) Sample.plain_host
  = ([Print (py "Not a PR, assume it is safe to deploy.")], Ok true)
  /\ result (check_safe_to_deploy
               (Sample.pr_context (py "Fix bug #42") false Sample.p1)
               (Sample.host_identical (py "main") Sample.deploy_tip_manual))
     = Ok true
  /\ result (check_safe_to_deploy
               (Sample.pr_context (py "Fix bug #42") false Sample.p1)
               (Sample.host_identical (py "feature") Sample.deploy_tip_manual))
     = Ok true
  /\ (exists safe : bool,
        result (check_safe_to_deploy
                  (Sample.pr_context (py "Fix bug #42") false Sample.p1)
                  (Sample.host Sample.deploy_tip_noted)) = Ok safe
        /\ (safe = true <->
            In (email (committer Sample.deploy_tip_noted)) BOT_EMAILS
            /\ ((exists before,
                   message Sample.deploy_tip_noted = before ++ Sample.pr_note)
                \/ (exists before,
                      message Sample.deploy_tip_noted
                      = before ++ Sample.main_note)))
        /\ (safe = false <->
            ~ (In (email (committer Sample.deploy_tip_noted)) BOT_EMAILS
               /\ ((exists before,
                      message Sample.deploy_tip_noted
                      = before ++ Sample.pr_note)
                   \/ (exists before,
                         message Sample.deploy_tip_noted
                         = before ++ Sample.main_note)))))
  /\ result (check_safe_to_deploy Sample.fix_context Sample.plain_host)
     = Ok false
  /\ endswith (py "Deploy: " ++ py "PR: Fix bug #43") (py "PR: Fix bug #42")
     = false
  /\ result (get_deploy_note Sample.fix_context Scenario.empty_main_host
               (Some Scenario.empty_message_tip))
     = Raise IndexError
  /\ result (check_safe_to_deploy Sample.fix_context Scenario.empty_main_host)
     = Ok true
  /\ result (check_safe_to_deploy Sample.fix_context
               Scenario.main_compare_fails_host)
     = Raise HTTPError.
Proof.
  split; [|split; [|split; [|split; [|split; [|split; [|split; [|split]]]]]]].
  - apply (check_safe_to_deploy_cases
             (Sample.push_context Sample.p1) Sample.plain_host).
    intro H. vm_compute in H. discriminate H.
  - apply (check_safe_to_deploy_cases
             (Sample.pr_context (py "Fix bug #42") false Sample.p1)
             (Sample.host_identical (py "main") Sample.deploy_tip_manual));
      reflexivity.
  - apply (proj1 (proj2 (proj2
             (check_safe_to_deploy_cases
                (Sample.pr_context (py "Fix bug #42") false Sample.p1)
                (Sample.host_identical (py "feature")
                   Sample.deploy_tip_manual))))
             (py "behind")); try reflexivity.
    intro H. vm_compute in H. discriminate H.
  - apply (proj1 (proj2 (proj2 (proj2
             (check_safe_to_deploy_cases
                (Sample.pr_context (py "Fix bug #42") false Sample.p1)
                (Sample.host Sample.deploy_tip_noted)))))
             (py "ahead") (py "ahead") Sample.deploy_tip_noted
             Sample.main_tip Sample.pr_note Sample.main_note);
      try (vm_compute; reflexivity);
      intro H; vm_compute in H; discriminate H.
  - apply (proj1 (proj2 (proj2 (proj2 (proj2
             (check_safe_to_deploy_cases
                Sample.fix_context Sample.plain_host)))))
             (py "ahead") (py "ahead") Sample.deploy_tip_manual
             Sample.main_tip);
      try (vm_compute; reflexivity);
      try (intro H; vm_compute in H; discriminate H).
    intros H. cbn in H. destruct H as [H|[H|[]]]; discriminate H.
  - apply (check_safe_to_deploy_cases
             (Sample.push_context Sample.p1) Sample.plain_host).
    + reflexivity.
    + intro H. vm_compute in H. discriminate H.
  - vm_compute. reflexivity.
  - apply (proj1 (proj2 (proj2 (proj2 (proj2 (proj2 (proj2
             (check_safe_to_deploy_cases
                Sample.fix_context Scenario.empty_main_host)))))))
             (py "ahead") (py "ahead") Sample.deploy_tip_noted
             Scenario.empty_message_tip Sample.pr_note);
      try (vm_compute; reflexivity);
      try (intro H; vm_compute in H; discriminate H).
    + cbn. left. reflexivity.
    + exists (py "Deploy to dev: "). reflexivity.
  - rewrite (proj1 (proj2 (proj2 (proj2 (proj2 (proj2 (proj2 (proj2 (proj2
               (check_safe_to_deploy_cases
                  Sample.fix_context
                  Scenario.main_compare_fails_host)))))))))
               eq_refl eq_refl).
    reflexivity.
Defined.

(** C2 as stated fails when a comparison fails: on a pull request whose
    head branch would compare as identical to the deploy branch, the
    comparison of the main branch is made first, and when it fails the
    check raises instead of answering true; the head branch is not
    compared. *)
Lemma check_safe_raises_when_main_comparison_fails :
  event_name Sample.fix_context = py "pull_request"
  /\ repos_compare_commits Scenario.main_compare_fails_host
       (head_ref Sample.fix_context) DEPLOY_DEV_BRANCH
     = Some identical
  /\ repos_compare_commits Scenario.main_compare_fails_host
       (MAIN_BRANCH_NAME Sample.fix_context) DEPLOY_DEV_BRANCH
     = None
  /\ check_safe_to_deploy Sample.fix_context Scenario.main_compare_fails_host
     = ([Call (CompareCommits (py "main") DEPLOY_DEV_BRANCH)],
        Raise HTTPError).
Proof. vm_compute. repeat split. Qed.

(** ** The entry point *)

Lemma silent_nil : silent [].
Proof. split; reflexivity. Qed.

Lemma silent_app (t1 t2 : list effect) :
  silent t1 -> silent t2 -> silent (t1 ++ t2).
Proof.
  intros [O1 E1] [O2 E2]. split.
  - now rewrite outputs_of_app, O1, O2.
  - now rewrite errors_of_app, E1, E2.
Qed.

Lemma silent_bind {A B} (m : M A) (f : A -> M B) :
  silent (trace m) -> (forall a, silent (trace (f a))) ->
  silent (trace (bind m f)).
Proof.
  intros Hm Hf. destruct m as [t [a|e]]; cbn in *; [|exact Hm].
  specialize (Hf a). destruct (f a) as [t' r]. cbn in *.
  now apply silent_app.
Qed.

Lemma silent_ret {A} (a : A) : silent (trace (ret a)).
Proof. apply silent_nil. Qed.

Lemma silent_raise {A} (e : exn) : silent (trace (@raise A e)).
Proof. apply silent_nil. Qed.

Lemma silent_print (line : pystr) : silent (trace (print line)).
Proof. split; reflexivity. Qed.

Lemma silent_attr {A} (field : option A) : silent (trace (attr field)).
Proof. destruct field; apply silent_nil. Qed.

Lemma silent_item0 {A} (l : list A) : silent (trace (item0 l)).
Proof. destruct l; apply silent_nil. Qed.

Lemma silent_http {A} (c : api_call) (answer : option A) :
  silent (trace (http c answer)).
Proof. destruct answer; split; reflexivity. Qed.

Create HintDb silent.
#[local] Hint Resolve silent_nil silent_ret silent_raise silent_print
  silent_attr silent_item0 silent_http : silent.

Ltac silence :=
  repeat first
    [ solve [auto with silent]
    | apply silent_bind; [|intros]
    | match goal with
      | |- silent (trace (if ?b then _ else _)) => destruct b
      | |- silent (trace (match ?x with _ => _ end)) => destruct x
      end ].

Lemma silent_extract_title (text : pystr) :
  silent (trace (_extract_title text)).
Proof. unfold _extract_title. silence. Qed.

Lemma silent_get_current_commit (ctx : Context) (api : GhApi) :
  silent (trace (get_current_commit ctx api)).
Proof. unfold get_current_commit, get_commit. silence. Qed.

#[local] Hint Resolve silent_extract_title silent_get_current_commit : silent.

Lemma silent_get_deploy_note (ctx : Context) (api : GhApi)
    (commit : option Commit) :
  silent (trace (get_deploy_note ctx api commit)).
Proof. unfold get_deploy_note. silence. Qed.

Lemma silent_is_human_commit (ctx : Context) (api : GhApi) :
  silent (trace (_is_human_commit ctx api)).
Proof.
  unfold _is_human_commit. apply silent_bind; [auto with silent|].
  intros c. apply silent_bind.
  - destruct (1 <? length (parents c)); [|auto with silent].
    induction (parents c) as [|s shas IH]; cbn [comprehension];
      [auto with silent|].
    unfold get_commit at 1. silence.
  - intros cs. rewrite human_loop_forallb. apply silent_nil.
Qed.

#[local] Hint Resolve silent_get_deploy_note silent_is_human_commit : silent.

Lemma silent_check_deploy_required (ctx : Context) (api : GhApi) :
  silent (trace (check_deploy_required ctx api)).
Proof. unfold check_deploy_required. silence. Qed.

Lemma silent_safe_loop (ctx : Context) (api : GhApi) (deploy : Commit)
    (candidates : list (pystr * option Commit)) :
  silent (trace (safe_loop ctx api deploy candidates)).
Proof.
  induction candidates as [|[name c] rest IH]; cbn [safe_loop]; silence.
Qed.

Lemma silent_directly_deployed_loop (api : GhApi) (branches : list pystr) :
  silent (trace (directly_deployed_loop api branches)).
Proof.
  induction branches as [|b rest IH]; cbn [directly_deployed_loop];
    unfold compare_commits; silence.
Qed.

#[local] Hint Resolve silent_safe_loop silent_directly_deployed_loop : silent.

Lemma silent_check_safe_to_deploy (ctx : Context) (api : GhApi) :
  silent (trace (check_safe_to_deploy ctx api)).
Proof.
  unfold check_safe_to_deploy, _is_branch_directly_deployed, get_last_commit,
    get_ref, get_commit.
  silence.
Qed.

Lemma outputs_of_silent (t : list effect) : silent t -> outputs_of t = [].
Proof. now intros [H _]. Qed.

Lemma errors_of_silent (t : list effect) : silent t -> errors_of t = [].
Proof. now intros [_ H]. Qed.

(** The run of the entry point when the note and the decisions are
    computed: the effects in order and the way it ends. *)
Lemma main_run (ctx : Context) (api : GhApi) (note : pystr)
    (required safe : bool) :
  result (get_deploy_note ctx api None) = Ok note ->
  result (check_deploy_required ctx api) = Ok required ->
  (required = true -> result (check_safe_to_deploy ctx api) = Ok safe) ->
  main ctx api
  = ([SetGitUser] ++ trace (get_deploy_note ctx api None)
     ++ [Output (py "note_raw") note;
         Output (py "note_clean") (Shlex.quote note)]
     ++ trace (check_deploy_required ctx api)
     ++ [Output (py "confirm") (bool_lower required)]
     ++ (if required then trace (check_safe_to_deploy ctx api) else [])
     ++ (if required && negb safe then [Error (unsafe_message ctx)] else []),
     if required && negb safe then Raise (SystemExit 1) else Ok tt).
Proof.
  intros Hn Hr Hs. unfold main.
  destruct (get_deploy_note ctx api None) as [t1 r1]. cbn in Hn. subst r1.
  destruct (check_deploy_required ctx api) as [t2 r2]. cbn in Hr. subst r2.
  destruct required.
  - specialize (Hs eq_refl).
    destruct (check_safe_to_deploy ctx api) as [t3 r3]. cbn in Hs. subst r3.
    destruct safe; cbn; rewrite ?app_nil_r, <- ?app_assoc; reflexivity.
  - cbn. rewrite ?app_nil_r, <- ?app_assoc. reflexivity.
Qed.

(** C3, as amended: on a run in which the deploy note and the
    deploy-required flag are computed (and the safety check too, when a
    deploy is required), the entry point emits exactly the outputs note_raw
    (the note), note_clean (its shell-quoted form) and confirm (the flag in
    lower case), in this order; it reports an error and exits with status 1
    exactly when the deploy is required and not safe, and otherwise reports
    no error and exits with status 0. *)
Theorem main_outputs_and_exit_status (ctx : Context) (api : GhApi)
    (note : pystr) (required : bool) :
  result (get_deploy_note ctx api None) = Ok note ->
  result (check_deploy_required ctx api) = Ok required ->
  (required = true ->
   exists safe, result (check_safe_to_deploy ctx api) = Ok safe) ->
  outputs_of (trace (main ctx api))
  = [(py "note_raw", note); (py "note_clean", Shlex.quote note);
     (py "confirm", bool_lower required)]
  /\ ((errors_of (trace (main ctx api)) = [unsafe_message ctx]
       /\ result (main ctx api) = Raise (SystemExit 1)
       /\ exit_status (result (main ctx api)) = 1%N)
      <-> (required = true
           /\ result (check_safe_to_deploy ctx api) = Ok false))
  /\ ((errors_of (trace (main ctx api)) = []
       /\ result (main ctx api) = Ok tt
       /\ exit_status (result (main ctx api)) = 0%N)
      <-> ~ (required = true
             /\ result (check_safe_to_deploy ctx api) = Ok false)).
Proof.
  intros Hn Hr Hs.
  assert (Hsafe : exists safe,
            (required = true ->
             result (check_safe_to_deploy ctx api) = Ok safe)
            /\ (required = false -> safe = true)).
  { destruct required.
    - destruct (Hs eq_refl) as [safe Hsafe]. exists safe.
      split; [auto | discriminate].
    - exists true. split; [discriminate | reflexivity]. }
  destruct Hsafe as [safe [Hsafe Hdef]].
  rewrite (main_run ctx api note required safe Hn Hr Hsafe).
  cbn [trace result fst snd].
  pose proof (silent_get_deploy_note ctx api None) as S1.
  pose proof (silent_check_deploy_required ctx api) as S2.
  pose proof (silent_check_safe_to_deploy ctx api) as S3.
  assert (S3' : silent (if required
                        then trace (check_safe_to_deploy ctx api) else []))
    by (destruct required; [exact S3 | apply silent_nil]).
  rewrite !outputs_of_app, !errors_of_app.
  rewrite (outputs_of_silent _ S1), (outputs_of_silent _ S2),
    (outputs_of_silent _ S3'), (errors_of_silent _ S1),
    (errors_of_silent _ S2), (errors_of_silent _ S3').
  destruct required; cbn [andb].
  - specialize (Hsafe eq_refl). rewrite Hsafe.
    destruct safe;
      cbn [negb flat_map outputs_of errors_of app exit_status];
      (split; [reflexivity|]); split; split; intros;
      intuition (try discriminate; try congruence).
  - cbn [negb flat_map outputs_of errors_of app exit_status].
    split; [reflexivity|]. split; split; intros;
      intuition (try discriminate; try congruence).
Qed.

(** The theorem at the sample pull request [Fix bug #42] on a human commit,
    with a deploy branch that is not identical to a candidate and was last
    updated by hand: the deploy is required and blocked. *)
Lemma main_outputs_and_exit_status_witness :
  outputs_of (trace (main Sample.fix_context Sample.plain_host))
  = [(py "note_raw", Sample.pr_note);
     (py "note_clean", Shlex.quote Sample.pr_note);
     (py "confirm", bool_lower true)]
  /\ ((errors_of (trace (main Sample.fix_context Sample.plain_host))
       = [unsafe_message Sample.fix_context]
       /\ result (main Sample.fix_context Sample.plain_host)
          = Raise (SystemExit 1)
       /\ exit_status (result (main Sample.fix_context Sample.plain_host))
          = 1%N)
      <-> (true = true
           /\ result (check_safe_to_deploy Sample.fix_context Sample.plain_host)
              = Ok false))
  /\ ((errors_of (trace (main Sample.fix_context Sample.plain_host)) = []
       /\ result (main Sample.fix_context Sample.plain_host) = Ok tt
       /\ exit_status (result (main Sample.fix_context Sample.plain_host))
          = 0%N)
      <-> ~ (true = true
             /\ result (check_safe_to_deploy Sample.fix_context
                          Sample.plain_host)
                = Ok false)).
Proof.
  apply (main_outputs_and_exit_status Sample.fix_context Sample.plain_host
           Sample.pr_note true).
  - vm_compute. reflexivity.
  - vm_compute. reflexivity.
  - intros _. exists false. vm_compute. reflexivity.
Defined.

(** C3 as stated fails on a run in which a read of the host fails: for a
    manual run of the workflow both checks answer true, so the claim
    promises the three outputs and status 0; but the note needs the current
    commit, the read fails, and the run ends with the exception: no output,
    no reported error, status 1. *)
Lemma main_stops_when_host_read_fails :
  check_deploy_required Sample.dispatch_context Sample.offline_host
  = ([Print (py "Not a PR, enable the release.")], Ok true)
  /\ check_safe_to_deploy Sample.dispatch_context Sample.offline_host
     = ([Print (py "Not a PR, assume it is safe to deploy.")], Ok true)
  /\ main Sample.dispatch_context Sample.offline_host
     = ([SetGitUser; Call (GetCommit (sha Sample.main_tip))], Raise HTTPError)
  /\ outputs_of (trace (main Sample.dispatch_context Sample.offline_host)) = []
  /\ errors_of (trace (main Sample.dispatch_context Sample.offline_host)) = []
  /\ exit_status (result (main Sample.dispatch_context Sample.offline_host))
     = 1%N.
Proof. vm_compute. repeat split. Qed.

Example blocked_pull_request :
  result (check_deploy_required Sample.fix_context Sample.plain_host) = Ok true
  /\ result (check_safe_to_deploy Sample.fix_context Sample.plain_host)
     = Ok false
  /\ exit_status (result (main Sample.fix_context Sample.plain_host)) = 1%N
  /\ errors_of (trace (main Sample.fix_context Sample.plain_host))
     = [unsafe_message Sample.fix_context].
Proof. vm_compute. repeat split. Qed.

Example push_proceeds :
  main (Sample.push_context Sample.p1) Sample.plain_host
  = ([SetGitUser;
      Output (py "note_raw")
        (py "Commit: Add retry logic https://host/commit/a1");
      Output (py "note_clean")
        (Shlex.quote (py "Commit: Add retry logic https://host/commit/a1"));
      Print (py "Not a PR, enable the release.");
      Output (py "confirm") (py "true");
      Print (py "Not a PR, assume it is safe to deploy.")],
     Ok tt).
Proof. vm_compute. reflexivity. Qed.

(** ** Splitting and first lines *)

Lemma startswith_iff (s p : pystr) :
  startswith s p = true <-> exists rest, s = p ++ rest.
Proof.
  revert s. induction p as [|a p IH]; intros s.
  - destruct s; cbn; (split; [eexists; reflexivity | reflexivity]).
  - destruct s as [|b s]; cbn.
    + split; [discriminate | intros [rest H]; discriminate].
    + rewrite andb_true_iff, N.eqb_eq, IH. split.
      * intros [-> [rest ->]]. now exists rest.
      * intros [rest H]. inversion H. subst. split; [reflexivity|].
        now exists rest.
Qed.

Lemma find_sep_eq (sep s : pystr) :
  find_sep sep s
  = if startswith s sep then Some ([], skipn (length sep) s)
    else match s with
         | [] => None
         | c :: rest =>
             match find_sep sep rest with
             | Some (before, after) => Some (c :: before, after)
             | None => None
             end
         end.
Proof. destruct s; reflexivity. Qed.

Lemma startswith_skipn (s p : pystr) :
  startswith s p = true -> s = p ++ skipn (length p) s.
Proof.
  intros H. apply startswith_iff in H. destruct H as [rest ->].
  now rewrite skipn_app, skipn_all, Nat.sub_diag.
Qed.

Lemma find_sep_some (sep s before after : pystr) :
  find_sep sep s = Some (before, after) -> s = before ++ sep ++ after.
Proof.
  revert before after. induction s as [|c s IH]; intros before after;
    rewrite find_sep_eq; destruct (startswith _ sep) eqn:E.
  - intros H. inversion H. subst. now apply startswith_skipn.
  - discriminate.
  - intros H. inversion H. subst. now apply startswith_skipn.
  - destruct (find_sep sep s) as [[b a]|]; [|discriminate].
    intros H. inversion H. subst. cbn. f_equal. now apply IH.
Qed.

Lemma occurs_at_start (sep s : pystr) :
  startswith s sep = true -> occurs sep s.
Proof.
  intros H. apply startswith_iff in H. destruct H as [rest H].
  now exists [], rest.
Qed.

Lemma find_sep_none (sep s : pystr) :
  find_sep sep s = None <-> ~ occurs sep s.
Proof.
  induction s as [|c s IH]; rewrite find_sep_eq;
    destruct (startswith _ sep) eqn:E.
  - split; [discriminate|]. intros H. exfalso. apply H.
    now apply occurs_at_start.
  - split; [|reflexivity]. intros _ [b [a H]].
    destruct b; [|discriminate]. cbn in H.
    assert (startswith [] sep = true) by (apply startswith_iff; now exists a).
    congruence.
  - split; [discriminate|]. intros H. exfalso. apply H.
    now apply occurs_at_start.
  - destruct (find_sep sep s) as [[b a]|] eqn:F.
    + split; [discriminate|]. intros H. exfalso. apply H.
      apply find_sep_some in F. exists (c :: b), a. cbn. now f_equal.
    + split; [|reflexivity]. intros _ [b [a H]].
      destruct b as [|c' b]; cbn in H.
      * assert (startswith (c :: s) sep = true)
          by (apply startswith_iff; now exists a).
        congruence.
      * inversion H. subst. apply (proj1 IH eq_refl). now exists b, a.
Qed.

Lemma item0_split1 (sep s : pystr) :
  item0 (split1 sep s) = ret (first_segment sep s).
Proof.
  unfold split1, first_segment.
  destruct (find_sep sep s) as [[b a]|]; reflexivity.
Qed.

Lemma first_segment_prefix (sep s : pystr) :
  exists rest, s = first_segment sep s ++ rest.
Proof.
  unfold first_segment. destruct (find_sep sep s) as [[b a]|] eqn:F.
  - apply find_sep_some in F. now exists (sep ++ a).
  - exists []. now rewrite app_nil_r.
Qed.

Lemma first_segment_absent (sep s : pystr) :
  ~ occurs sep s -> first_segment sep s = s.
Proof.
  intros H. apply find_sep_none in H. unfold first_segment. now rewrite H.
Qed.

Lemma first_segment_nil (sep s : pystr) :
  sep <> [] ->
  first_segment sep s = [] <-> s = [] \/ startswith s sep = true.
Proof.
  intros Hsep. unfold first_segment. rewrite find_sep_eq.
  destruct (startswith s sep) eqn:E; [tauto|].
  destruct s as [|c s]; [tauto|].
  destruct (find_sep sep s) as [[b a]|]; split;
    (discriminate || (intros [H|H]; discriminate)).
Qed.

Lemma splitlines_from_first_line (s : pystr) :
  forall (after_cr : bool) (line l : pystr) (ls : list pystr),
    no_linebreak line ->
    splitlines_from after_cr line s = l :: ls ->
    no_linebreak l.
Proof.
  induction s as [|c rest IH]; intros after_cr line l ls Hline;
    cbn [splitlines_from].
  - destruct line; [discriminate|]. intros H. inversion H. now subst.
  - destruct (after_cr && (c =? LF)%N).
    + apply IH. constructor.
    + destruct (is_linebreak c) eqn:E.
      * intros H. inversion H. now subst.
      * apply IH. apply Forall_app. split; [exact Hline|].
        constructor; [exact E | constructor].
Qed.

Lemma splitlines_from_line (s line : pystr) :
  line <> [] -> splitlines_from false line s <> [].
Proof.
  revert line. induction s as [|c rest IH]; intros line Hline;
    cbn [splitlines_from andb].
  - destruct line; [congruence | discriminate].
  - destruct (is_linebreak c); [discriminate|].
    apply IH. destruct line; discriminate.
Qed.

Lemma splitlines_nil_iff (s : pystr) : splitlines s = [] <-> s = [].
Proof.
  split; [|intros ->; reflexivity].
  destruct s as [|c rest]; [reflexivity|].
  unfold splitlines. cbn [splitlines_from andb].
  destruct (is_linebreak c); [discriminate|].
  intros H. exfalso. revert H. apply splitlines_from_line. discriminate.
Qed.

Lemma splitlines_from_no_linebreak (s line : pystr) :
  no_linebreak s ->
  splitlines_from false line s
  = match line ++ s with [] => [] | _ => [line ++ s] end.
Proof.
  revert line. induction s as [|c rest IH]; intros line Hs;
    cbn [splitlines_from andb].
  - now rewrite app_nil_r.
  - inversion Hs as [|? ? Hc Hrest]. subst. rewrite Hc.
    rewrite (IH _ Hrest), <- app_assoc. reflexivity.
Qed.

Lemma extract_title_eq (text : pystr) :
  _extract_title text
  = item0 (splitlines
             (first_segment ESCAPED_R (first_segment ESCAPED_N text))).
Proof.
  unfold _extract_title.
  change (py "\n") with ESCAPED_N. change (py "\r") with ESCAPED_R.
  rewrite !item0_split1. cbn [bind ret].
  rewrite item0_split1. cbn [bind ret].
  now destruct (item0 _).
Qed.

Lemma startswith_escaped_r_first_segment (text : pystr) :
  startswith (first_segment ESCAPED_N text) ESCAPED_R = true
  <-> startswith text ESCAPED_R = true.
Proof.
  rewrite !startswith_iff. split.
  - intros [r H]. destruct (first_segment_prefix ESCAPED_N text) as [rest E].
    exists (r ++ rest). rewrite E at 1. rewrite H. now rewrite <- app_assoc.
  - intros [r ->]. unfold first_segment. cbn.
    destruct (find_sep ESCAPED_N r) as [[b a]|]; eexists; reflexivity.
Qed.

(** The text left after the two splits on escape sequences is empty
    exactly for the empty text and for a text that begins with one of the
    escape sequences. *)
Lemma first_segments_nil_iff (text : pystr) :
  first_segment ESCAPED_R (first_segment ESCAPED_N text) = []
  <-> text = [] \/ startswith text ESCAPED_N = true
      \/ startswith text ESCAPED_R = true.
Proof.
  rewrite first_segment_nil by discriminate.
  rewrite first_segment_nil by discriminate.
  rewrite startswith_escaped_r_first_segment. tauto.
Qed.

(** [_extract_title] either raises [IndexError], without any effect, or
    returns; it raises exactly on the texts above. *)
Lemma extract_title_raises_iff (text : pystr) :
  _extract_title text = ([], Raise IndexError)
  <-> text = [] \/ startswith text ESCAPED_N = true
      \/ startswith text ESCAPED_R = true.
Proof.
  rewrite <- first_segments_nil_iff, extract_title_eq, <- splitlines_nil_iff.
  unfold item0, ret, raise. destruct (splitlines _); split; congruence.
Qed.

(** C9: for the empty text, and for a text that is empty once split on the
    escape sequences (it begins with a backslash followed by n or by r),
    [splitlines] answers the empty list and [_extract_title] raises
    IndexError; so does [get_deploy_note], for a pull request with such a
    title and for a commit with such a message, given or current. *)
Theorem extract_title_empty_raises_index_error (text : pystr) :
  text = [] \/ startswith text ESCAPED_N = true
  \/ startswith text ESCAPED_R = true ->
  splitlines (first_segment ESCAPED_R (first_segment ESCAPED_N text)) = []
  /\ _extract_title text = ([], Raise IndexError)
  /\ (forall (ctx : Context) (api : GhApi) (pr : PullRequest),
        event_name ctx = py "pull_request" ->
        pull_request (event ctx) = Some pr ->
        title pr = text ->
        get_deploy_note ctx api None = ([], Raise IndexError))
  /\ (forall (ctx : Context) (api : GhApi) (c : Commit),
        message c = text ->
        get_deploy_note ctx api (Some c) = ([], Raise IndexError))
  /\ (forall (ctx : Context) (api : GhApi) (c : Commit),
        event_name ctx <> py "pull_request" ->
        result (get_current_commit ctx api) = Ok c ->
        message c = text ->
        result (get_deploy_note ctx api None) = Raise IndexError).
Proof.
  intros H.
  assert (Hraise : _extract_title text = ([], Raise IndexError))
    by now apply extract_title_raises_iff.
  split; [|split; [exact Hraise | split; [|split]]].
  - apply splitlines_nil_iff. now apply first_segments_nil_iff.
  - intros ctx api pr Hev Hpr Ht. unfold get_deploy_note.
    rewrite Hev, Hpr.
    change (Str.eqb (py "pull_request") (py "pull_request")) with true.
    cbn [andb not_commit attr bind ret]. now rewrite Ht, Hraise.
  - intros ctx api c Hm. unfold get_deploy_note.
    cbn [not_commit]. rewrite andb_false_r. cbn [bind ret].
    now rewrite Hm, Hraise.
  - intros ctx api c Hev Hc Hm. unfold get_deploy_note.
    apply str_eqb_neq in Hev. rewrite Hev. cbn [andb].
    rewrite (result_bind_ok _ _ _ Hc). now rewrite Hm, Hraise.
Qed.

(** The theorem at the empty title and the empty commit message. *)
Lemma extract_title_empty_raises_index_error_witness :
  splitlines (first_segment ESCAPED_R (first_segment ESCAPED_N [])) = []
  /\ _extract_title [] = ([], Raise IndexError)
  /\ (forall (ctx : Context) (api : GhApi) (pr : PullRequest),
        event_name ctx = py "pull_request" ->
        pull_request (event ctx) = Some pr ->
        title pr = [] ->
        get_deploy_note ctx api None = ([], Raise IndexError))
  /\ (forall (ctx : Context) (api : GhApi) (c : Commit),
        message c = [] ->
        get_deploy_note ctx api (Some c) = ([], Raise IndexError))
  /\ (forall (ctx : Context) (api : GhApi) (c : Commit),
        event_name ctx <> py "pull_request" ->
        result (get_current_commit ctx api) = Ok c ->
        message c = [] ->
        result (get_deploy_note ctx api None) = Raise IndexError).
Proof.
  apply (extract_title_empty_raises_index_error []). left. reflexivity.
Defined.

Example empty_title_stops_the_run :
  main (Sample.pr_context [] false Sample.p1) Sample.plain_host
  = ([SetGitUser], Raise IndexError)
  /\ get_deploy_note (Sample.pr_context (py "\nRelease") false Sample.p1)
       Sample.plain_host None
     = ([], Raise IndexError)
  /\ _extract_title [LF] = ([], Ok []).
Proof. vm_compute. repeat split. Qed.

(** C7, as amended: for every text that is not empty and does not begin
    with an escape sequence (a backslash followed by n or by r),
    [_extract_title] returns a title without line-break characters; and the
    title is the text itself when the text has no line-break character and
    neither escape sequence occurs in it. *)
Theorem extract_title_first_line (m : pystr) :
  m <> [] ->
  startswith m ESCAPED_N = false ->
  startswith m ESCAPED_R = false ->
  exists t : pystr,
    _extract_title m = ([], Ok t)
    /\ no_linebreak t
    /\ ~ In LF t /\ ~ In CR t
    /\ (no_linebreak m ->
        ~ occurs ESCAPED_N m ->
        ~ occurs ESCAPED_R m ->
        t = m).
Proof.
  intros Hm Hn Hr. rewrite extract_title_eq.
  destruct (splitlines (first_segment ESCAPED_R (first_segment ESCAPED_N m)))
    as [|l ls] eqn:E.
  { apply splitlines_nil_iff, first_segments_nil_iff in E.
    destruct E as [E|[E|E]]; congruence. }
  exists l. split; [reflexivity|].
  assert (Hl : no_linebreak l).
  { unfold splitlines in E.
    apply (splitlines_from_first_line _ _ _ _ _ (Forall_nil _) E). }
  split; [exact Hl|].
  unfold no_linebreak in Hl. rewrite Forall_forall in Hl.
  split; [|split].
  - intros HIn. apply Hl in HIn. discriminate.
  - intros HIn. apply Hl in HIn. discriminate.
  - intros Hlb HoN HoR.
    rewrite (first_segment_absent _ _ HoN), (first_segment_absent _ _ HoR) in E.
    unfold splitlines in E.
    rewrite (splitlines_from_no_linebreak m [] Hlb) in E. cbn [app] in E.
    destruct m; [congruence|]. now inversion E.
Qed.

(** The theorem at a one-line title. *)
Lemma extract_title_first_line_witness :
  exists t : pystr,
    _extract_title (py "Fix bug #42") = ([], Ok t)
    /\ no_linebreak t
    /\ ~ In LF t /\ ~ In CR t
    /\ (no_linebreak (py "Fix bug #42") ->
        ~ occurs ESCAPED_N (py "Fix bug #42") ->
        ~ occurs ESCAPED_R (py "Fix bug #42") ->
        t = py "Fix bug #42").
Proof.
  apply (extract_title_first_line (py "Fix bug #42")).
  - discriminate.
  - reflexivity.
  - reflexivity.
Defined.

(** C7 as stated fails: the text [fix\nbody], in which the backslash and
    the n are two ordinary characters, has no line-break character, and
    its title is [fix], not the text. *)
Lemma extract_title_cuts_at_escape_sequence :
  no_linebreak (py "fix\nbody")
  /\ _extract_title (py "fix\nbody") = ([], Ok (py "fix"))
  /\ py "fix" <> py "fix\nbody".
Proof.
  split; [|split].
  - repeat constructor.
  - reflexivity.
  - discriminate.
Qed.

Example first_lines :
  _extract_title (py "Fix bug" ++ [CR; LF] ++ py "details")
  = ([], Ok (py "Fix bug"))
  /\ _extract_title (py "Fix bug\rdetails") = ([], Ok (py "Fix bug"))
  /\ _extract_title (py "Fix" ++ [8232%N] ++ py "bug") = ([], Ok (py "Fix")).
Proof. repeat split. Qed.

(** ** Quoting for the shell *)

(** A safe character is an ASCII character. *)
Lemma is_safe_ascii (c : N) : Shlex.is_safe c = true -> (c < 128)%N.
Proof.
  unfold Shlex.is_safe, Shlex.is_word. cbn [existsb py map list_ascii_of_string].
  rewrite !orb_true_iff, !andb_true_iff, !N.leb_le, !N.eqb_eq.
  cbn. lia.
Qed.

(** The numbers below [n], for a check of all ASCII characters. *)
Lemma In_N_below (n : nat) (c : N) :
  (c < N.of_nat n)%N -> In c (map N.of_nat (List.seq 0 n)).
Proof.
  intros H. apply in_map_iff. exists (N.to_nat c). split; [lia|].
  apply in_seq. lia.
Qed.

(** The shell takes a safe character for itself: it opens no quotation,
    escapes nothing and is not special. *)
Lemma safe_is_literal (c : N) :
  Shlex.is_safe c = true ->
  (c =? SQUOTE)%N = false /\ (c =? DQUOTE)%N = false
  /\ (c =? BACKSLASH)%N = false /\ Shlex.is_special c = false.
Proof.
  intros H.
  assert (Hall :
    forallb (fun c => implb (Shlex.is_safe c)
                        (negb (c =? SQUOTE)%N && negb (c =? DQUOTE)%N
                         && negb (c =? BACKSLASH)%N
                         && negb (Shlex.is_special c)))
            (map N.of_nat (List.seq 0 128)) = true)
    by (vm_compute; reflexivity).
  rewrite forallb_forall in Hall.
  specialize (Hall c (In_N_below 128 c (is_safe_ascii c H))).
  rewrite H in Hall. cbn [implb] in Hall.
  rewrite !andb_true_iff, !negb_true_iff in Hall. tauto.
Qed.

Lemma unquote_all_safe (s : pystr) :
  Shlex.all_safe s = true -> Shlex.unquote_from Shlex.Unquoted s = Some s.
Proof.
  induction s as [|c s IH]; [reflexivity|].
  unfold Shlex.all_safe. cbn [forallb]. intros H.
  apply andb_true_iff in H. destruct H as [Hc Hs].
  destruct (safe_is_literal c Hc) as [H1 [H2 [H3 H4]]].
  cbn [Shlex.unquote_from]. rewrite H1, H2, H3, H4.
  now rewrite (IH Hs).
Qed.

(** Inside single quotes: the replacement of each single quote closes the
    quotation, gives the quote between double quotes and opens a new
    quotation; every other character stands for itself. *)
Lemma unquote_in_single (s : pystr) :
  Shlex.unquote_from Shlex.InSingle
    (replace_char SQUOTE Shlex.quoted_squote s ++ [SQUOTE])
  = Some s.
Proof.
  induction s as [|c s IH]; [reflexivity|].
  unfold replace_char. cbn [flat_map].
  fold (replace_char SQUOTE Shlex.quoted_squote s).
  destruct (c =? SQUOTE)%N eqn:E.
  - apply N.eqb_eq in E. subst c. unfold Shlex.quoted_squote in *.
    cbn -[replace_char]. now rewrite IH.
  - cbn -[replace_char]. now rewrite E, IH.
Qed.

(** C8: the shell-quoted form of a deploy note, as written to the output
    note_clean, gives back the note under the quote removal of the shell,
    for every string: empty, made of safe characters only, or with spaces,
    quotes and punctuation. *)
Theorem shlex_quote_is_reversible (s : pystr) :
  Shlex.unquote (Shlex.quote s) = Some s.
Proof.
  unfold Shlex.unquote, Shlex.quote. destruct s as [|c s]; [reflexivity|].
  destruct (Shlex.all_safe (c :: s)) eqn:E.
  - now apply unquote_all_safe.
  - cbn [app Shlex.unquote_from].
    change (SQUOTE =? SQUOTE)%N with true. cbn iota.
    apply unquote_in_single.
Qed.

Example quote_note :
  Shlex.quote Sample.pr_note
  = [SQUOTE] ++ py "PR: Fix bug #42 https://host/pr/42" ++ [SQUOTE]
  /\ Shlex.quote (py "it's") = [SQUOTE] ++ py "it" ++ Shlex.quoted_squote
                               ++ py "s" ++ [SQUOTE]
  /\ Shlex.quote (py "v1.2.3") = py "v1.2.3"
  /\ Shlex.unquote (py "a b") = None
  /\ Shlex.unquote (py "$HOME") = None.
Proof. repeat split. Qed.

(** * Further properties of the scripts *)

(** ** Titles *)

Lemma occurs_prefix (sep p rest : pystr) :
  occurs sep p -> occurs sep (p ++ rest).
Proof.
  intros [b [a ->]]. exists b, (a ++ rest). now rewrite <- !app_assoc.
Qed.

Lemma startswith_prefix (s p rest : pystr) :
  startswith s p = true -> startswith (s ++ rest) p = true.
Proof.
  rewrite !startswith_iff. intros [r ->]. exists (r ++ rest).
  now rewrite <- app_assoc.
Qed.

(** The text before the first occurrence of a separator does not contain
    the separator. *)
Lemma find_sep_before_clean (sep s before after : pystr) :
  sep <> [] ->
  find_sep sep s = Some (before, after) -> ~ occurs sep before.
Proof.
  intros Hsep. revert before after.
  induction s as [|c s IH]; intros before after; rewrite find_sep_eq;
    destruct (startswith _ sep) eqn:E.
  - intros H. inversion H; subst. intros [b [a Hb]].
    destruct b; destruct sep; try discriminate; congruence.
  - discriminate.
  - intros H. inversion H; subst. intros [b [a Hb]].
    destruct b; destruct sep; try discriminate; congruence.
  - destruct (find_sep sep s) as [[b' a']|] eqn:F; [|discriminate].
    intros H. inversion H; subst. intros [b [a Hb]].
    destruct b as [|c' b]; cbn in Hb.
    + apply find_sep_some in F.
      assert (Hs : startswith (c :: s) sep = true).
      { rewrite F. change (c :: b' ++ sep ++ after)
          with ((c :: b') ++ sep ++ after).
        apply startswith_prefix. apply startswith_iff. now exists a. }
      congruence.
    + inversion Hb; subst. apply (IH _ _ eq_refl). now exists b, a.
Qed.

Lemma first_segment_clean (sep s : pystr) :
  sep <> [] -> ~ occurs sep (first_segment sep s).
Proof.
  intros Hsep. unfold first_segment.
  destruct (find_sep sep s) as [[b a]|] eqn:F.
  - now apply (find_sep_before_clean sep s b a).
  - now apply find_sep_none.
Qed.

(** The first line is a prefix of the text. *)
Lemma splitlines_from_first_prefix (s : pystr) :
  forall (line l : pystr) (ls : list pystr),
    splitlines_from false line s = l :: ls -> is_prefix l (line ++ s).
Proof.
  induction s as [|c rest IH]; intros line l ls;
    cbn [splitlines_from andb].
  - destruct line; [discriminate|]. intros H. inversion H. subst.
    exists []. reflexivity.
  - destruct (is_linebreak c).
    + intros H. inversion H. subst. now exists (c :: rest).
    + intros H. apply IH in H. destruct H as [r H]. exists r.
      rewrite <- H, <- app_assoc. reflexivity.
Qed.

Lemma is_prefix_trans (a b c : pystr) :
  is_prefix a b -> is_prefix b c -> is_prefix a c.
Proof.
  intros [r1 ->] [r2 ->]. exists (r1 ++ r2). now rewrite app_assoc.
Qed.

(** A clean text, not empty, is its own title. *)
Lemma extract_title_clean (t : pystr) :
  t <> [] -> no_linebreak t ->
  ~ occurs ESCAPED_N t -> ~ occurs ESCAPED_R t ->
  _extract_title t = ([], Ok t).
Proof.
  intros Ht Hlb HoN HoR. rewrite extract_title_eq.
  rewrite (first_segment_absent _ _ HoN), (first_segment_absent _ _ HoR).
  unfold splitlines. rewrite (splitlines_from_no_linebreak t [] Hlb).
  cbn [app]. destruct t; [congruence | reflexivity].
Qed.

(** What a returned title is. *)
Lemma extract_title_ok_inv (text t : pystr) :
  result (_extract_title text) = Ok t ->
  _extract_title text = ([], Ok t)
  /\ is_prefix t text /\ no_linebreak t
  /\ ~ occurs ESCAPED_N t /\ ~ occurs ESCAPED_R t.
Proof.
  rewrite extract_title_eq.
  set (first_n := first_segment ESCAPED_N text).
  set (first_r := first_segment ESCAPED_R first_n).
  destruct (splitlines first_r) as [|l ls] eqn:E; [discriminate|].
  cbn. intros H. inversion H; subst l. split; [reflexivity|].
  assert (Hp : is_prefix t first_r)
    by (apply (splitlines_from_first_prefix first_r [] t ls E)).
  assert (Hr : is_prefix first_r first_n) by apply first_segment_prefix.
  assert (Hn : is_prefix first_n text) by apply first_segment_prefix.
  split; [exact (is_prefix_trans _ _ _ Hp (is_prefix_trans _ _ _ Hr Hn))|].
  split.
  { unfold splitlines in E.
    apply (splitlines_from_first_line _ _ _ _ _ (Forall_nil _) E). }
  split.
  - intros Ho. destruct Hp as [r1 Hp]. destruct Hr as [r2 Hr].
    apply (first_segment_clean ESCAPED_N text); [discriminate|].
    fold first_n. rewrite Hr, Hp. now do 2 apply occurs_prefix.
  - intros Ho. destruct Hp as [r1 Hp].
    apply (first_segment_clean ESCAPED_R first_n); [discriminate|].
    fold first_r. rewrite Hp. now apply occurs_prefix.
Qed.

Lemma extract_title_cases (text : pystr) :
  _extract_title text = ([], Raise IndexError)
  \/ exists t, _extract_title text = ([], Ok t).
Proof.
  rewrite extract_title_eq. destruct (splitlines _) as [|l ls]; cbn.
  - now left.
  - right. now exists l.
Qed.

(** X1: [_extract_title] performs no effect and either raises IndexError,
    exactly on the empty text and on a text that begins with an escape
    sequence, or returns a title that is a prefix of the text and contains
    no line-break character and neither escape sequence. *)
Theorem extract_title_prefix_or_index_error (text : pystr) :
  (_extract_title text = ([], Raise IndexError)
   /\ (text = [] \/ startswith text ESCAPED_N = true
       \/ startswith text ESCAPED_R = true))
  \/ (exists t : pystr,
        _extract_title text = ([], Ok t)
        /\ is_prefix t text
        /\ no_linebreak t
        /\ ~ occurs ESCAPED_N t /\ ~ occurs ESCAPED_R t
        /\ ~ (text = [] \/ startswith text ESCAPED_N = true
              \/ startswith text ESCAPED_R = true)).
Proof.
  destruct (extract_title_cases text) as [Hr | [t Hok]].
  - left. split; [exact Hr|]. now apply extract_title_raises_iff.
  - right. exists t.
    assert (Hres : result (_extract_title text) = Ok t)
      by now rewrite Hok.
    destruct (extract_title_ok_inv text t Hres) as [_ [Hp [Hlb [HoN HoR]]]].
    repeat (split; [assumption|]).
    intros H. apply extract_title_raises_iff in H.
    rewrite H in Hok. discriminate.
Qed.

(** X2: the title of a title is the title itself: a returned title that is
    not empty is returned unchanged by [_extract_title]; the empty title,
    which a text beginning with a line break gives, raises IndexError. *)
Theorem extract_title_idempotent (text t : pystr) :
  result (_extract_title text) = Ok t ->
  (t <> [] -> _extract_title t = ([], Ok t))
  /\ (t = [] -> _extract_title t = ([], Raise IndexError)).
Proof.
  intros H.
  destruct (extract_title_ok_inv text t H) as [_ [_ [Hlb [HoN HoR]]]].
  split.
  - intros Ht. now apply extract_title_clean.
  - intros ->. reflexivity.
Qed.

(** The theorem at a message of several lines. *)
Lemma extract_title_idempotent_witness :
  (py "Fix bug" <> [] -> _extract_title (py "Fix bug") = ([], Ok (py "Fix bug")))
  /\ (py "Fix bug" = [] ->
      _extract_title (py "Fix bug") = ([], Raise IndexError)).
Proof.
  apply (extract_title_idempotent (py "Fix bug\ndetails" ++ [LF] ++ py "more")).
  reflexivity.
Defined.

(** X3: a text that begins with a line-break character has the empty
    title: the call returns, unlike on the empty text. *)
Theorem extract_title_leading_linebreak (c : N) (rest : pystr) :
  is_linebreak c = true ->
  _extract_title (c :: rest) = ([], Ok []).
Proof.
  intros Hc.
  assert (Hb : (c =? BACKSLASH)%N = false).
  { apply N.eqb_neq. intros ->. discriminate Hc. }
  assert (Hseg : forall sep' s, exists s',
            first_segment (BACKSLASH :: sep') (c :: s) = c :: s').
  { intros sep' s. unfold first_segment. rewrite find_sep_eq.
    cbn [startswith]. rewrite N.eqb_sym, Hb. cbn [andb].
    destruct (find_sep _ s) as [[b a]|]; eexists; reflexivity. }
  rewrite extract_title_eq. unfold ESCAPED_N, ESCAPED_R.
  destruct (Hseg [110%N] rest) as [s1 ->].
  destruct (Hseg [114%N] s1) as [s2 ->].
  unfold splitlines. cbn [splitlines_from andb]. now rewrite Hc.
Qed.

(** The theorem at a text that begins with a line feed. *)
Lemma extract_title_leading_linebreak_witness :
  _extract_title (LF :: py "Fix bug") = ([], Ok []).
Proof. apply extract_title_leading_linebreak. reflexivity. Defined.

(** ** Deploy notes *)

Lemma no_linebreak_app (a b : pystr) :
  no_linebreak a -> no_linebreak b -> no_linebreak (a ++ b).
Proof. intros Ha Hb. apply Forall_app. now split. Qed.

Lemma trace_extract_title (text : pystr) : trace (_extract_title text) = [].
Proof.
  destruct (extract_title_cases text) as [H | [t H]]; now rewrite H.
Qed.

(** The note made of a title and a link. *)
Lemma note_single_line (kind t link : pystr) :
  no_linebreak kind -> no_linebreak t -> no_linebreak link ->
  no_linebreak (kind ++ t ++ py " " ++ link).
Proof.
  intros Hk Ht Hl. repeat apply no_linebreak_app; try assumption.
  repeat constructor.
Qed.

(** X4: a deploy note that is returned reads [PR: ] or [Commit: ], a title
    and a link, separated by one space.  It is a pull-request note exactly
    on a pull request event without a given commit; the title is a prefix
    of the pull request title, or of the message of the commit (the given
    one, else the current one), without line break or escape sequence; and
    the note is a single line whenever the link is. *)
Theorem deploy_note_shape (ctx : Context) (api : GhApi)
    (commit : option Commit) (note : pystr) :
  result (get_deploy_note ctx api commit) = Ok note ->
  exists kind t link : pystr,
    note = kind ++ t ++ py " " ++ link
    /\ ((kind = py "PR: " /\ event_name ctx = py "pull_request"
         /\ commit = None
         /\ exists pr, pull_request (event ctx) = Some pr
                       /\ link = html_href pr /\ is_prefix t (title pr))
        \/ (kind = py "Commit: "
            /\ exists c,
                 (commit = Some c
                  \/ (commit = None /\ event_name ctx <> py "pull_request"
                      /\ result (get_current_commit ctx api) = Ok c))
                 /\ link = commit_link c /\ is_prefix t (message c)))
    /\ no_linebreak t
    /\ ~ occurs ESCAPED_N t /\ ~ occurs ESCAPED_R t
    /\ (no_linebreak link -> no_linebreak note).
Proof.
  unfold get_deploy_note.
  destruct (Str.eqb (event_name ctx) (py "pull_request")) eqn:Ev;
    destruct commit as [c|]; cbn [andb not_commit].
  - (* a given commit, on a pull request *)
    cbn [bind ret].
    destruct (_extract_title (message c)) as [tr [t|e]] eqn:Et;
      cbn; [|discriminate].
    intros H. inversion H; subst note.
    assert (Hres : result (_extract_title (message c)) = Ok t)
      by now rewrite Et.
    destruct (extract_title_ok_inv _ _ Hres) as [_ [Hp [Hlb [HoN HoR]]]].
    exists (py "Commit: "), t, (commit_link c).
    split; [reflexivity|]. split.
    { right. split; [reflexivity|]. exists c. auto. }
    repeat (split; [assumption|]).
    intros Hl.
    apply (note_single_line (py "Commit: ") t (commit_link c));
      [repeat constructor | assumption | assumption].
  - (* the pull request itself *)
    apply str_eqb_eq in Ev.
    destruct (pull_request (event ctx)) as [pr|] eqn:Hpr;
      cbn [attr bind ret raise]; [|discriminate].
    destruct (_extract_title (title pr)) as [tr [t|e]] eqn:Et;
      cbn; [|discriminate].
    intros H. inversion H; subst note.
    assert (Hres : result (_extract_title (title pr)) = Ok t)
      by now rewrite Et.
    destruct (extract_title_ok_inv _ _ Hres) as [_ [Hp [Hlb [HoN HoR]]]].
    exists (py "PR: "), t, (html_href pr).
    split; [reflexivity|]. split.
    { left. repeat split; try assumption. exists pr. auto. }
    repeat (split; [assumption|]).
    intros Hl.
    apply (note_single_line (py "PR: ") t (html_href pr));
      [repeat constructor | assumption | assumption].
  - (* a given commit, on another event *)
    cbn [bind ret].
    destruct (_extract_title (message c)) as [tr [t|e]] eqn:Et;
      cbn; [|discriminate].
    intros H. inversion H; subst note.
    assert (Hres : result (_extract_title (message c)) = Ok t)
      by now rewrite Et.
    destruct (extract_title_ok_inv _ _ Hres) as [_ [Hp [Hlb [HoN HoR]]]].
    exists (py "Commit: "), t, (commit_link c).
    split; [reflexivity|]. split.
    { right. split; [reflexivity|]. exists c. auto. }
    repeat (split; [assumption|]).
    intros Hl.
    apply (note_single_line (py "Commit: ") t (commit_link c));
      [repeat constructor | assumption | assumption].
  - (* the current commit *)
    apply str_eqb_neq in Ev.
    destruct (get_current_commit ctx api) as [tc [c|e]] eqn:Hc;
      cbn [bind]; [|discriminate].
    destruct (_extract_title (message c)) as [tr [t|e]] eqn:Et;
      cbn; [|discriminate].
    intros H. inversion H; subst note.
    assert (Hres : result (_extract_title (message c)) = Ok t)
      by now rewrite Et.
    destruct (extract_title_ok_inv _ _ Hres) as [_ [Hp [Hlb [HoN HoR]]]].
    exists (py "Commit: "), t, (commit_link c).
    split; [reflexivity|]. split.
    { right. split; [reflexivity|]. exists c. split; [|auto].
      right. auto. }
    repeat (split; [assumption|]).
    intros Hl.
    apply (note_single_line (py "Commit: ") t (commit_link c));
      [repeat constructor | assumption | assumption].
Qed.

(** The theorem at the sample pull request [Fix bug #42]. *)
Lemma deploy_note_shape_witness :
  exists kind t link : pystr,
    Sample.pr_note = kind ++ t ++ py " " ++ link
    /\ ((kind = py "PR: "
         /\ event_name Sample.fix_context = py "pull_request"
         /\ @None Commit = None
         /\ exists pr, pull_request (event Sample.fix_context) = Some pr
                       /\ link = html_href pr /\ is_prefix t (title pr))
        \/ (kind = py "Commit: "
            /\ exists c,
                 (None = Some c
                  \/ (@None Commit = None
                      /\ event_name Sample.fix_context <> py "pull_request"
                      /\ result (get_current_commit Sample.fix_context
                                   Sample.plain_host) = Ok c))
                 /\ link = commit_link c /\ is_prefix t (message c)))
    /\ no_linebreak t
    /\ ~ occurs ESCAPED_N t /\ ~ occurs ESCAPED_R t
    /\ (no_linebreak link -> no_linebreak Sample.pr_note).
Proof.
  apply (deploy_note_shape Sample.fix_context Sample.plain_host None).
  reflexivity.
Defined.

(** X5: computing a deploy note reads the host at most once: not at all
    when a commit is given, on a pull request or on a push (whose payload
    holds the head commit), and otherwise one [get_commit] of the sha of
    the event, whether the call fails or not. *)
Theorem deploy_note_calls (ctx : Context) (api : GhApi)
    (commit : option Commit) :
  calls_of (trace (get_deploy_note ctx api commit))
  = match commit with
    | Some _ => []
    | None =>
        if Str.eqb (event_name ctx) (py "pull_request")
           || Str.eqb (event_name ctx) (py "push")
        then []
        else [GetCommit (ctx_sha ctx)]
    end.
Proof.
  unfold get_deploy_note.
  destruct commit as [c|]; cbn [not_commit].
  - rewrite andb_false_r. cbn [bind ret].
    pose proof (trace_extract_title (message c)) as Ht.
    destruct (_extract_title (message c)) as [tr [t|e]]; cbn in *;
      now subst.
  - rewrite andb_true_r.
    destruct (Str.eqb (event_name ctx) (py "pull_request")) eqn:Ev;
      cbn [orb].
    + destruct (pull_request (event ctx)) as [pr|];
        cbn [attr bind ret raise]; [|reflexivity].
      pose proof (trace_extract_title (title pr)) as Ht.
      destruct (_extract_title (title pr)) as [tr [t|e]]; cbn in *;
        now subst.
    + unfold get_current_commit, get_commit, http.
      destruct (Str.eqb (event_name ctx) (py "push")).
      * destruct (head_commit (event ctx)) as [c|];
          cbn [attr bind ret raise]; [|reflexivity].
        pose proof (trace_extract_title (message c)) as Ht.
        destruct (_extract_title (message c)) as [tr [t|e]]; cbn in *;
          now subst.
      * destruct (git_get_commit api (ctx_sha ctx)) as [c|];
          cbn [bind tell ret raise app]; [|reflexivity].
        pose proof (trace_extract_title (message c)) as Ht.
        destruct (_extract_title (message c)) as [tr [t|e]]; cbn in *;
          now subst.
Qed.

(** ** Branches identical to the deploy branch *)

Ltac cases_finish :=
  repeat split; intros;
  repeat match goal with
         | H : _ \/ _ |- _ => destruct H
         | H : exists _, _ |- _ => destruct H
         | H : _ /\ _ |- _ => destruct H
         | H : Some _ = Some _ |- _ => inversion H; clear H; subst
         | H : Ok _ = Ok _ |- _ => inversion H; clear H; subst
         | H : Raise _ = Raise _ |- _ => inversion H; clear H; subst
         | H : (_, _) = (_, _) |- _ => inversion H; clear H; subst
         end;
  try discriminate; try congruence; try contradiction; eauto 8.

(** The run of [_is_branch_directly_deployed], case by case. *)
Lemma directly_deployed_run (ctx : Context) (api : GhApi) :
  _is_branch_directly_deployed ctx api
  = let main_call := Call (CompareCommits (MAIN_BRANCH_NAME ctx)
                             DEPLOY_DEV_BRANCH) in
    let head_call := Call (CompareCommits (head_ref ctx) DEPLOY_DEV_BRANCH) in
    let found branch :=
      Print (DEPLOY_DEV_BRANCH ++ py " is identical to " ++ branch
             ++ py ", allow to override.") in
    match repos_compare_commits api (MAIN_BRANCH_NAME ctx) DEPLOY_DEV_BRANCH
    with
    | None => ([main_call], Raise HTTPError)
    | Some st1 =>
        if Str.eqb st1 identical
        then ([main_call; found (MAIN_BRANCH_NAME ctx)], Ok PyTrue)
        else
          match repos_compare_commits api (head_ref ctx) DEPLOY_DEV_BRANCH
          with
          | None => ([main_call; head_call], Raise HTTPError)
          | Some st2 =>
              if Str.eqb st2 identical
              then ([main_call; head_call; found (head_ref ctx)], Ok PyTrue)
              else ([main_call; head_call], Ok PyNone)
          end
    end.
Proof.
  unfold _is_branch_directly_deployed.
  cbn [directly_deployed_loop]. unfold compare_commits, http, identical.
  destruct (repos_compare_commits api (MAIN_BRANCH_NAME ctx) DEPLOY_DEV_BRANCH)
    as [st1|]; [|reflexivity].
  cbn [bind tell ret raise app].
  destruct (Str.eqb st1 (py "identical")); [reflexivity|].
  destruct (repos_compare_commits api (head_ref ctx) DEPLOY_DEV_BRANCH)
    as [st2|]; [|reflexivity].
  cbn [bind tell ret raise app].
  destruct (Str.eqb st2 (py "identical")); reflexivity.
Qed.

(** X6: [_is_branch_directly_deployed] compares the main branch first and
    the head branch of the event only when the main branch was compared
    and is not identical.  It answers [True] exactly when one of them
    compared as identical, and [None] (never [False]) exactly when both
    were compared and neither is; the only exception is a failed call. *)
Theorem directly_deployed_characterised (ctx : Context) (api : GhApi) :
  (result (_is_branch_directly_deployed ctx api) = Ok PyTrue <->
     repos_compare_commits api (MAIN_BRANCH_NAME ctx) DEPLOY_DEV_BRANCH
     = Some identical
     \/ exists st,
          repos_compare_commits api (MAIN_BRANCH_NAME ctx) DEPLOY_DEV_BRANCH
          = Some st
          /\ st <> identical
          /\ repos_compare_commits api (head_ref ctx) DEPLOY_DEV_BRANCH
             = Some identical)
  /\ (result (_is_branch_directly_deployed ctx api) = Ok PyNone <->
      exists st1 st2,
        repos_compare_commits api (MAIN_BRANCH_NAME ctx) DEPLOY_DEV_BRANCH
        = Some st1
        /\ st1 <> identical
        /\ repos_compare_commits api (head_ref ctx) DEPLOY_DEV_BRANCH
           = Some st2
        /\ st2 <> identical)
  /\ (forall e, result (_is_branch_directly_deployed ctx api) = Raise e ->
        e = HTTPError)
  /\ (calls_of (trace (_is_branch_directly_deployed ctx api))
      = [CompareCommits (MAIN_BRANCH_NAME ctx) DEPLOY_DEV_BRANCH]
      \/ calls_of (trace (_is_branch_directly_deployed ctx api))
         = [CompareCommits (MAIN_BRANCH_NAME ctx) DEPLOY_DEV_BRANCH;
            CompareCommits (head_ref ctx) DEPLOY_DEV_BRANCH])
  /\ (calls_of (trace (_is_branch_directly_deployed ctx api))
      = [CompareCommits (MAIN_BRANCH_NAME ctx) DEPLOY_DEV_BRANCH]
      <-> repos_compare_commits api (MAIN_BRANCH_NAME ctx) DEPLOY_DEV_BRANCH
          = None
          \/ repos_compare_commits api (MAIN_BRANCH_NAME ctx)
               DEPLOY_DEV_BRANCH = Some identical).
Proof.
  rewrite directly_deployed_run.
  destruct (repos_compare_commits api (MAIN_BRANCH_NAME ctx) DEPLOY_DEV_BRANCH)
    as [st1|] eqn:C1.
  - destruct (Str.eqb st1 identical) eqn:E1.
    + apply str_eqb_eq in E1. subst st1.
      cbn [result trace fst snd calls_of flat_map app]. cases_finish.
    + apply str_eqb_neq in E1.
      destruct (repos_compare_commits api (head_ref ctx) DEPLOY_DEV_BRANCH)
        as [st2|] eqn:C2.
      * destruct (Str.eqb st2 identical) eqn:E2.
        -- apply str_eqb_eq in E2. subst st2.
           cbn [result trace fst snd calls_of flat_map app]. cases_finish.
        -- apply str_eqb_neq in E2.
           cbn [result trace fst snd calls_of flat_map app]. cases_finish.
      * cbn [result trace fst snd calls_of flat_map app]. cases_finish.
  - cbn [result trace fst snd calls_of flat_map app]. cases_finish.
Qed.

(** ** The order of the candidates of the safety check *)

(** X7: in the loop of [check_safe_to_deploy] the note of the event's head
    is tried before the note of the main branch.  With a deploy branch last
    updated by a bot: when the message ends with the head's note, the
    answer is true whether or not the note of the main tip can be
    computed; when the head's note cannot be computed the check raises,
    whatever the note of the main tip; and when the head's note does not
    match, the answer (or the exception) is that of the main tip's note. *)
Theorem check_safe_head_candidate_first (ctx : Context) (api : GhApi)
    (deploy main : Commit) :
  event_name ctx = py "pull_request" ->
  result (_is_branch_directly_deployed ctx api) = Ok PyNone ->
  result (get_last_commit api DEPLOY_DEV_BRANCH) = Ok deploy ->
  result (get_last_commit api (MAIN_BRANCH_NAME ctx)) = Ok main ->
  In (email (committer deploy)) BOT_EMAILS ->
  (forall note_head,
     result (get_deploy_note ctx api None) = Ok note_head ->
     endswith (message deploy) note_head = true ->
     result (check_safe_to_deploy ctx api) = Ok true)
  /\ (forall e,
        result (get_deploy_note ctx api None) = Raise e ->
        result (check_safe_to_deploy ctx api) = Raise e)
  /\ (forall note_head,
        result (get_deploy_note ctx api None) = Ok note_head ->
        endswith (message deploy) note_head = false ->
        result (check_safe_to_deploy ctx api)
        = match result (get_deploy_note ctx api (Some main)) with
          | Ok note_main => Ok (endswith (message deploy) note_main)
          | Raise e => Raise e
          end).
Proof.
  intros Hev Hd Hdeploy Hmain Hbot.
  rewrite (result_check_safe_loop ctx api deploy main Hev Hd Hdeploy Hmain).
  apply contains_In in Hbot. cbn [safe_loop]. rewrite Hbot. cbn [negb].
  split; [|split].
  - intros note_head Hn He. rewrite (result_bind_ok _ _ _ Hn), He.
    reflexivity.
  - intros e Hn. now rewrite (result_bind_raise _ _ _ Hn).
  - intros note_head Hn He. rewrite (result_bind_ok _ _ _ Hn), He.
    destruct (get_deploy_note ctx api (Some main)) as [t [n|e]];
      cbn; [|reflexivity].
    now destruct (endswith (message deploy) n).
Qed.

(** The theorem at the sample pull request whose note the bot recorded on
    the deploy branch. *)
Lemma check_safe_head_candidate_first_witness :
  result (check_safe_to_deploy Sample.fix_context
            (Sample.host Sample.deploy_tip_noted)) = Ok true.
Proof.
  destruct (check_safe_head_candidate_first
              Sample.fix_context (Sample.host Sample.deploy_tip_noted)
              Sample.deploy_tip_noted Sample.main_tip) as [H _].
  - reflexivity.
  - vm_compute. reflexivity.
  - vm_compute. reflexivity.
  - vm_compute. reflexivity.
  - cbn. left. reflexivity.
  - apply (H Sample.pr_note); vm_compute; reflexivity.
Defined.

Example safety_check_raises_on_empty_title :
  result (check_safe_to_deploy
            (Sample.pr_context [] false Sample.p1)
            (Sample.host Sample.deploy_tip_noted))
  = Raise IndexError
  /\ result (check_safe_to_deploy
               (Sample.pr_context [] false Sample.p1) Sample.plain_host)
     = Ok false.
Proof. vm_compute. split; reflexivity. Qed.

(** ** The entry point on every run *)

Lemma no_exit_bind {A B} (m : M A) (f : A -> M B) :
  no_exit m -> (forall a, no_exit (f a)) -> no_exit (bind m f).
Proof.
  unfold no_exit. intros Hm Hf n. destruct m as [t [a|e]]; cbn in *.
  - specialize (Hf a n). destruct (f a) as [t' r]. exact Hf.
  - intros H. apply (Hm n). inversion H. reflexivity.
Qed.

Lemma no_exit_ret {A} (a : A) : no_exit (ret a).
Proof. intros n. discriminate. Qed.

Lemma no_exit_print (line : pystr) : no_exit (print line).
Proof. intros n. discriminate. Qed.

Lemma no_exit_attr {A} (field : option A) : no_exit (attr field).
Proof. intros n. destruct field; discriminate. Qed.

Lemma no_exit_item0 {A} (l : list A) : no_exit (item0 l).
Proof. intros n. destruct l; discriminate. Qed.

Lemma no_exit_http {A} (c : api_call) (answer : option A) :
  no_exit (http c answer).
Proof. intros n. destruct answer; discriminate. Qed.

Create HintDb no_exit.
#[local] Hint Resolve no_exit_ret no_exit_print no_exit_attr no_exit_item0
  no_exit_http : no_exit.

Ltac no_exits :=
  repeat first
    [ solve [auto with no_exit]
    | apply no_exit_bind; [|intros]
    | match goal with
      | |- no_exit (if ?b then _ else _) => destruct b
      | |- no_exit (match ?x with _ => _ end) => destruct x
      end ].

Lemma no_exit_extract_title (text : pystr) : no_exit (_extract_title text).
Proof. unfold _extract_title. no_exits. Qed.

Lemma no_exit_get_current_commit (ctx : Context) (api : GhApi) :
  no_exit (get_current_commit ctx api).
Proof. unfold get_current_commit, get_commit. no_exits. Qed.

#[local] Hint Resolve no_exit_extract_title no_exit_get_current_commit
  : no_exit.

Lemma no_exit_get_deploy_note (ctx : Context) (api : GhApi)
    (commit : option Commit) :
  no_exit (get_deploy_note ctx api commit).
Proof. unfold get_deploy_note. no_exits. Qed.

Lemma no_exit_is_human_commit (ctx : Context) (api : GhApi) :
  no_exit (_is_human_commit ctx api).
Proof.
  unfold _is_human_commit. apply no_exit_bind; [auto with no_exit|].
  intros c. apply no_exit_bind.
  - destruct (1 <? length (parents c)); [|auto with no_exit].
    induction (parents c) as [|s shas IH]; cbn [comprehension];
      [auto with no_exit|].
    unfold get_commit at 1. no_exits.
  - intros cs. rewrite human_loop_forallb. intros n. discriminate.
Qed.

#[local] Hint Resolve no_exit_get_deploy_note no_exit_is_human_commit
  : no_exit.

Lemma no_exit_check_deploy_required (ctx : Context) (api : GhApi) :
  no_exit (check_deploy_required ctx api).
Proof. unfold check_deploy_required. no_exits. Qed.

Lemma no_exit_safe_loop (ctx : Context) (api : GhApi) (deploy : Commit)
    (candidates : list (pystr * option Commit)) :
  no_exit (safe_loop ctx api deploy candidates).
Proof.
  induction candidates as [|[name c] rest IH]; cbn [safe_loop]; no_exits.
Qed.

Lemma no_exit_directly_deployed_loop (api : GhApi) (branches : list pystr) :
  no_exit (directly_deployed_loop api branches).
Proof.
  induction branches as [|b rest IH]; cbn [directly_deployed_loop];
    unfold compare_commits; no_exits.
Qed.

#[local] Hint Resolve no_exit_safe_loop no_exit_directly_deployed_loop
  : no_exit.

Lemma no_exit_check_safe_to_deploy (ctx : Context) (api : GhApi) :
  no_exit (check_safe_to_deploy ctx api).
Proof.
  unfold check_safe_to_deploy, _is_branch_directly_deployed, get_last_commit,
    get_ref, get_commit.
  no_exits.
Qed.

(** The run of the entry point, whatever happens. *)
Lemma main_cases (ctx : Context) (api : GhApi) :
  main ctx api
  = let start := [SetGitUser] ++ trace (get_deploy_note ctx api None) in
    match result (get_deploy_note ctx api None) with
    | Raise e => (start, Raise e)
    | Ok note =>
        let noted :=
          start ++ [Output (py "note_raw") note;
                    Output (py "note_clean") (Shlex.quote note)]
          ++ trace (check_deploy_required ctx api) in
        match result (check_deploy_required ctx api) with
        | Raise e => (noted, Raise e)
        | Ok required =>
            let confirmed :=
              noted ++ [Output (py "confirm") (bool_lower required)] in
            if required then
              let checked :=
                confirmed ++ trace (check_safe_to_deploy ctx api) in
              match result (check_safe_to_deploy ctx api) with
              | Raise e => (checked, Raise e)
              | Ok true => (checked, Ok tt)
              | Ok false =>
                  (checked ++ [Error (unsafe_message ctx)],
                   Raise (SystemExit 1))
              end
            else (confirmed, Ok tt)
        end
    end.
Proof.
  unfold main.
  destruct (get_deploy_note ctx api None) as [t1 [note|e]];
    [|reflexivity].
  destruct (check_deploy_required ctx api) as [t2 [required|e]].
  - destruct required.
    + destruct (check_safe_to_deploy ctx api) as [t3 [[|]|e]];
        cbn; rewrite ?app_nil_r, <- ?app_assoc; reflexivity.
    + cbn. rewrite ?app_nil_r, <- ?app_assoc. reflexivity.
  - cbn. rewrite ?app_nil_r, <- ?app_assoc. reflexivity.
Qed.

Lemma trace_pair {A} (t : list effect) (r : Result A) : trace (t, r) = t.
Proof. reflexivity. Qed.

Lemma result_pair {A} (t : list effect) (r : Result A) : result (t, r) = r.
Proof. reflexivity. Qed.

Ltac quiet_traces ctx api :=
  repeat (rewrite ?trace_pair, ?result_pair; cbv beta iota zeta);
  rewrite ?outputs_of_app, ?errors_of_app, ?calls_of_app;
  rewrite ?(outputs_of_silent _ (silent_get_deploy_note ctx api None)),
    ?(errors_of_silent _ (silent_get_deploy_note ctx api None)),
    ?(outputs_of_silent _ (silent_check_deploy_required ctx api)),
    ?(errors_of_silent _ (silent_check_deploy_required ctx api)),
    ?(outputs_of_silent _ (silent_check_safe_to_deploy ctx api)),
    ?(errors_of_silent _ (silent_check_safe_to_deploy ctx api));
  cbn [outputs_of errors_of calls_of flat_map app].

(** X8: on every run, also one stopped by an exception, the outputs are
    written in the order note_raw, note_clean, confirm and none is written
    twice: nothing is written when the note cannot be computed; note_raw
    and note_clean only, when [check_deploy_required] raises; all three
    otherwise, also when the safety check raises afterwards.  The value of
    note_clean is always the quoted form of that of note_raw. *)
Theorem main_outputs_on_every_run (ctx : Context) (api : GhApi) :
  match result (get_deploy_note ctx api None) with
  | Raise e =>
      result (main ctx api) = Raise e
      /\ outputs_of (trace (main ctx api)) = []
  | Ok note =>
      match result (check_deploy_required ctx api) with
      | Raise e =>
          result (main ctx api) = Raise e
          /\ outputs_of (trace (main ctx api))
             = [(py "note_raw", note); (py "note_clean", Shlex.quote note)]
      | Ok required =>
          outputs_of (trace (main ctx api))
          = [(py "note_raw", note); (py "note_clean", Shlex.quote note);
             (py "confirm", bool_lower required)]
          /\ (required = true ->
              forall e, result (check_safe_to_deploy ctx api) = Raise e ->
                        result (main ctx api) = Raise e)
      end
  end.
Proof.
  rewrite main_cases. cbv zeta.
  destruct (result (get_deploy_note ctx api None)) as [note|e].
  { destruct (result (check_deploy_required ctx api)) as [required|e].
    - destruct required.
      + destruct (result (check_safe_to_deploy ctx api)) as [[|]|e];
          quiet_traces ctx api; (split; [reflexivity|]);
          intros _ e' He'; congruence.
      + quiet_traces ctx api. split; [reflexivity | discriminate].
    - quiet_traces ctx api. split; reflexivity. }
  quiet_traces ctx api. split; reflexivity.
Qed.

(** X9: on every run the entry point reports an error exactly when it ends
    with [exit(1)], which happens exactly when the deploy is required and
    [check_safe_to_deploy] answers false; the error is then the message
    naming the deploy branch and the current ref.  No other [exit] occurs,
    so the exit status is 0, exactly when the run ends normally, or 1. *)
Theorem main_exit_on_every_run (ctx : Context) (api : GhApi) :
  (errors_of (trace (main ctx api)) = []
   \/ errors_of (trace (main ctx api)) = [unsafe_message ctx])
  /\ (errors_of (trace (main ctx api)) <> [] <->
      result (main ctx api) = Raise (SystemExit 1))
  /\ (forall n, result (main ctx api) = Raise (SystemExit n) <->
        n = 1%N
        /\ (exists note, result (get_deploy_note ctx api None) = Ok note)
        /\ result (check_deploy_required ctx api) = Ok true
        /\ result (check_safe_to_deploy ctx api) = Ok false)
  /\ (exit_status (result (main ctx api)) = 0%N <->
      result (main ctx api) = Ok tt)
  /\ (exit_status (result (main ctx api)) = 0%N
      \/ exit_status (result (main ctx api)) = 1%N).
Proof.
  pose proof (no_exit_get_deploy_note ctx api None) as N1.
  pose proof (no_exit_check_deploy_required ctx api) as N2.
  pose proof (no_exit_check_safe_to_deploy ctx api) as N3.
  unfold no_exit in N1, N2, N3.
  rewrite main_cases. cbv zeta.
  destruct (result (get_deploy_note ctx api None)) as [note|e1].
  { destruct (result (check_deploy_required ctx api)) as [required|e2].
    - destruct required.
      + destruct (result (check_safe_to_deploy ctx api)) as [[|]|e3];
          quiet_traces ctx api.
        * cbn [exit_status]. cases_finish.
        * cbn [exit_status]. cases_finish.
        * assert (He : forall n, e3 <> SystemExit n)
            by (intros n H; apply (N3 n); now subst).
          destruct e3; cbn [exit_status]; cases_finish;
            exfalso; eapply He; reflexivity.
      + quiet_traces ctx api. cbn [exit_status]. cases_finish.
    - assert (He : forall n, e2 <> SystemExit n)
        by (intros n H; apply (N2 n); now subst).
      quiet_traces ctx api.
      destruct e2; cbn [exit_status]; cases_finish;
        exfalso; eapply He; reflexivity. }
  assert (He : forall n, e1 <> SystemExit n)
    by (intros n H; apply (N1 n); now subst).
  quiet_traces ctx api.
  destruct e1; cbn [exit_status]; cases_finish;
    exfalso; eapply He; reflexivity.
Qed.

(** ** Events that cannot be blocked *)

Lemma check_safe_not_pull_request (ctx : Context) (api : GhApi) :
  event_name ctx <> py "pull_request" ->
  check_safe_to_deploy ctx api
  = ([Print (py "Not a PR, assume it is safe to deploy.")], Ok true).
Proof.
  intros Hev. unfold check_safe_to_deploy.
  apply str_eqb_neq in Hev. now rewrite Hev.
Qed.

(** X10: an event that is not a pull request is never blocked: whatever
    the host answers, the entry point reports no error and does not end
    with [exit]; and when the note and the deploy-required flag are
    computed, it ends normally, with status 0, without any comparison of
    branches. *)
Theorem not_pull_request_never_blocked (ctx : Context) (api : GhApi) :
  event_name ctx <> py "pull_request" ->
  errors_of (trace (main ctx api)) = []
  /\ (forall n, result (main ctx api) <> Raise (SystemExit n))
  /\ (forall note required,
        result (get_deploy_note ctx api None) = Ok note ->
        result (check_deploy_required ctx api) = Ok required ->
        result (main ctx api) = Ok tt
        /\ exit_status (result (main ctx api)) = 0%N
        /\ calls_of (trace (main ctx api))
           = calls_of (trace (get_deploy_note ctx api None))
             ++ calls_of (trace (check_deploy_required ctx api))).
Proof.
  intros Hev.
  pose proof (no_exit_get_deploy_note ctx api None) as N1.
  pose proof (no_exit_check_deploy_required ctx api) as N2.
  unfold no_exit in N1, N2.
  rewrite main_cases. cbv zeta.
  rewrite (check_safe_not_pull_request ctx api Hev).
  destruct (result (get_deploy_note ctx api None)) as [note|e1].
  { destruct (result (check_deploy_required ctx api)) as [required|e2].
    - destruct required; quiet_traces ctx api;
        cbn [exit_status]; rewrite ?app_nil_r; cases_finish.
    - quiet_traces ctx api. split; [reflexivity|]. split.
      + intros n H. inversion H; subst. exact (N2 n eq_refl).
      + intros note' required' _ H. discriminate H. }
  quiet_traces ctx api. split; [reflexivity|]. split.
  - intros n H. inversion H; subst. exact (N1 n eq_refl).
  - intros note' required' H. discriminate H.
Qed.

(** The theorem at the sample push. *)
Lemma not_pull_request_never_blocked_witness :
  errors_of (trace (main (Sample.push_context Sample.p1) Sample.offline_host))
  = []
  /\ result (main (Sample.push_context Sample.p1) Sample.offline_host)
     = Ok tt.
Proof.
  destruct (not_pull_request_never_blocked
              (Sample.push_context Sample.p1) Sample.offline_host)
    as [He [_ H]].
  - intros H. vm_compute in H. discriminate H.
  - split; [exact He|].
    apply (H (py "Commit: Add retry logic https://host/commit/a1") true);
      reflexivity.
Defined.

(** X11: a push is served from its payload alone.  With a head commit in
    the payload whose message has a title, the run writes the commit note,
    confirms the deploy and ends normally, the same on every host and
    without a call to it; a payload without head commit raises
    AttributeError before any output. *)
Theorem push_run (ctx : Context) (api : GhApi) :
  event_name ctx = py "push" ->
  (forall c t,
     head_commit (event ctx) = Some c ->
     result (_extract_title (message c)) = Ok t ->
     main ctx api
     = ([SetGitUser;
         Output (py "note_raw")
           (py "Commit: " ++ t ++ py " " ++ commit_link c);
         Output (py "note_clean")
           (Shlex.quote (py "Commit: " ++ t ++ py " " ++ commit_link c));
         Print (py "Not a PR, enable the release.");
         Output (py "confirm") (py "true");
         Print (py "Not a PR, assume it is safe to deploy.")],
        Ok tt))
  /\ (head_commit (event ctx) = None ->
      main ctx api = ([SetGitUser], Raise AttributeError))
  /\ calls_of (trace (main ctx api)) = [].
Proof.
  intros Hev.
  assert (Hnote : get_deploy_note ctx api None
                  = match head_commit (event ctx) with
                    | None => ([], Raise AttributeError)
                    | Some c =>
                        match result (_extract_title (message c)) with
                        | Ok t => ([], Ok (py "Commit: " ++ t ++ py " "
                                           ++ commit_link c))
                        | Raise e => ([], Raise e)
                        end
                    end).
  { unfold get_deploy_note, get_current_commit. rewrite Hev.
    change (Str.eqb (py "push") (py "pull_request")) with false.
    change (Str.eqb (py "push") (py "push")) with true.
    cbn [andb].
    destruct (head_commit (event ctx)) as [c|]; [|reflexivity].
    cbn [attr bind ret].
    pose proof (trace_extract_title (message c)) as Ht.
    destruct (_extract_title (message c)) as [tr [t|e]]; cbn in *;
      now subst. }
  assert (Hreq : check_deploy_required ctx api
                 = ([Print (py "Not a PR, enable the release.")], Ok true)).
  { unfold check_deploy_required. rewrite Hev. reflexivity. }
  assert (Hsafe : check_safe_to_deploy ctx api
                  = ([Print (py "Not a PR, assume it is safe to deploy.")],
                     Ok true)).
  { apply check_safe_not_pull_request. rewrite Hev. discriminate. }
  rewrite main_cases, Hnote, Hreq, Hsafe. cbv zeta.
  split; [|split].
  - intros c t Hc Ht. rewrite Hc, Ht. reflexivity.
  - intros Hc. rewrite Hc. reflexivity.
  - destruct (head_commit (event ctx)) as [c|]; [|reflexivity].
    destruct (result (_extract_title (message c))); reflexivity.
Qed.

(** The theorem at the sample push, on a host that answers no call. *)
Lemma push_run_witness :
  calls_of (trace (main (Sample.push_context Sample.p1) Sample.offline_host))
  = []
  /\ result (main (Sample.push_context Sample.p1) Sample.offline_host)
     = Ok tt.
Proof.
  destruct (push_run (Sample.push_context Sample.p1) Sample.offline_host
              eq_refl) as [H [_ Hc]].
  split; [exact Hc|].
  rewrite (H Sample.p1 (py "Add retry logic") eq_refl eq_refl).
  reflexivity.
Defined.

(** X12: a draft pull request, and one whose title matches the auxiliary
    pattern, is never blocked and costs no call to the host: when its title
    has a first line, the run writes the note of the pull request, confirm
    = false, and ends normally, whatever the state of the deploy branch. *)
Theorem skipped_pull_request_run (ctx : Context) (api : GhApi)
    (pr : PullRequest) (t : pystr) :
  event_name ctx = py "pull_request" ->
  pull_request (event ctx) = Some pr ->
  result (_extract_title (title pr)) = Ok t ->
  draft pr = true \/ re_match AUX_PR_PATTERN (title pr) = true ->
  main ctx api
  = ([SetGitUser;
      Output (py "note_raw") (py "PR: " ++ t ++ py " " ++ html_href pr);
      Output (py "note_clean")
        (Shlex.quote (py "PR: " ++ t ++ py " " ++ html_href pr));
      Print (if draft pr then py "Skip release for a draft PR."
             else py "Skip release for a PR prefixed with `Aux:`.");
      Output (py "confirm") (py "false")],
     Ok tt)
  /\ calls_of (trace (main ctx api)) = [].
Proof.
  intros Hev Hpr Ht Hskip.
  assert (Hnote : get_deploy_note ctx api None
                  = ([], Ok (py "PR: " ++ t ++ py " " ++ html_href pr))).
  { unfold get_deploy_note. rewrite Hev, Hpr.
    change (Str.eqb (py "pull_request") (py "pull_request")) with true.
    cbn [andb not_commit attr bind ret].
    pose proof (trace_extract_title (title pr)) as Htr.
    destruct (_extract_title (title pr)) as [tr [t'|e]]; cbn in *;
      [|discriminate].
    inversion Ht. now subst. }
  assert (Hreq : check_deploy_required ctx api
                 = ([Print (if draft pr
                            then py "Skip release for a draft PR."
                            else py "Skip release for a PR prefixed with `Aux:`.")],
                    Ok false)).
  { unfold check_deploy_required. event_is Hev. rewrite Hpr.
    cbn [attr bind ret app].
    destruct (draft pr); [reflexivity|].
    destruct Hskip as [H|H]; [discriminate|]. now rewrite H. }
  rewrite main_cases, Hnote, Hreq. cbv zeta. split; reflexivity.
Qed.

(** The theorem at a sample draft, on a host that answers no call. *)
Lemma skipped_pull_request_run_witness :
  result (main (Sample.pr_context (py "Fix bug #42") true Sample.p1)
            Sample.offline_host) = Ok tt
  /\ calls_of (trace (main (Sample.pr_context (py "Fix bug #42") true Sample.p1)
                        Sample.offline_host)) = [].
Proof.
  destruct (skipped_pull_request_run
              (Sample.pr_context (py "Fix bug #42") true Sample.p1)
              Sample.offline_host
              {| title := py "Fix bug #42"; draft := true;
                 html_href := py "https://host/pr/42" |}
              (py "Fix bug #42") eq_refl eq_refl eq_refl
              (or_introl eq_refl)) as [H Hc].
  split; [|exact Hc]. rewrite H. reflexivity.
Defined.

(** ** The current ref *)

Lemma existsb_eqb_In (sep : N) (s : pystr) :
  existsb (N.eqb sep) s = true <-> In sep s.
Proof.
  rewrite existsb_exists. split.
  - intros [x [Hx E]]. apply N.eqb_eq in E. now subst.
  - intros H. exists sep. split; [exact H | apply N.eqb_refl].
Qed.

Lemma rsplit1_last_spec (sep : N) (s : pystr) :
  ~ In sep (rsplit1_last sep s)
  /\ ((~ In sep s /\ rsplit1_last sep s = s)
      \/ exists before, s = before ++ sep :: rsplit1_last sep s).
Proof.
  induction s as [|c rest [IHn IHs]]; cbn [rsplit1_last].
  - split; [intros [] | left; split; [intros [] | reflexivity]].
  - destruct (existsb (N.eqb sep) rest) eqn:E.
    + apply existsb_eqb_In in E. split; [exact IHn|]. right.
      destruct IHs as [[Hno _] | [before Hb]]; [contradiction|].
      exists (c :: before). cbn. now rewrite <- Hb.
    + assert (Hrest : ~ In sep rest).
      { intros H. apply existsb_eqb_In in H. congruence. }
      destruct (c =? sep)%N eqn:Ec.
      * apply N.eqb_eq in Ec. subst c. split; [exact Hrest|].
        right. now exists [].
      * apply N.eqb_neq in Ec. split.
        -- intros [H|H]; [congruence | contradiction].
        -- left. split; [|reflexivity].
           intros [H|H]; [congruence | contradiction].
Qed.

Lemma last_segment_unique (sep : N) (b1 b2 l1 l2 : pystr) :
  b1 ++ sep :: l1 = b2 ++ sep :: l2 ->
  ~ In sep l1 -> ~ In sep l2 -> l1 = l2.
Proof.
  revert b2. induction b1 as [|x b1 IH]; intros [|y b2] H H1 H2;
    cbn in H; inversion H; subst.
  - reflexivity.
  - exfalso. apply H1. apply in_or_app. right. now left.
  - exfalso. apply H2. apply in_or_app. right. now left.
  - now apply (IH b2).
Qed.

(** X13: [CURRENT_REF] is the head ref of the event when there is one;
    otherwise it is the last segment of the ref: it contains no slash, and
    the ref is either that segment alone or ends with a slash and that
    segment.  So for a ref such as [refs/heads/feature/x] the current ref
    is [x], not [feature/x]. *)
Theorem current_ref_is_last_segment (ctx : Context) :
  (head_ref ctx <> [] -> CURRENT_REF ctx = head_ref ctx)
  /\ (head_ref ctx = [] ->
      ~ In 47%N (CURRENT_REF ctx)
      /\ ((~ In 47%N (ref ctx) /\ CURRENT_REF ctx = ref ctx)
          \/ exists before, ref ctx = before ++ 47%N :: CURRENT_REF ctx))
  /\ (forall before segment : pystr,
        head_ref ctx = [] ->
        ref ctx = before ++ 47%N :: segment ->
        ~ In 47%N segment ->
        CURRENT_REF ctx = segment).
Proof.
  unfold CURRENT_REF. split; [|split].
  - destruct (head_ref ctx); congruence.
  - intros ->. apply rsplit1_last_spec.
  - intros before segment -> Href Hseg.
    destruct (rsplit1_last_spec 47%N (ref ctx)) as [Hn [[Hno _] | [b Hb]]].
    + exfalso. apply Hno. rewrite Href. apply in_or_app. right. now left.
    + rewrite Href in Hb at 1.
      symmetry. apply (last_segment_unique 47%N _ _ _ _ Hb Hseg Hn).
Qed.

Example current_ref_of_nested_branch :
  CURRENT_REF {| event_name := py "push"; event := Sample.pr_event [] false;
                 ctx_sha := py "a1"; head_ref := [];
                 ref := py "refs/heads/feature/x" |}
  = py "x".
Proof. reflexivity. Qed.

(** The theorem at a tag ref and at the head ref of a pull request. *)
Lemma current_ref_is_last_segment_witness :
  CURRENT_REF (Sample.release_context (py "v1.2.3")) = py "v1.2.3"
  /\ CURRENT_REF Sample.fix_context = py "feature".
Proof.
  split.
  - apply (current_ref_is_last_segment (Sample.release_context (py "v1.2.3")))
      with (before := py "refs/tags").
    + reflexivity.
    + reflexivity.
    + intros H. cbn in H. intuition discriminate.
  - apply (current_ref_is_last_segment Sample.fix_context). discriminate.
Defined.

(** ** Merges whose parents cannot all be read *)

Lemma comprehension_get_commit_fails (api : GhApi) (shas : list pystr) :
  (exists s, In s shas /\ git_get_commit api s = None) ->
  result (comprehension (get_commit api) shas) = Raise HTTPError.
Proof.
  induction shas as [|s shas IH]; intros [x [Hin Hx]]; [destruct Hin|].
  cbn [comprehension]. unfold get_commit at 1, http.
  destruct (git_get_commit api s) as [c|] eqn:E; [|reflexivity].
  cbn [bind tell ret app].
  destruct Hin as [->|Hin]; [congruence|].
  assert (Hr : result (comprehension (get_commit api) shas) = Raise HTTPError)
    by (apply IH; now exists x).
  destruct (comprehension (get_commit api) shas) as [t [cs|e]];
    cbn in *; congruence.
Qed.

(** X14: a merge commit is classified only after all its parents were
    read: when the read of one parent fails, [_is_human_commit] raises
    HTTPError, whatever the other parents are (also when an earlier parent
    is a version bump of the bot), and so does [check_deploy_required] on a
    pull request that is neither a draft nor auxiliary. *)
Theorem merge_with_unreadable_parent_raises (ctx : Context) (api : GhApi)
    (c : Commit) (s : pystr) :
  result (get_current_commit ctx api) = Ok c ->
  1 < length (parents c) ->
  In s (parents c) ->
  git_get_commit api s = None ->
  result (_is_human_commit ctx api) = Raise HTTPError
  /\ (forall pr,
        event_name ctx = py "pull_request" ->
        pull_request (event ctx) = Some pr ->
        draft pr = false ->
        re_match AUX_PR_PATTERN (title pr) = false ->
        result (check_deploy_required ctx api) = Raise HTTPError).
Proof.
  intros Hc Hp Hin Hs.
  assert (Hh : result (_is_human_commit ctx api) = Raise HTTPError).
  { unfold _is_human_commit. rewrite (result_bind_ok _ _ _ Hc).
    rewrite (proj2 (Nat.ltb_lt _ _) Hp).
    apply result_bind_raise. apply comprehension_get_commit_fails.
    now exists s. }
  split; [exact Hh|].
  intros pr Hev Hpr Hd Ha.
  rewrite (check_deploy_required_classifies ctx api pr Hev Hpr Hd Ha).
  exact Hh.
Qed.

(** The theorem at the sample merge, on a host where its second parent
    cannot be read. *)
Lemma merge_with_unreadable_parent_raises_witness :
  result (_is_human_commit Sample.merge_context Scenario.unreadable_host)
  = Raise HTTPError.
Proof.
  apply (merge_with_unreadable_parent_raises
           Sample.merge_context Scenario.unreadable_host
           Sample.merge12 (py "b2")).
  - vm_compute. reflexivity.
  - cbn. lia.
  - cbn. right. left. reflexivity.
  - reflexivity.
Defined.

(** ** The version-bump pattern *)

Lemma matches_lits (w s : pystr) :
  matches false (lits w) s <-> s = w.
Proof.
  revert s. induction w as [|a w IH]; intros s; cbn [lits fold_right].
  - split; [intros H; now inversion H | intros ->; constructor].
  - fold (lits w). split.
    + intros H. apply matches_cat_inv in H.
      destruct H as [s1 [s2 [-> [Ha Hw]]]].
      apply matches_lit_inv in Ha. destruct Ha as [c [-> Hc]].
      unfold lit_accepts in Hc. apply N.eqb_eq in Hc. subst c.
      apply IH in Hw. now subst.
    + intros ->. change (a :: w) with ([a] ++ w).
      constructor; [constructor; apply N.eqb_refl | now apply IH].
Qed.

Lemma matches_dot_inv (ic : bool) (s : pystr) :
  matches ic Dot s -> exists c, s = [c] /\ c <> LF.
Proof.
  intros H. inversion H; subst. exists c. split; [reflexivity|].
  unfold dot_accepts in *. intros ->. discriminate.
Qed.

Lemma matches_star_dot (ic : bool) (s : pystr) :
  matches ic (Star Dot) s <-> ~ In LF s.
Proof.
  split.
  - intros H. remember (Star Dot) as r eqn:Hr.
    induction H; inversion Hr; subst; [intros []|].
    apply matches_dot_inv in H. destruct H as [c [-> Hc]].
    cbn. intros [E|E]; [congruence | now apply IHmatches2].
  - induction s as [|c s IH]; intros H; [constructor|].
    change (c :: s) with ([c] ++ s). constructor.
    + constructor. unfold dot_accepts. apply negb_true_iff, N.eqb_neq.
      intros ->. apply H. now left.
    + apply IH. intros Hin. apply H. now right.
Qed.

(** X15: a message matches the version-bump pattern exactly when it begins
    with [Automatically set version V of image I in kustomization], one
    more character, and [yaml], where V and I hold no line feed and the
    character before [yaml], a dot in the intended messages, is any
    character but a line feed; what follows [yaml] is free.  A message in
    which this text comes later does not match. *)
Theorem auto_pattern_match_iff (m : pystr) :
  re_match AUTO_PR_PATTERN m = true <->
  exists (version image : pystr) (c : N) (rest : pystr),
    m = py "Automatically set version " ++ version ++ py " of image "
        ++ image ++ py " in kustomization" ++ [c] ++ py "yaml" ++ rest
    /\ ~ In LF version /\ ~ In LF image /\ c <> LF.
Proof.
  rewrite re_match_iff. split.
  - intros [p [tail [-> H]]]. apply re_fullmatch_iff in H.
    unfold AUTO_PR_PATTERN in H. cbn [expr ignorecase seq fold_right] in H.
    apply matches_cat_inv in H. destruct H as [l1 [s1 [-> [H1 H]]]].
    apply matches_lits in H1. subst l1.
    apply matches_cat_inv in H. destruct H as [version [s2 [-> [Hv H]]]].
    apply matches_star_dot in Hv.
    apply matches_cat_inv in H. destruct H as [l2 [s3 [-> [H2 H]]]].
    apply matches_lits in H2. subst l2.
    apply matches_cat_inv in H. destruct H as [image [s4 [-> [Hi H]]]].
    apply matches_star_dot in Hi.
    apply matches_cat_inv in H. destruct H as [l3 [s5 [-> [H3 H]]]].
    apply matches_lits in H3. subst l3.
    apply matches_cat_inv in H. destruct H as [d [s6 [-> [Hd H]]]].
    apply matches_dot_inv in Hd. destruct Hd as [c [-> Hc]].
    apply matches_cat_inv in H. destruct H as [l4 [s7 [-> [H4 H]]]].
    apply matches_lits in H4. subst l4.
    exists version, image, c, (s7 ++ tail).
    split; [|auto]. now rewrite <- !app_assoc.
  - intros [version [image [c [rest [-> [Hv [Hi Hc]]]]]]].
    exists (py "Automatically set version " ++ version ++ py " of image "
            ++ image ++ py " in kustomization" ++ [c] ++ py "yaml" ++ []
            ++ []), rest.
    split; [now rewrite <- !app_assoc|].
    apply re_fullmatch_iff.
    unfold AUTO_PR_PATTERN. cbn [expr ignorecase seq fold_right].
    constructor; [now apply matches_lits|].
    constructor; [now apply matches_star_dot|].
    constructor; [now apply matches_lits|].
    constructor; [now apply matches_star_dot|].
    constructor; [now apply matches_lits|].
    constructor.
    { constructor. unfold dot_accepts. now apply negb_true_iff, N.eqb_neq. }
    constructor; [now apply matches_lits|].
    constructor; constructor.
Qed.

Example bump_with_other_separator :
  re_match AUTO_PR_PATTERN
    (py "Automatically set version 1 of image web in kustomization/yaml")
  = true.
Proof. vm_compute. reflexivity. Qed.

(** ** cleanup.py *)

Import Maintenance.

Lemma item_last_split (branch : pystr) :
  item_last (split1 (py "/") branch) = Ok (after_first_slash branch).
Proof.
  unfold item_last, split1, after_first_slash.
  destruct (find_sep (py "/") branch) as [[b a]|]; reflexivity.
Qed.

Lemma after_first_slash_segment (segment rest : pystr) :
  ~ In 47%N segment ->
  after_first_slash (segment ++ py "/" ++ rest) = rest.
Proof.
  unfold after_first_slash. intros Hs.
  assert (H : find_sep (py "/") (segment ++ py "/" ++ rest)
              = Some (segment, rest)).
  { induction segment as [|x segment IH].
    - rewrite find_sep_eq.
      assert (E : startswith ([] ++ py "/" ++ rest) (py "/") = true)
        by (apply startswith_iff; now exists rest).
      rewrite E. reflexivity.
    - rewrite find_sep_eq.
      assert (E : startswith ((x :: segment) ++ py "/" ++ rest) (py "/")
                  = false).
      { apply not_true_iff_false. intros H. apply startswith_iff in H.
        destruct H as [r H]. inversion H. subst x. apply Hs. now left. }
      rewrite E. cbn [app]. rewrite IH; [reflexivity|].
      intros Hin. apply Hs. now right. }
  now rewrite H.
Qed.

(** A reference named [refs/...] is deleted under its name without
    [refs/]. *)
Lemma after_first_slash_refs (name : pystr) :
  after_first_slash (py "refs/" ++ name) = name.
Proof.
  apply (after_first_slash_segment (py "refs") name).
  cbn. intuition discriminate.
Qed.

Lemma In_firstn {A} (k : nat) (l : list A) (x : A) :
  In x (firstn k l) -> In x l.
Proof.
  revert l. induction k as [|k IH]; intros [|y l] H; cbn in *; try tauto.
  destruct H as [H|H]; [now left | right; now apply IH].
Qed.

Section Cleanup.

Variable Store : Type.
Variable host : RefHost Store.
Variable ctx : Context.

(** The loop asks for the deletion of the references found, in order, up
    to the first deletion that fails. *)
Lemma delete_loop_deletions (listed : list pystr) :
  forall s,
    (exists k, deletions (actions (delete_loop host listed s))
               = firstn k (map after_first_slash listed))
    /\ (outcome (delete_loop host listed s) = Ok tt ->
        deletions (actions (delete_loop host listed s))
        = map after_first_slash listed)
    /\ (forall e, outcome (delete_loop host listed s) = Raise e ->
                  e = HTTPError).
Proof.
  induction listed as [|b rest IH]; intros s; cbn [delete_loop].
  - split; [exists 0; reflexivity|]. split; [reflexivity|].
    intros e H. discriminate H.
  - rewrite item_last_split.
    destruct (delete_ref host s (after_first_slash b)) as [s'|].
    + destruct (IH s') as [[k Hk] [Hok Hex]].
      destruct (delete_loop host rest s') as [[t r] s''].
      unfold actions, outcome, deletions in *.
      cbn [fst snd flat_map app map firstn] in *.
      split; [|split].
      * exists (S k). cbn [firstn]. now rewrite Hk.
      * intros H. now rewrite (Hok H).
      * exact Hex.
    + unfold actions, outcome, deletions.
      cbn [fst snd flat_map app map]. split; [|split].
      * exists 1. cbn [firstn]. now destruct (map after_first_slash rest).
      * discriminate.
      * intros e H. now inversion H.
Qed.

(** The loop, step by step: it does nothing but print a line and ask for a
    deletion, for each reference in turn; it ends normally when every
    deletion succeeded, and otherwise stops at the first deletion that
    fails, with the store as the deletions before it left it. *)
Lemma delete_loop_stops_at_failure (listed : list pystr) :
  forall s,
    actions (delete_loop host listed s)
    = deleting (deletions (actions (delete_loop host listed s)))
    /\ ((outcome (delete_loop host listed s) = Ok tt
         /\ deletions (actions (delete_loop host listed s))
            = map after_first_slash listed
         /\ delete_each host (map after_first_slash listed) s
            = Some (store_after (delete_loop host listed s)))
        \/ (exists done failed rest,
              listed = done ++ failed :: rest
              /\ outcome (delete_loop host listed s) = Raise HTTPError
              /\ deletions (actions (delete_loop host listed s))
                 = map after_first_slash (done ++ [failed])
              /\ delete_each host (map after_first_slash done) s
                 = Some (store_after (delete_loop host listed s))
              /\ delete_ref host (store_after (delete_loop host listed s))
                   (after_first_slash failed)
                 = None)).
Proof.
  induction listed as [|b rest IH]; intros s; cbn [delete_loop].
  - split; [reflexivity|]. left. repeat split.
  - rewrite item_last_split.
    destruct (delete_ref host s (after_first_slash b)) as [s'|] eqn:Hdel.
    + destruct (IH s') as [Hact Hcases].
      destruct (delete_loop host rest s') as [[t r] s''].
      unfold actions, outcome, store_after, deletions, deleting in *.
      cbn [fst snd flat_map app map] in *.
      split; [now rewrite <- Hact|].
      destruct Hcases as [[Hok [Hd He]] | [done [failed [rest' H]]]].
      * left. split; [exact Hok|]. split; [now rewrite Hd|].
        cbn [delete_each]. now rewrite Hdel.
      * destruct H as [-> [Hr [Hd [He Hf]]]]. right.
        exists (b :: done), failed, rest'.
        split; [reflexivity|]. split; [exact Hr|].
        split; [cbn [app map]; now rewrite Hd|].
        split; [|exact Hf].
        cbn [map delete_each]. now rewrite Hdel.
    + unfold actions, outcome, store_after, deletions, deleting.
      cbn [fst snd flat_map app map].
      split; [reflexivity|]. right. exists [], b, rest.
      repeat split. exact Hdel.
Qed.

Lemma listings_deleting (names : list pystr) :
  listings (deleting names) = [].
Proof.
  induction names as [|d ds IH]; [reflexivity | exact IH].
Qed.

(** X16: cleanup.py lists once, with the text [heads/], the current ref
    and [-auto-pr-]; when the listing fails nothing is deleted and the
    store is left as it is.  Otherwise it does nothing but print a line and
    ask for a deletion for references found, each under its name after the
    first slash and in the order of the answer.  Either every deletion
    succeeds: all the references found are deleted and the run ends
    normally; or the run stops at the first deletion that fails: that
    deletion is the last one asked for, the run raises HTTPError and the
    store is as the deletions before it left it.  When the host lists only
    references whose name begins with [refs/] and the text asked for,
    every name it asks to delete begins with that text. *)
Theorem cleanup_deletes_only_listed (s : Store) :
  match list_matching_refs host s (stale_prefix ctx) with
  | None =>
      cleanup host ctx s
      = ([Do (ListMatchingRefs (stale_prefix ctx))], Raise HTTPError, s)
  | Some listed =>
      actions (cleanup host ctx s)
      = Do (ListMatchingRefs (stale_prefix ctx))
        :: deleting (deletions (actions (cleanup host ctx s)))
      /\ listings (actions (cleanup host ctx s)) = [stale_prefix ctx]
      /\ ((outcome (cleanup host ctx s) = Ok tt
           /\ deletions (actions (cleanup host ctx s))
              = map after_first_slash listed
           /\ delete_each host (map after_first_slash listed) s
              = Some (store_after (cleanup host ctx s)))
          \/ (exists done failed rest,
                listed = done ++ failed :: rest
                /\ outcome (cleanup host ctx s) = Raise HTTPError
                /\ deletions (actions (cleanup host ctx s))
                   = map after_first_slash (done ++ [failed])
                /\ delete_each host (map after_first_slash done) s
                   = Some (store_after (cleanup host ctx s))
                /\ delete_ref host (store_after (cleanup host ctx s))
                     (after_first_slash failed)
                   = None))
      /\ (exists k, deletions (actions (cleanup host ctx s))
                    = firstn k (map after_first_slash listed))
      /\ (forall e, outcome (cleanup host ctx s) = Raise e -> e = HTTPError)
      /\ ((forall b, In b listed ->
             startswith b (py "refs/" ++ stale_prefix ctx) = true) ->
          forall d, In d (deletions (actions (cleanup host ctx s))) ->
                    startswith d (stale_prefix ctx) = true)
  end.
Proof.
  unfold cleanup.
  destruct (list_matching_refs host s (stale_prefix ctx)) as [listed|];
    [|reflexivity].
  destruct (delete_loop_deletions listed s) as [[k Hk] [Hok Hex]].
  destruct (delete_loop_stops_at_failure listed s) as [Hact Hcases].
  destruct (delete_loop host listed s) as [[t r] s'].
  unfold actions, outcome, store_after in *. cbn [fst snd] in *.
  assert (Hdel : deletions (Do (ListMatchingRefs (stale_prefix ctx)) :: t)
                 = deletions t) by reflexivity.
  rewrite Hdel.
  split; [now rewrite <- Hact|]. split.
  { rewrite Hact. unfold listings. cbn [flat_map app]. f_equal.
    apply listings_deleting. }
  split; [exact Hcases|]. split; [now exists k|]. split; [exact Hex|].
  intros Hlisted d Hd. rewrite Hk in Hd.
  apply In_firstn in Hd. apply in_map_iff in Hd.
  destruct Hd as [b [<- Hb]]. specialize (Hlisted b Hb).
  apply startswith_iff in Hlisted. destruct Hlisted as [tail ->].
  rewrite <- app_assoc, after_first_slash_refs.
  apply startswith_iff. now exists tail.
Qed.

End Cleanup.

(** The theorem at the sample table, for the pull request from the branch
    [feature]: every deleted name begins with [heads/feature-auto-pr-]. *)
Lemma cleanup_deletes_only_listed_witness :
  startswith (py "heads/feature-auto-pr-7")
    (stale_prefix Sample.fix_context) = true.
Proof.
  pose proof (cleanup_deletes_only_listed (list pystr) table_host
                Sample.fix_context sample_refs) as H.
  cbn [table_host list_matching_refs] in H.
  destruct H as [_ [_ [_ [_ [_ H]]]]]. apply H.
  - intros b Hb. apply filter_In in Hb. now destruct Hb.
  - vm_compute. left. reflexivity.
Defined.

(** On a host that refuses the second of three deletions, the third is not
    asked for and the first stays deleted. *)
Example cleanup_stops_at_refused_deletion :
  cleanup refusing_host Sample.fix_context three_stale_refs
  = ([Do (ListMatchingRefs (py "heads/feature-auto-pr-"));
      Say (py "Deleting heads/feature-auto-pr-7");
      Do (DeleteRef (py "heads/feature-auto-pr-7"));
      Say (py "Deleting heads/feature-auto-pr-12");
      Do (DeleteRef (py "heads/feature-auto-pr-12"))],
     Raise HTTPError,
     [py "refs/heads/main"; py "refs/heads/feature-auto-pr-12";
      py "refs/heads/feature-auto-pr-30"]).
Proof. vm_compute. reflexivity. Qed.

Example cleanup_sample :
  cleanup table_host Sample.fix_context sample_refs
  = ([Do (ListMatchingRefs (py "heads/feature-auto-pr-"));
      Say (py "Deleting heads/feature-auto-pr-7");
      Do (DeleteRef (py "heads/feature-auto-pr-7"));
      Say (py "Deleting heads/feature-auto-pr-12");
      Do (DeleteRef (py "heads/feature-auto-pr-12"))],
     Ok tt,
     [py "refs/heads/main"; py "refs/heads/feature";
      py "refs/heads/deploy/dev"; py "refs/tags/v1.2.3"]).
Proof. vm_compute. reflexivity. Qed.

Lemma filter_filter {A} (f g : A -> bool) (l : list A) :
  filter f (filter g l) = filter (fun x => g x && f x) l.
Proof.
  induction l as [|x l IH]; [reflexivity|]. cbn.
  destruct (g x); cbn; [destruct (f x)|]; now rewrite IH.
Qed.

Lemma filter_ext_In {A} (f g : A -> bool) (l : list A) :
  (forall x, In x l -> f x = g x) -> filter f l = filter g l.
Proof.
  induction l as [|x l IH]; intros H; [reflexivity|]. cbn.
  rewrite (H x (or_introl eq_refl)), IH; [reflexivity|].
  intros y Hy. apply H. now right.
Qed.

Section TableHost.

Variable Store : Type.
Variable host : RefHost Store.
Variable refs : Store -> list pystr.
Variable ctx : Context.

Hypothesis host_lists : lists_by_prefix host refs.
Hypothesis host_deletes : deletes_by_name host refs.

(** On such a host the loop deletes all the references it is given, when
    they are in the table under distinct names that begin with [refs/]. *)
Lemma delete_loop_table (listed : list pystr) :
  forall s,
    NoDup listed ->
    (forall b, In b listed ->
               In b (refs s) /\ startswith b (py "refs/") = true) ->
    outcome (delete_loop host listed s) = Ok tt
    /\ refs (store_after (delete_loop host listed s))
       = filter (fun x => negb (contains listed x)) (refs s).
Proof.
  induction listed as [|b rest IH]; intros s Hnd Hin; cbn [delete_loop].
  - split; [reflexivity|]. cbn. symmetry. apply filter_true.
  - rewrite item_last_split.
    destruct (Hin b (or_introl eq_refl)) as [Hb Hrefs].
    apply startswith_iff in Hrefs. destruct Hrefs as [name ->].
    rewrite after_first_slash_refs.
    destruct (host_deletes s name Hb) as [s' [Hdel Hs']].
    rewrite Hdel. inversion Hnd as [|? ? Hnotin Hnd']; subst.
    destruct (IH s' Hnd') as [Hok Hst].
    { intros b' Hb'. destruct (Hin b' (or_intror Hb')) as [H1 H2].
      split; [|exact H2]. rewrite Hs'. apply filter_In. split; [exact H1|].
      apply negb_true_iff, str_eqb_neq. intros ->. contradiction. }
    destruct (delete_loop host rest s') as [[t r] s''].
    unfold outcome, store_after in *. cbn [fst snd] in *.
    split; [exact Hok|].
    rewrite Hst, Hs', filter_filter. apply filter_ext.
    intros x. unfold contains. cbn [existsb].
    rewrite negb_orb. reflexivity.
Qed.

(** X17: on a host that keeps its references as a table of distinct full
    names, finds them by the beginning of the name and deletes them by
    name, cleanup.py ends normally and leaves exactly the references whose
    name does not begin with [refs/heads/], the current ref and
    [-auto-pr-]; the others are kept, in their order.  A second run finds
    nothing and deletes nothing. *)
Theorem cleanup_removes_the_stale_branches (s : Store) :
  NoDup (refs s) ->
  let stale r := startswith r (py "refs/" ++ stale_prefix ctx) in
  outcome (cleanup host ctx s) = Ok tt
  /\ refs (store_after (cleanup host ctx s))
     = filter (fun r => negb (stale r)) (refs s)
  /\ deletions (actions (cleanup host ctx s))
     = map after_first_slash (filter stale (refs s))
  /\ cleanup host ctx (store_after (cleanup host ctx s))
     = ([Do (ListMatchingRefs (stale_prefix ctx))], Ok tt,
        store_after (cleanup host ctx s)).
Proof.
  intros Hnd stale.
  assert (Hloop :
    outcome (delete_loop host (filter stale (refs s)) s) = Ok tt
    /\ refs (store_after (delete_loop host (filter stale (refs s)) s))
       = filter (fun x => negb (contains (filter stale (refs s)) x)) (refs s)).
  { apply delete_loop_table; [now apply NoDup_filter|].
    intros b Hb. apply filter_In in Hb. destruct Hb as [Hb Hst].
    split; [exact Hb|]. unfold stale in Hst.
    apply startswith_iff in Hst. destruct Hst as [tail ->].
    apply startswith_iff. exists (stale_prefix ctx ++ tail).
    now rewrite <- app_assoc. }
  destruct Hloop as [Hok Hst].
  assert (Hrefs : refs (store_after (cleanup host ctx s))
                  = filter (fun r => negb (stale r)) (refs s)).
  { unfold cleanup. rewrite host_lists. fold stale.
    destruct (delete_loop host (filter stale (refs s)) s) as [[t r] s'].
    unfold store_after in *. cbn [fst snd] in *. rewrite Hst.
    apply filter_ext_In. intros x Hx. f_equal.
    destruct (stale x) eqn:E.
    - apply contains_In. apply filter_In. now split.
    - apply not_true_iff_false. intros H. apply contains_In in H.
      apply filter_In in H. destruct H. congruence. }
  split; [|split; [exact Hrefs|split]].
  - unfold cleanup. rewrite host_lists. fold stale.
    destruct (delete_loop host (filter stale (refs s)) s) as [[t r] s'].
    exact Hok.
  - pose proof (delete_loop_deletions Store host (filter stale (refs s)) s)
      as [_ [Hdel _]].
    unfold cleanup. rewrite host_lists. fold stale.
    destruct (delete_loop host (filter stale (refs s)) s) as [[t r] s'].
    unfold actions, outcome, deletions in *.
    cbn [fst snd flat_map app] in *. now apply Hdel.
  - unfold cleanup at 1. rewrite host_lists. fold stale. rewrite Hrefs.
    rewrite filter_filter.
    rewrite (filter_ext _ (fun _ => false)), filter_false; [reflexivity|].
    intros x. now destruct (stale x).
Qed.

End TableHost.

Lemma table_host_lists : lists_by_prefix table_host (fun s => s).
Proof. intros s p. reflexivity. Qed.

Lemma table_host_deletes : deletes_by_name table_host (fun s => s).
Proof.
  intros s r Hin. unfold table_host. cbn [delete_ref].
  apply contains_In in Hin. rewrite Hin. eexists. split; reflexivity.
Qed.

(** The theorem at the sample table, for the pull request from the branch
    [feature]. *)
Lemma cleanup_removes_the_stale_branches_witness :
  outcome (cleanup table_host Sample.fix_context sample_refs) = Ok tt
  /\ store_after (cleanup table_host Sample.fix_context sample_refs)
     = [py "refs/heads/main"; py "refs/heads/feature";
        py "refs/heads/deploy/dev"; py "refs/tags/v1.2.3"].
Proof.
  destruct (cleanup_removes_the_stale_branches
              (list pystr) table_host (fun s => s) Sample.fix_context
              table_host_lists table_host_deletes sample_refs)
    as [Hok [Hrefs _]].
  - unfold sample_refs.
    repeat (constructor; [cbn; intuition discriminate|]). constructor.
  - split; [exact Hok|]. rewrite Hrefs. reflexivity.
Defined.

(** ** reset_branch.py and reset_dev_branch.py *)

(** X18: [_reset_branch] makes one call, which moves [heads/] and the name
    given to the sha of the event, with force; it prints the answer when
    the call succeeds and leaves the store as it is when the call fails.
    reset_dev_branch.py is [_reset_branch] at the name of the deploy
    branch, the branch whose reference [get_last_commit] reads for the
    safety check. *)
Theorem reset_dev_branch_is_reset_branch (Store : Type)
    (host : RefHost Store) (ctx : Context) (s : Store) :
  reset_dev_branch host ctx s = _reset_branch host ctx DEPLOY_DEV_BRANCH s
  /\ (forall name,
        exists shown,
          deletions (actions (_reset_branch host ctx name s)) = []
          /\ (actions (_reset_branch host ctx name s)
              = [Do (UpdateRef (py "heads/" ++ name) (ctx_sha ctx) true)]
              /\ outcome (_reset_branch host ctx name s) = Raise HTTPError
              /\ store_after (_reset_branch host ctx name s) = s
              /\ update_ref host s (py "heads/" ++ name) (ctx_sha ctx) true
                 = None
              \/ actions (_reset_branch host ctx name s)
                 = [Do (UpdateRef (py "heads/" ++ name) (ctx_sha ctx) true);
                    Say shown]
                 /\ outcome (_reset_branch host ctx name s) = Ok tt
                 /\ update_ref host s (py "heads/" ++ name) (ctx_sha ctx) true
                    = Some (shown, store_after (_reset_branch host ctx name s))))
  /\ (forall api,
        exists rest,
          calls_of (trace (get_last_commit api DEPLOY_DEV_BRANCH))
          = GetRef (py "heads/deploy/dev") :: rest).
Proof.
  split; [reflexivity|]. split.
  - intros name. unfold _reset_branch.
    destruct (update_ref host s (py "heads/" ++ name) (ctx_sha ctx) true)
      as [[shown s']|].
    + exists shown. split; [reflexivity|]. right. repeat split.
    + exists []. split; [reflexivity|]. left. repeat split.
  - intros api. unfold get_last_commit, get_ref, http.
    destruct (git_get_ref api (py "heads/" ++ DEPLOY_DEV_BRANCH)) as [sha|].
    + cbn [bind tell ret app].
      destruct (get_commit api sha) as [t r]. eexists. reflexivity.
    + eexists. reflexivity.
Qed.

(** ** A deployment recorded with the note of the run *)

(** X19: on a pull request, when the deploy branch was last updated by a
    bot and the message of that commit ends with the note that this run
    writes to note_raw, the run is not blocked: provided the comparisons
    and the reads of the safety check succeed, [check_safe_to_deploy]
    answers true, no error is reported and the run does not end with
    [exit]. *)
Theorem recorded_note_is_not_blocked (ctx : Context) (api : GhApi)
    (note st1 st2 : pystr) (deploy main_tip : Commit) :
  event_name ctx = py "pull_request" ->
  result (get_deploy_note ctx api None) = Ok note ->
  repos_compare_commits api (MAIN_BRANCH_NAME ctx) DEPLOY_DEV_BRANCH
  = Some st1 ->
  repos_compare_commits api (head_ref ctx) DEPLOY_DEV_BRANCH = Some st2 ->
  result (get_last_commit api DEPLOY_DEV_BRANCH) = Ok deploy ->
  result (get_last_commit api (MAIN_BRANCH_NAME ctx)) = Ok main_tip ->
  In (email (committer deploy)) BOT_EMAILS ->
  endswith (message deploy) note = true ->
  In (py "note_raw", note) (outputs_of (trace (main ctx api)))
  /\ result (check_safe_to_deploy ctx api) = Ok true
  /\ errors_of (trace (main ctx api)) = []
  /\ (forall n, result (main ctx api) <> Raise (SystemExit n))
  /\ (forall required,
        result (check_deploy_required ctx api) = Ok required ->
        result (main ctx api) = Ok tt).
Proof.
  intros Hev Hnote H1 H2 Hdeploy Hmain Hbot Hends.
  assert (Hsafe : result (check_safe_to_deploy ctx api) = Ok true).
  { pose proof (directly_deployed_run ctx api) as Hrun. cbv zeta in Hrun.
    rewrite H1, H2 in Hrun.
    unfold check_safe_to_deploy. event_is Hev.
    destruct (Str.eqb st1 identical).
    { rewrite Hrun. reflexivity. }
    destruct (Str.eqb st2 identical).
    { rewrite Hrun. reflexivity. }
    assert (Hd : result (_is_branch_directly_deployed ctx api) = Ok PyNone)
      by now rewrite Hrun.
    rewrite (result_bind_ok _ _ _ Hd). cbn [truthy].
    rewrite (result_bind_ok _ _ _ Hdeploy), (result_bind_ok _ _ _ Hmain).
    cbn [safe_loop]. apply contains_In in Hbot. rewrite Hbot. cbn [negb].
    rewrite (result_bind_ok _ _ _ Hnote), Hends. reflexivity. }
  pose proof (no_exit_check_deploy_required ctx api) as N2.
  unfold no_exit in N2.
  rewrite main_cases. cbv zeta. rewrite Hnote, Hsafe.
  destruct (result (check_deploy_required ctx api)) as [required|e2].
  - destruct required; quiet_traces ctx api;
      (split; [now left|]); (split; [reflexivity|]);
      (split; [reflexivity|]); split; intros; congruence.
  - quiet_traces ctx api.
    split; [now left|]. split; [reflexivity|]. split; [reflexivity|].
    split.
    + intros n H. inversion H; subst. exact (N2 n eq_refl).
    + intros required H. discriminate H.
Qed.

(** The theorem at the sample pull request whose note the bot recorded on
    the deploy branch. *)
Lemma recorded_note_is_not_blocked_witness :
  result (main Sample.fix_context (Sample.host Sample.deploy_tip_noted))
  = Ok tt.
Proof.
  destruct (recorded_note_is_not_blocked
              Sample.fix_context (Sample.host Sample.deploy_tip_noted)
              Sample.pr_note (py "ahead") (py "ahead")
              Sample.deploy_tip_noted Sample.main_tip)
    as [_ [_ [_ [_ H]]]].
  - reflexivity.
  - reflexivity.
  - reflexivity.
  - reflexivity.
  - vm_compute. reflexivity.
  - vm_compute. reflexivity.
  - cbn. left. reflexivity.
  - vm_compute. reflexivity.
  - apply (H true). vm_compute. reflexivity.
Defined.
